(** * trello-export-board.py: a shallow embedding and its properties

    The script exports a Trello board to one spreadsheet and one document
    per card.  This development embeds the text helpers
    ([escape_xml], [sanitize_filename], [lists_get_name]), the board
    selection, the spreadsheet pass and the document pass, and proves
    the properties stated for them.

    Python values are modelled as follows.
    - A [str] is the list of its Unicode code points ([pystr]).
    - JSON objects of the Trello API are records; keys the script tests
      with [in] are [option] fields.
    - Effects (console, spreadsheet cells, files) are recorded in order in
      a trace of events; [sys.exit()] and an uncaught exception are the
      two abnormal outcomes of a run. *)

From Stdlib Require Import ZArith NArith QArith Qabs Lia Ascii String.
From Stdlib Require Import Sorting.Sorted Sorting.Permutation.
From Stdlib Require Import Numbers.DecimalString.
From Stdlib Require Import Floats.SpecFloat.
From stdpp Require Import base list strings gmap.

Local Open Scope N_scope.

(** ** Python strings *)

(** A Python [str]: a sequence of code points. *)
Definition pystr : Type := list N.

(** The code point of an ASCII character, and a string literal. *)
Definition chr (a : ascii) : N := N_of_ascii a.
Definition str (s : string) : pystr := map chr (list_ascii_of_string s).
Arguments chr : simpl never.
Arguments str : simpl never.

(** [sep.join(parts)] *)
Fixpoint join (sep : pystr) (parts : list pystr) : pystr :=
  match parts with
  | [] => []
  | [p] => p
  | p :: ps => p ++ sep ++ join sep ps
  end.

(** [s.replace(old, new)] where [old] is a one-character string, as at
    every call site of the script: each occurrence of the character is
    replaced, left to right. *)
Fixpoint replace (old : N) (new : pystr) (s : pystr) : pystr :=
  match s with
  | [] => []
  | c :: s' => (if c =? old then new else [c]) ++ replace old new s'
  end.

(** ** [escape_xml] (source lines 86-92) *)

Definition escape_xml (str_input : pystr) : pystr :=
  replace (chr ">") (str "&gt;")
    (replace (chr "<") (str "&lt;")
       (replace (chr "&") (str "&amp;") str_input)).

(** ** [sanitize_filename] (source lines 73-84) *)

(** [\w] and [\s] of the [re] module on the ASCII range, which is all
    that reaches the patterns after [encode('ascii', 'ignore')]. *)
Definition re_word (c : N) : bool :=
  ((48 <=? c) && (c <=? 57)) || ((65 <=? c) && (c <=? 90))
  || ((97 <=? c) && (c <=? 122)) || (c =? 95).

Definition re_space (c : N) : bool :=
  ((9 <=? c) && (c <=? 13)) || ((28 <=? c) && (c <=? 32)).

(** [.encode('ascii', 'ignore').decode('utf8')]: code points outside
    ASCII are dropped. *)
Fixpoint encode_ascii_ignore (s : pystr) : pystr :=
  match s with
  | [] => []
  | c :: s' => if c <? 128 then c :: encode_ascii_ignore s'
               else encode_ascii_ignore s'
  end.

(** [re.sub('[...]', '', s)] for a one-character class: every matching
    character is deleted. *)
Fixpoint re_delete (cls : N -> bool) (s : pystr) : pystr :=
  match s with
  | [] => []
  | c :: s' => if cls c then re_delete cls s' else c :: re_delete cls s'
  end.

(** [re.sub('[...]+', repl, s)]: every maximal run of characters of the
    class is replaced by [repl].  [in_run] tells that the previous
    character belonged to the run being replaced. *)
Fixpoint re_sub_runs_from (cls : N -> bool) (repl : pystr) (in_run : bool)
    (s : pystr) : pystr :=
  match s with
  | [] => []
  | c :: s' =>
      if cls c
      then (if in_run then [] else repl) ++ re_sub_runs_from cls repl true s'
      else c :: re_sub_runs_from cls repl false s'
  end.

Definition re_sub_runs (cls : N -> bool) (repl : pystr) (s : pystr) : pystr :=
  re_sub_runs_from cls repl false s.

(** [s.lstrip(chars)], [s.rstrip(chars)] and [s.strip(chars)]. *)
Fixpoint lstrip (chars : N -> bool) (s : pystr) : pystr :=
  match s with
  | [] => []
  | c :: s' => if chars c then lstrip chars s' else s
  end.

Definition rstrip (chars : N -> bool) (s : pystr) : pystr :=
  reverse (lstrip chars (reverse s)).

Definition strip (chars : N -> bool) (s : pystr) : pystr :=
  rstrip chars (lstrip chars s).

(** The character classes of the four patterns. *)
Definition cls_not_allowed (c : N) : bool :=
  negb ((c =? chr ".") || re_word c || re_space c || (c =? chr "-")).
Definition cls_separator (c : N) : bool :=
  (c =? chr "-") || (c =? chr "_") || re_space c.
Definition cls_dot (c : N) : bool := c =? chr ".".
Definition strip_chars (c : N) : bool :=
  (c =? chr "-") || (c =? chr "_") || (c =? chr ".").

Section Sanitize.
(** [unicodedata.normalize('NFKD', _)] comes from the Unicode tables of
    the Python runtime; it is a parameter here. *)
Variable nfkd : pystr -> pystr.

Definition sanitize_filename (filename : pystr) : pystr :=
  let filename := encode_ascii_ignore (nfkd filename) in
  let filename := re_delete cls_not_allowed filename in
  let filename := re_sub_runs cls_separator (str "-") filename in
  let filename := re_sub_runs cls_dot (str ".") filename in
  strip strip_chars filename.
End Sanitize.

(** ** Small helpers of the Python runtime *)

(** [str(n)] for an [int]. *)
Definition str_of_int (n : Z) : pystr :=
  str (NilZero.string_of_int (Z.to_int n)).

(** [s.rjust(width)], the padding of the format spec [{i:4}]. *)
Definition rjust (width : nat) (s : pystr) : pystr :=
  repeat (chr " ") (width - length s) ++ s.

(** [a < b] on [str]: lexicographic on code points. *)
Fixpoint str_ltb (a b : pystr) : bool :=
  match a, b with
  | _, [] => false
  | [], _ :: _ => true
  | x :: a', y :: b' => (x <? y) || ((x =? y) && str_ltb a' b')
  end.

(** [a < b] on JSON numbers (exact comparison). *)
Definition num_ltb (a b : Q) : bool := negb (Qle_bool b a).

(** [sorted(l, key=...)]: the stable sort.  An element is inserted in
    front of the already sorted rest of the list, behind the elements of
    strictly smaller key only, so that equal keys keep their order. *)
Section Sorted.
Context {A K : Type} (ltb : K -> K -> bool) (key : A -> K).

Fixpoint insert_sorted (x : A) (l : list A) : list A :=
  match l with
  | [] => [x]
  | y :: l' => if ltb (key y) (key x) then y :: insert_sorted x l'
               else x :: l
  end.

Fixpoint sorted (l : list A) : list A :=
  match l with
  | [] => []
  | x :: l' => insert_sorted x (sorted l')
  end.
End Sorted.

(** ** Floating point (binary64) *)

(** Python floats are IEEE-754 binary64 numbers; their operations are the
    ones of the Standard Library's executable specification at precision
    53 and maximal exponent 1024. *)
Definition float_of_int (n : Z) : spec_float := binary_normalize 53 1024 n 0 false.
Definition float_mul (x y : spec_float) : spec_float := SFmul 53 1024 x y.

(** [a / b] on two [int]s below [2^53], which convert to floats without
    rounding: the correctly rounded quotient. *)
Definition truediv (a b : Z) : spec_float :=
  SFdiv 53 1024 (float_of_int a) (float_of_int b).

(** The integer nearest to [a / b] for [0 < b], a tie going to the even
    neighbour. *)
Definition round_half_even (a b : Z) : Z :=
  let q := (a / b)%Z in
  match (2 * (a mod b) ?= b)%Z with
  | Lt => q
  | Gt => (q + 1)%Z
  | Eq => if Z.even q then q else (q + 1)%Z
  end.

(** [int(round(x, 0))]: [round] with [ndigits = 0] rounds the exact value
    of the float to an integral float, ties to even, and [int] converts
    it.  Python raises on an infinity or a NaN, which no call of the
    script produces; they are mapped to 0. *)
Definition int_round (x : spec_float) : Z :=
  match x with
  | S754_finite s m e =>
      let n := match e with
               | Zneg p => round_half_even (Zpos m) (2 ^ Zpos p)
               | _ => (Zpos m * 2 ^ e)%Z
               end in
      if s then (- n)%Z else n
  | _ => 0%Z
  end.

(** ** The Trello data model

    The JSON objects of the API, with the fields the script reads.  A
    JSON [null] date is [None]; the keys [checklists], [actions] and
    [attachments], which the script tests with [in], are optional. *)

Record label := { label_name : pystr }.

Record checkItem := {
  checkItem_id : pystr;
  checkItem_name : pystr;
  checkItem_pos : Q;
  checkItem_state : pystr }.

Record checklist := {
  checklist_name : pystr;
  checklist_pos : Q;
  checklist_checkItems : list checkItem }.

(** An action; [action_data_checkItem_id] is [data.checkItem.id],
    [action_data_text] is [data.text] and [action_memberCreator] is the
    field of [memberCreator] that [config['Labels']['user_name']] names. *)
Record action := {
  action_type : pystr;
  action_date : pystr;
  action_data_checkItem_id : pystr;
  action_data_text : pystr;
  action_memberCreator : pystr }.

Record attachment := {
  attachment_name : pystr;
  attachment_url : pystr;
  attachment_date : pystr }.

Record card := {
  card_id : pystr;
  card_name : pystr;
  card_desc : pystr;
  card_idList : pystr;
  card_labels : list label;
  card_start : option pystr;
  card_due : option pystr;
  card_dateLastActivity : option pystr;
  card_closed : bool;
  card_idShort : Z;
  card_shortUrl : pystr;
  card_checklists : option (list checklist);
  card_actions : option (list action);
  card_attachments : option (list attachment) }.

(** The rows the script builds: [[id, name, desc]] for a board and
    [[id, name, pos]] for a list. *)
Definition board_row : Type := pystr * pystr * pystr.
Definition list_row : Type := pystr * pystr * Q.

(** [str(b)] for a [bool]. *)
Definition str_of_bool (b : bool) : pystr :=
  if b then str "True" else str "False".

(** ** [lists_get_name] (source lines 58-71) *)

Fixpoint lists_get_name (listId : pystr) (haystack : list list_row) : pystr :=
  match haystack with
  | [] => []
  | row :: haystack' =>
      if decide (row.1.1 = listId) then row.1.2
      else lists_get_name listId haystack'
  end.

(** ** The rendering context of a card (source lines 418-538) *)

(** A check-item of the context: [[name, pos, state, date]]; a checklist:
    [[name, pos, checkItems, pcentComplet]]; a comment:
    [[date, author, text]]; an attachment: [[fileName, date]]. *)
Definition checkItem_ctx : Type := pystr * Q * pystr * pystr.
Definition checklist_ctx : Type := pystr * Q * list checkItem_ctx * pystr.
Definition action_ctx : Type := pystr * pystr * pystr.
Definition attachment_ctx : Type := pystr * pystr.

Inductive ctx_value :=
  | CtxStr (s : pystr)
  | CtxChecklists (l : list checklist_ctx)
  | CtxActions (l : list action_ctx)
  | CtxAttachments (l : list attachment_ctx).

Section Context.
(** [convert_UTC_to_Local_Datetime(d).strftime(fmt)] for the two
    configured formats; [dateutil] and the time zone data are outside
    the script. *)
Variable strftime_date : pystr -> pystr.
Variable strftime_datetime : pystr -> pystr.

(** A date field: [''] for [null]. *)
Definition date_field (fmt : pystr -> pystr) (d : option pystr) : pystr :=
  match d with
  | None => []
  | Some d => fmt d
  end.

(** Lines 354-360: the label string of the spreadsheet. *)
Definition sheet_labels (c : card) : pystr :=
  match card_labels c with
  | [] => []
  | _ => join (str ", ")
           (filter (fun n => n <> []) (map label_name (card_labels c)))
  end.

(** Lines 419-425: the label string of the document. *)
Definition document_labels (c : card) : pystr :=
  match card_labels c with
  | [] => []
  | _ => join (str ", ")
           (map escape_xml
              (filter (fun n => n <> []) (map label_name (card_labels c))))
  end.

(** Lines 454-461: the loop over [card['actions']] with its [break]. *)
Fixpoint scan_actions (acts : list action) (checkItemId : pystr) : pystr :=
  match acts with
  | [] => []
  | a :: acts' =>
      if decide (action_type a = str "updateCheckItemStateOnCard")
      then if decide (action_data_checkItem_id a = checkItemId)
           then strftime_date (action_date a)
           else scan_actions acts' checkItemId
      else scan_actions acts' checkItemId
  end.

Definition updateCheckItemStateDate (c : card) (it : checkItem) : pystr :=
  match card_actions c with
  | None => []
  | Some acts => scan_actions acts (checkItem_id it)
  end.

(** Lines 452-471: the loop over the check-items of one checklist,
    carrying [checkItems] and [checklistComplete]. *)
Fixpoint checkItems_loop (c : card) (items : list checkItem)
    (checkItems : list checkItem_ctx) (checklistComplete : Z)
    : list checkItem_ctx * Z :=
  match items with
  | [] => (checkItems, checklistComplete)
  | it :: items' =>
      let date := updateCheckItemStateDate c it in
      let checklistComplete :=
        if decide (checkItem_state it = str "complete")
        then (checklistComplete + 1)%Z else checklistComplete in
      checkItems_loop c items'
        (checkItems ++ [(escape_xml (checkItem_name it), checkItem_pos it,
                         checkItem_state it, date)])
        checklistComplete
  end.

(** Line 476. *)
Definition pcent (checklistComplete : Z) (total : nat) : pystr :=
  str_of_int
    (int_round (float_mul (truediv checklistComplete (Z.of_nat total))
                  (float_of_int 100)))
  ++ str "%".

(** Lines 446-483: one checklist of the context. *)
Definition checklist_entry (c : card) (cl : checklist) : checklist_ctx :=
  let '(checkItems, pcentComplet) :=
    match checklist_checkItems cl with
    | [] => ([], [])
    | items =>
        let '(checkItems, checklistComplete) := checkItems_loop c items [] 0%Z in
        let checkItems :=
          match checkItems with
          | [] => checkItems
          | _ => sorted num_ltb (fun x : checkItem_ctx => x.1.1.2) checkItems
          end in
        (checkItems, pcent checklistComplete (length items))
    end in
  (escape_xml (checklist_name cl), checklist_pos cl, checkItems, pcentComplet).

(** Lines 444-486: the loop over the checklists; the list built so far
    is sorted again at the end of every iteration. *)
Fixpoint checklists_loop (c : card) (cls : list checklist)
    (checklists : list checklist_ctx) : list checklist_ctx :=
  match cls with
  | [] => checklists
  | cl :: cls' =>
      let checklists :=
        if decide (checklist_name cl <> [])
        then checklists ++ [checklist_entry c cl] else checklists in
      let checklists :=
        match checklists with
        | [] => checklists
        | _ => sorted num_ltb (fun x : checklist_ctx => x.1.1.2) checklists
        end in
      checklists_loop c cls' checklists
  end.

Definition card_checklists_ctx (c : card) : list checklist_ctx :=
  match card_checklists c with
  | None => []
  | Some cls => checklists_loop c cls []
  end.

(** Lines 489-498: the comments. *)
Fixpoint actions_loop (acts : list action) : list action_ctx :=
  match acts with
  | [] => []
  | a :: acts' =>
      if decide (action_type a = str "commentCard")
      then (strftime_datetime (action_date a),
            escape_xml (action_memberCreator a),
            escape_xml (action_data_text a)) :: actions_loop acts'
      else actions_loop acts'
  end.

Definition card_actions_ctx (c : card) : list action_ctx :=
  match card_actions c with
  | None => []
  | Some acts => actions_loop acts
  end.

(** Lines 528-538: the context, a dictionary. *)
Definition card_context (lists : list list_row) (c : card)
    (attachments : list attachment_ctx) : gmap string ctx_value :=
  let context : gmap string ctx_value := ∅ in
  let context := <["title" := CtxStr (escape_xml (card_name c))]> context in
  let context :=
    <["list" := CtxStr (escape_xml (lists_get_name (card_idList c) lists))]> context in
  let context := <["labels" := CtxStr (escape_xml (document_labels c))]> context in
  let context :=
    <["startDate" := CtxStr (date_field strftime_date (card_start c))]> context in
  let context :=
    <["dueDate" := CtxStr (date_field strftime_datetime (card_due c))]> context in
  let context :=
    <["lastActivityDate" :=
        CtxStr (date_field strftime_datetime (card_dateLastActivity c))]> context in
  let context := <["description" := CtxStr (escape_xml (card_desc c))]> context in
  let context := <["checklists" := CtxChecklists (card_checklists_ctx c)]> context in
  let context := <["actions" := CtxActions (card_actions_ctx c)]> context in
  <["attachments" := CtxAttachments attachments]> context.
End Context.

(** ** Runs: effects and abnormal termination *)

(** The exceptions the script can leave uncaught.  [OSError] stands for
    its subclasses too; [FileCreateError] is what [workbook.close()]
    raises when it cannot create the file; [RenderError] is whatever
    [document.render] raises on a template it cannot load or render. *)
Inductive exn :=
  | IndexError | EOFError | RequestException
  | OSError | FileCreateError | RenderError.

(** How a piece of the script ends: normally with a value, by
    [sys.exit()], or by an uncaught exception. *)
Inductive outcome (A : Type) :=
  | Done (a : A)
  | Exit
  | Raise (e : exn).
Arguments Done {A} a.
Arguments Exit {A}.
Arguments Raise {A} e.

(** A spreadsheet cell value, and a worksheet as the rows written to it,
    each with its row number. *)
Inductive cell := CellStr (s : pystr) | CellInt (n : Z).
Definition worksheet : Type := list (Z * list cell).

(** The effects of the script on its environment.  [RemoveIfExists] is
    a call of [remove_if_exists] (lines 108-119); [CloseWorkbook] is the
    spreadsheet file as [workbook.close()] writes it, with the rows of its
    two sheets; [WriteFile] is the file of an attachment as line 519
    writes it; [SaveDocument] is a rendered document as [document.save]
    writes it, with the context it was rendered from; [CopyFile] and
    [MakeDirs] are the [shutil.copyfile] and [os.makedirs] of the
    start-up.  An operation that raises leaves no event.  Cell formats
    and column widths are left out. *)
Inductive event :=
  | Print (line : pystr)
  | Input (prompt : pystr)
  | RemoveIfExists (path : pystr)
  | CloseWorkbook (path : pystr) (worksheet1 worksheet2 : worksheet)
  | WriteFile (path : pystr) (content : list N)
  | SaveDocument (path : pystr) (context : gmap string ctx_value)
  | CopyFile (src dst : pystr)
  | MakeDirs (path : pystr).

(** A computation: the events it performed, in order, and its outcome. *)
Definition run (A : Type) : Type := list event * outcome A.

#[global] Instance run_ret : MRet run := fun A a => ([], Done a).
#[global] Instance run_bind : MBind run := fun A B f m =>
  match m.2 with
  | Done a => (m.1 ++ (f a).1, (f a).2)
  | Exit => (m.1, Exit)
  | Raise e => (m.1, Raise e)
  end.

Definition emit (e : event) : run unit := ([e], Done tt).
Definition print (line : pystr) : run unit := emit (Print line).
Definition sys_exit {A} : run A := ([], Exit).
Definition raise {A} (e : exn) : run A := ([], Raise e).

(** [for x in l: body(x)] *)
Fixpoint for_each {A} (body : A -> run unit) (l : list A) : run unit :=
  match l with
  | [] => mret tt
  | x :: l' => body x ;; for_each body l'
  end.

(** What [requests.request] does: it raises, or returns a response with
    a status code and a body. *)
Inductive http (A : Type) :=
  | ConnectionError
  | Response (status_code : Z) (body : A).
Arguments ConnectionError {A}.
Arguments Response {A} status_code body.

(** The calls of the script into the file system and the template
    engine that can raise: [shutil.copyfile] (line 51), [os.makedirs]
    (lines 151-158), [os.remove] on a file that exists (line 115),
    [open(_, "wb")] with its write (lines 519-520), [document.render]
    (line 541, which loads the template), [document.save] (lines 548 and
    551) and [workbook.close()] (line 389). *)
Inductive fs_call :=
  | Copyfile (src dst : pystr)
  | Makedirs (path : pystr)
  | Remove (path : pystr)
  | OpenWb (path : pystr)
  | Render (context : gmap string ctx_value)
  | Save (path : pystr)
  | Close (path : pystr).

(** The world the script talks to: the Trello API, by endpoint, the
    lines typed on the console, and the file system.  [path_exists] is
    [os.path.exists] when the script starts; [raises] tells which calls
    raise, [raises (Remove p)] standing for: the file [p] exists when
    [remove_if_exists] comes to it and its removal raises.  The answer to
    a call is taken to be the same each time the run makes it. *)
Record world := {
  members_me_boards : http (list board_row);
  boards_lists : pystr -> http (list list_row);
  boards_cards_all : pystr -> http (list card);
  cards_get : pystr -> http card;
  attachment_get : pystr -> http (list N);
  stdin : list pystr;
  path_exists : pystr -> bool;
  raises : fs_call -> bool }.

(** The paths of lines 147-150. *)
Definition path : pystr := str "./exports/".
Definition pathToCards : pystr := path ++ str "cards/".
Definition pathToArchived : pystr := path ++ str "archived/".
Definition pathToAttachments : pystr := path ++ str "attachments/".

(** [remove_if_exists] (lines 108-119).  The handler of the bare [except]
    prints two lines, the second with the global [boardFileName] (and
    without the closing quote), and ends the run by [sys.exit()]. *)
Definition remove_if_exists (w : world) (boardFileName fileName : pystr)
    : run unit :=
  emit (RemoveIfExists fileName) ;;
  if raises w (Remove fileName)
  then print (str "Oops, an error occurred.") ;;
       print (str "'" ++ fileName ++ str "' already exists." ++ [10]
              ++ str "You should rename or delete '" ++ boardFileName
              ++ str ".") ;;
       sys_exit
  else mret tt.

(** The file-system calls that are not guarded: an exception ends the
    run. *)
Definition write_file (w : world) (fileName : pystr) (content : list N)
    : run unit :=
  if raises w (OpenWb fileName) then raise OSError
  else emit (WriteFile fileName content).

Definition save_document (w : world) (fileName : pystr)
    (context : gmap string ctx_value) : run unit :=
  if raises w (Save fileName) then raise OSError
  else emit (SaveDocument fileName context).

Definition close_workbook (w : world) (fileName : pystr)
    (worksheet1 worksheet2 : worksheet) : run unit :=
  if raises w (Close fileName) then raise FileCreateError
  else emit (CloseWorkbook fileName worksheet1 worksheet2).

Section Script.
Variable nfkd : pystr -> pystr.
Variable strftime_date : pystr -> pystr.
Variable strftime_datetime : pystr -> pystr.
(** [int(s)]: [None] stands for [ValueError]. *)
Variable int_of_str : pystr -> option Z.
(** The column headers of [config['Labels']]. *)
Variable wsHeaders : list cell.
Variable w : world.

(** *** Step 1: the boards (lines 162-191) *)
Definition get_boards : run (list board_row) :=
  match members_me_boards w with
  | ConnectionError => print (str "Oops, an error occurred.") ;; sys_exit
  | Response status_code json_data =>
      if (status_code =? 200)%Z
      then mret (sorted str_ltb (fun x : board_row => x.1.2) json_data)
      else print (str "Oops, an error occurred.") ;;
           print (str "Cannot retrieve boards that you are member of.") ;;
           print (str "Response code : " ++ str_of_int status_code) ;;
           sys_exit
  end.

(** *** Step 2: the selection (lines 195-215) *)

(** The [while True] loop around [input]; it ends on the first valid
    number, and an exhausted console raises [EOFError]. *)
Fixpoint ask_board (len : Z) (lines : list pystr) : run Z :=
  match lines with
  | [] => emit (Input (str "Select a board : ")) ;; raise EOFError
  | line :: lines' =>
      emit (Input (str "Select a board : ")) ;;
      match int_of_str line with
      | Some num =>
          if ((num <? 0) || (len <=? num))%Z
          then print (str "This is not a valid board number.") ;;
               ask_board len lines'
          else mret num
      | None => print (str "This is not a valid board number.") ;;
                ask_board len lines'
      end
  end.

Definition board_line (ib : nat * board_row) : pystr :=
  rjust 4 (str_of_int (Z.of_nat ib.1)) ++ str ": " ++ ib.2.1.2.

Definition select_board (boards : list board_row) : run board_row :=
  num ← (if (1 <? Z.of_nat (length boards))%Z
         then print (str "------------------------------") ;;
              for_each (fun ib => print (board_line ib))
                (imap (fun i b => (i, b)) boards) ;;
              print (str "------------------------------") ;;
              ask_board (Z.of_nat (length boards)) (stdin w)
         else mret 0%Z);
  match boards !! Z.to_nat num with
  | Some b => mret b
  | None => raise IndexError
  end.

(** *** Step 3: the lists (lines 219-243); the request is not guarded
    by [try]. *)
Definition get_lists (boardId boardName : pystr) : run (list list_row) :=
  match boards_lists w boardId with
  | ConnectionError => raise RequestException
  | Response status_code json_data =>
      if (status_code =? 200)%Z
      then mret (sorted num_ltb (fun x : list_row => x.2) json_data)
      else print (str "Oops, an error occurred.") ;;
           print (str "Cannot retrieve Lists on '" ++ boardName ++ str "'") ;;
           print (str "Response code : " ++ str_of_int status_code) ;;
           sys_exit
  end.

(** *** Step 4: the spreadsheet (lines 247-389) *)
Definition get_cards (boardId boardName : pystr) : run (list card) :=
  match boards_cards_all w boardId with
  | ConnectionError => raise RequestException
  | Response status_code cards =>
      if (status_code =? 200)%Z
      then mret cards
      else print (str "Oops, an error occurred.") ;;
           print (str "Cannot retrieve Board '" ++ boardName ++ str "'") ;;
           print (str "Response code : " ++ str_of_int status_code) ;;
           sys_exit
  end.

(** The nine cells of a card's row (lines 364-372). *)
Definition card_row (lists : list list_row) (c : card) : list cell :=
  [ CellStr (lists_get_name (card_idList c) lists);
    CellStr (card_name c);
    CellStr (card_desc c);
    CellStr (date_field strftime_date (card_start c));
    CellStr (date_field strftime_datetime (card_due c));
    CellStr (date_field strftime_datetime (card_dateLastActivity c));
    CellStr (sheet_labels c);
    CellInt (card_idShort c);
    CellStr (card_shortUrl c) ].

(** The two worksheets and their row counters. *)
Record sheets := {
  worksheet1 : worksheet;
  worksheet1cellRow : Z;
  worksheet2 : worksheet;
  worksheet2cellRow : Z }.

(** One iteration of the loop of lines 343-385. *)
Definition write_card (lists : list list_row) (s : sheets) (c : card) : sheets :=
  if decide (str_of_bool (card_closed c) = str "False")
  then {| worksheet1 := worksheet1 s ++ [(worksheet1cellRow s, card_row lists c)];
          worksheet1cellRow := worksheet1cellRow s + 1;
          worksheet2 := worksheet2 s;
          worksheet2cellRow := worksheet2cellRow s |}
  else {| worksheet1 := worksheet1 s;
          worksheet1cellRow := worksheet1cellRow s;
          worksheet2 := worksheet2 s ++ [(worksheet2cellRow s, card_row lists c)];
          worksheet2cellRow := worksheet2cellRow s + 1 |}.

Definition write_cards (lists : list list_row) (cards : list card) : sheets :=
  foldl (write_card lists)
    {| worksheet1 := [(0%Z, wsHeaders)]; worksheet1cellRow := 1;
       worksheet2 := [(0%Z, wsHeaders)]; worksheet2cellRow := 1 |}
    cards.

Definition export_xlsx (boardName : pystr) (lists : list list_row)
    (cards : list card) : run unit :=
  let boardFileName := sanitize_filename nfkd boardName in
  let boardFileName := take 250 boardFileName ++ str ".xlsx" in
  remove_if_exists w boardFileName (path ++ boardFileName) ;;
  let s := write_cards lists cards in
  close_workbook w (path ++ boardFileName) (worksheet1 s) (worksheet2 s).
End Script.

Section Documents.
Variable nfkd : pystr -> pystr.
Variable strftime_date : pystr -> pystr.
Variable strftime_datetime : pystr -> pystr.
Variable w : world.
(** The global [boardFileName] of line 272, which [remove_if_exists]
    reads. *)
Variable boardFileName : pystr.

(** *** The attachments of a card (lines 500-525)

    [status] is the status code of the variable [response] as the
    previous request left it; the handler of the [except] prints it.
    Only an exception of the request skips the attachment: the status
    code of a response is not looked at, and the removal and the write
    stand outside the [try]. *)
Fixpoint download_attachments (idShort : Z) (atts : list attachment)
    (status : Z) (attachments : list attachment_ctx)
    : run (list attachment_ctx) :=
  match atts with
  | [] => mret attachments
  | a :: atts' =>
      let attachmentFileName :=
        sanitize_filename nfkd
          (str_of_int idShort ++ str "-" ++ attachment_name a) in
      remove_if_exists w boardFileName (pathToAttachments ++ attachmentFileName) ;;
      print (str "  Downloading '" ++ attachmentFileName ++ str "'") ;;
      match attachment_get w (attachment_url a) with
      | ConnectionError =>
          print (str "  Oops, an error occurred.") ;;
          print (str "  Cannot download '" ++ attachmentFileName ++ str "'") ;;
          print (str "  Response code : " ++ str_of_int status) ;;
          download_attachments idShort atts' status attachments
      | Response status_code content =>
          write_file w (pathToAttachments ++ attachmentFileName) content ;;
          download_attachments idShort atts' status_code
            (attachments ++
               [(attachmentFileName, strftime_date (attachment_date a))])
      end
  end.

Definition card_attachments_ctx (c : card) (status : Z) : run (list attachment_ctx) :=
  match card_attachments c with
  | None => mret []
  | Some atts => download_attachments (card_idShort c) atts status []
  end.

(** *** One iteration of the loop over the cards (lines 398-551):
    [i] is the index of the card [c] of the bulk fetch.  The template
    is loaded when the document is rendered. *)
Definition export_card (lists : list list_row) (total : nat)
    (ic : nat * card) : run unit :=
  match cards_get w (card_id ic.2) with
  | ConnectionError => raise RequestException
  | Response status_code card =>
      if (status_code =? 200)%Z
      then
        print (str "[" ++ str_of_int (Z.of_nat ic.1 + 1) ++ str "/"
               ++ str_of_int (Z.of_nat total) ++ str "] Card #"
               ++ str_of_int (card_idShort card) ++ str " '"
               ++ card_name card ++ str "'") ;;
        attachments ← card_attachments_ctx card status_code;
        let context :=
          card_context strftime_date strftime_datetime lists card attachments in
        (if raises w (Render context) then raise RenderError else mret tt) ;;
        let outputFileName := sanitize_filename nfkd (card_name card) in
        let outputFileName := take 250 outputFileName ++ str ".docx" in
        if decide (str_of_bool (card_closed card) = str "False")
        then remove_if_exists w boardFileName (pathToCards ++ outputFileName) ;;
             save_document w (pathToCards ++ outputFileName) context
        else remove_if_exists w boardFileName (pathToArchived ++ outputFileName) ;;
             save_document w (pathToArchived ++ outputFileName) context
      else print (str "Oops, an error occurred.") ;; sys_exit
  end.

Definition export_docx (lists : list list_row) (cards : list card) : run unit :=
  print (str "Exporting cards...") ;;
  for_each (export_card lists (length cards)) (imap (fun i c => (i, c)) cards).
End Documents.

Section Program.
Variable nfkd : pystr -> pystr.
Variable strftime_date : pystr -> pystr.
Variable strftime_datetime : pystr -> pystr.
Variable w : world.
Variable int_of_str : pystr -> option Z.
Variable wsHeaders : list cell.

(** *** The steps 1 to 4 (lines 162-551) *)
Definition main : run unit :=
  boards ← get_boards w;
  board ← select_board int_of_str w boards;
  let boardId := board.1.1 in
  let boardName := board.1.2 in
  lists ← get_lists w boardId boardName;
  print (str "Exporting board '" ++ boardName ++ str "'...") ;;
  cards ← get_cards w boardId boardName;
  match cards with
  | [] => print (str "No Card on this Board.") ;; sys_exit
  | _ =>
      export_xlsx nfkd strftime_date strftime_datetime wsHeaders w
        boardName lists cards ;;
      export_docx nfkd strftime_date strftime_datetime w
        (take 250 (sanitize_filename nfkd boardName) ++ str ".xlsx")
        lists cards
  end.

(** *** The start-up (lines 45-56 and 123-158)

    [get_config_from_ini] copies the sample configuration when
    [config.ini] is missing; the values read from the configuration are
    the parameters of this development (the date formats, the labels),
    and the configuration is taken to hold every key the script reads.
    Then the four directories of the export are created where they are
    missing. *)
Definition get_config_from_ini : run unit :=
  if path_exists w (str "config.ini") then mret tt
  else if raises w (Copyfile (str "config-sample.ini") (str "config.ini"))
       then raise OSError
       else emit (CopyFile (str "config-sample.ini") (str "config.ini")).

Definition makedirs_if_missing (p : pystr) : run unit :=
  if path_exists w p then mret tt
  else if raises w (Makedirs p) then raise OSError else emit (MakeDirs p).

Definition configure : run unit :=
  get_config_from_ini ;;
  makedirs_if_missing path ;;
  makedirs_if_missing pathToCards ;;
  makedirs_if_missing pathToArchived ;;
  makedirs_if_missing pathToAttachments.

(** *** The whole script: the start-up, the four steps and the last
    line (554). *)
Definition program : run unit :=
  configure ;; main ;; print (str "Done.").
End Program.

(** ** XML unescaping

    The reading side of [escape_xml] is not part of the script.  This is
    the standard decoding of the three entity references, in one pass
    from left to right; [skip] counts the characters of a reference that
    are still to be consumed. *)
Fixpoint has_prefix (p s : pystr) : bool :=
  match p, s with
  | [], _ => true
  | _ :: _, [] => false
  | x :: p', y :: s' => (x =? y) && has_prefix p' s'
  end.

Fixpoint xml_unescape_from (skip : nat) (s : pystr) : pystr :=
  match s with
  | [] => []
  | c :: s' =>
      match skip with
      | S k => xml_unescape_from k s'
      | O =>
          if has_prefix (str "&amp;") s then chr "&" :: xml_unescape_from 4 s'
          else if has_prefix (str "&lt;") s then chr "<" :: xml_unescape_from 3 s'
          else if has_prefix (str "&gt;") s then chr ">" :: xml_unescape_from 3 s'
          else c :: xml_unescape_from 0 s'
      end
  end.

Definition xml_unescape (s : pystr) : pystr := xml_unescape_from 0 s.

(** What [escape_xml] does to one character. *)
Definition escape_char (c : N) : pystr :=
  if c =? chr "&" then str "&amp;"
  else if c =? chr "<" then str "&lt;"
  else if c =? chr ">" then str "&gt;"
  else [c].

(** ** Vocabulary for the properties of [sanitize_filename] *)

(** Letters and digits of ASCII. *)
Definition alnum (c : N) : bool :=
  ((48 <=? c) && (c <=? 57)) || ((65 <=? c) && (c <=? 90))
  || ((97 <=? c) && (c <=? 122)).

(** The characters a sanitized name is made of. *)
Definition cls_clean (c : N) : bool :=
  alnum c || (c =? chr "-") || (c =? chr ".").

Definition cls_hyphen (c : N) : bool := c =? chr "-".

(** No character of the class [cls] other than [r] occurs in [s], and no
    two characters of the class are adjacent; [prev] tells that the
    character before [s] is of the class. *)
Fixpoint collapsed (cls : N -> bool) (r : N) (prev : bool) (s : pystr) : bool :=
  match s with
  | [] => true
  | c :: s' =>
      if cls c then (c =? r) && negb prev && collapsed cls r true s'
      else collapsed cls r false s'
  end.

(** [sanitize_filename] without its last step, the [strip]. *)
Definition sanitize_core (nfkd : pystr -> pystr) (filename : pystr) : pystr :=
  re_sub_runs cls_dot (str ".")
    (re_sub_runs cls_separator (str "-")
       (re_delete cls_not_allowed (encode_ascii_ignore (nfkd filename)))).

(** Whether the text [s], read after a character whose membership in the
    class is [b], ends inside a run of the class. *)
Fixpoint ends_in (cls : N -> bool) (b : bool) (s : pystr) : bool :=
  match s with
  | [] => b
  | c :: s' => ends_in cls (cls c) s'
  end.

(** The run [run], standing between [pre] and [post] in a name, becomes
    one hyphen of the sanitized name: the output is [X], a hyphen and
    [Y], where [X] is what [pre] alone gives, up to characters that are
    stripped at the end of a name, and [Y] is what [post] alone gives, up
    to characters that are stripped at its start. *)
Definition run_collapses (nfkd : pystr -> pystr) (pre run post : pystr) : Prop :=
  exists X Y,
    sanitize_filename nfkd (pre ++ run ++ post) = X ++ str "-" ++ Y /\
    rstrip strip_chars X = sanitize_filename nfkd pre /\
    lstrip strip_chars Y = sanitize_filename nfkd post.

(** A sanitized name: letters, digits, single hyphens and single dots,
    with a letter or a digit at both ends. *)
Definition sanitized (s : pystr) : Prop :=
  Forall (fun c => cls_clean c = true) s /\
  collapsed cls_separator (chr "-") false s = true /\
  collapsed cls_dot (chr ".") false s = true /\
  (forall c, head s = Some c -> strip_chars c = false) /\
  (forall c, last s = Some c -> strip_chars c = false).

(** The first two steps of [sanitize_filename]. *)
Definition clean_text (nfkd : pystr -> pystr) (s : pystr) : pystr :=
  re_delete cls_not_allowed (encode_ascii_ignore (nfkd s)).

(** The characters that stand for nothing at the ends of a name: the
    separators and the dot. *)
Definition blank (c : N) : bool := cls_separator c || cls_dot c.

(** ** Vocabulary for sorting *)

(** The order of the keys: [a] may stand before [b]. *)
Definition key_le {A K : Type} (ltb : K -> K -> bool) (key : A -> K)
    (a b : A) : Prop :=
  ltb (key b) (key a) = false.

(** ** Vocabulary for the properties of the context *)

(** The check-items with state ['complete']. *)
Definition complete_count (items : list checkItem) : Z :=
  Z.of_nat (length (filter (fun it => checkItem_state it = str "complete") items)).

(** An action records a state change of the check-item [it]. *)
Definition state_change_of (it : checkItem) (a : action) : Prop :=
  action_type a = str "updateCheckItemStateOnCard" /\
  action_data_checkItem_id a = checkItem_id it.

(** The components of a checklist of the context. *)
Definition ctx_checkItems (x : checklist_ctx) : list checkItem_ctx := x.1.2.
Definition ctx_pcentComplet (x : checklist_ctx) : pystr := x.2.
Definition ctx_date (x : checkItem_ctx) : pystr := x.2.

(** The integer [r] is nearest to the fraction [a / b] ([0 < b]): their
    distance is at most one half. *)
Definition nearest_integer (r a b : Z) : Prop :=
  (2 * Z.abs (r * b - a) <= b)%Z.

(** ** Vocabulary for the floating-point rounding *)

(** The fraction [a / b] lies in [[m, m + 1)] and [l] locates it there:
    at [m], below, at or above the midpoint. *)
Definition located (m : Z) (l : location) (a b : Z) : Prop :=
  (m * b <= a < (m + 1) * b)%Z /\
  match l with
  | loc_Exact => a = (m * b)%Z
  | loc_Inexact c => (m * b < a)%Z /\ (2 * (a - m * b) ?= b)%Z = c
  end.

Definition record_located (mrs : shr_record) (a b : Z) : Prop :=
  (0 <= shr_m mrs)%Z /\ located (shr_m mrs) (loc_of_shr_record mrs) a b.

(** The integer nearest to [a / b] for [0 < b], a tie going upwards. *)
Definition round_half_up (a b : Z) : Z := ((2 * a + b) / (2 * b))%Z.

(** ** Vocabulary for the two buckets *)

(** The documents a run saved, in order, with their paths. *)
Definition saved_document (e : event) : option (pystr * gmap string ctx_value) :=
  match e with
  | SaveDocument p context => Some (p, context)
  | _ => None
  end.
Definition saved_documents (t : list event) : list (pystr * gmap string ctx_value) :=
  omap saved_document t.

(** The files a run wrote, in order. *)
Definition written_file (e : event) : option (pystr * list N) :=
  match e with
  | WriteFile p content => Some (p, content)
  | _ => None
  end.
Definition written_files (t : list event) : list (pystr * list N) :=
  omap written_file t.

(** The directory of the bucket of a card, by its [closed] flag. *)
Definition bucket_dir (closed : bool) : pystr :=
  if closed then pathToArchived else pathToCards.

(** The file name of the document of a card (lines 542-543). *)
Definition outputFileName (nfkd : pystr -> pystr) (c : card) : pystr :=
  take 250 (sanitize_filename nfkd (card_name c)) ++ str ".docx".

(** ** Vocabulary for the file system *)

(** No call into the file system or the template engine raises. *)
Definition file_system_ok (w : world) : Prop := forall c, raises w c = false.

(** The file name of a path: what follows its last [/]. *)
Fixpoint basename_from (name p : pystr) : pystr :=
  match p with
  | [] => name
  | c :: p' => if c =? chr "/" then basename_from [] p'
               else basename_from (name ++ [c]) p'
  end.
Definition basename (p : pystr) : pystr := basename_from [] p.

(** A file system whose file names hold at most 255 characters: writing
    a file with a longer name raises. *)
Definition name_max_255 (w : world) : Prop :=
  forall p, (255 < length (basename p))%nat -> raises w (OpenWb p) = true.

(** ** Sample data *)

(** [int] on a string of one decimal digit; anything else is rejected. *)
Definition int_of_digit (s : pystr) : option Z :=
  match s with
  | [c] => if (48 <=? c) && (c <=? 57) then Some (Z.of_N c - 48)%Z else None
  | _ => None
  end.

Definition sample_boards : list board_row :=
  [ (str "b1", str "Roadmap", str "");
    (str "b2", str "Backlog", str "");
    (str "b3", str "Ops", str "") ].

Definition sample_world (boards : http (list board_row)) (lines : list pystr)
    : world :=
  {| members_me_boards := boards;
     boards_lists := fun _ => Response 200 [];
     boards_cards_all := fun _ => Response 200 [];
     cards_get := fun _ => ConnectionError;
     attachment_get := fun _ => ConnectionError;
     stdin := lines;
     path_exists := fun _ => false;
     raises := fun _ => false |}.


(** A sample card, with its checklists, actions and attachments, and an
    archived one; the world serves them and fails to serve the second
    attachment. *)
Definition sample_actions : list action :=
  [ {| action_type := str "commentCard"; action_date := str "2024-03-04";
       action_data_checkItem_id := []; action_data_text := str "ok & done";
       action_memberCreator := str "Ann <QA>" |};
    {| action_type := str "updateCheckItemStateOnCard";
       action_date := str "2024-03-03";
       action_data_checkItem_id := str "i2"; action_data_text := [];
       action_memberCreator := str "Bob" |};
    {| action_type := str "updateCheckItemStateOnCard";
       action_date := str "2024-03-02";
       action_data_checkItem_id := str "i1"; action_data_text := [];
       action_memberCreator := str "Ann <QA>" |};
    {| action_type := str "updateCheckItemStateOnCard";
       action_date := str "2024-03-01";
       action_data_checkItem_id := str "i1"; action_data_text := [];
       action_memberCreator := str "Bob" |} ].

Definition sample_item1 : checkItem :=
  {| checkItem_id := str "i1"; checkItem_name := str "Test a<b";
     checkItem_pos := 2; checkItem_state := str "complete" |}.
Definition sample_item2 : checkItem :=
  {| checkItem_id := str "i2"; checkItem_name := str "Deploy";
     checkItem_pos := 1; checkItem_state := str "incomplete" |}.
Definition sample_item3 : checkItem :=
  {| checkItem_id := str "i3"; checkItem_name := str "Announce";
     checkItem_pos := 3; checkItem_state := str "incomplete" |}.

Definition sample_checklist : checklist :=
  {| checklist_name := str "QA"; checklist_pos := 1;
     checklist_checkItems := [sample_item1; sample_item2; sample_item3] |}.

(** A checklist with 40 check-items of which 23 are complete. *)
Definition sample_tie_checklist : checklist :=
  {| checklist_name := str "Release"; checklist_pos := 2;
     checklist_checkItems := repeat sample_item1 23 ++ repeat sample_item2 17 |}.

Definition sample_card : card :=
  {| card_id := str "c1"; card_name := str "Fix <login> & signup";
     card_desc := str "see R&D notes"; card_idList := str "l1";
     card_labels := [ {| label_name := [] |}; {| label_name := str "Bug" |};
                      {| label_name := [] |}; {| label_name := str "R&D" |} ];
     card_start := None; card_due := Some (str "2024-03-09");
     card_dateLastActivity := Some (str "2024-03-04");
     card_closed := false; card_idShort := 7;
     card_shortUrl := str "https://trello.com/c/abc";
     card_checklists := Some [sample_checklist];
     card_actions := Some sample_actions;
     card_attachments :=
       Some [ {| attachment_name := str "spec v1.pdf";
                 attachment_url := str "https://trello.com/a/1";
                 attachment_date := str "2024-03-01" |};
              {| attachment_name := str "notes.txt";
                 attachment_url := str "https://trello.com/a/2";
                 attachment_date := str "2024-03-02" |} ] |}.

Definition sample_archived : card :=
  {| card_id := str "c2"; card_name := str "Old idea";
     card_desc := []; card_idList := str "l2";
     card_labels := [];
     card_start := None; card_due := None; card_dateLastActivity := None;
     card_closed := true; card_idShort := 8;
     card_shortUrl := str "https://trello.com/c/def";
     card_checklists := None; card_actions := None; card_attachments := None |}.

Definition sample_lists : list list_row :=
  [ (str "l1", str "To do", 1%Q); (str "l2", str "Done & dusted", 2%Q) ].

Definition sample_trello : world :=
  {| members_me_boards := Response 200 sample_boards;
     boards_lists := fun _ => Response 200 sample_lists;
     boards_cards_all := fun _ => Response 200 [sample_card; sample_archived];
     cards_get := fun id => if decide (id = str "c1") then Response 200 sample_card
                            else Response 200 sample_archived;
     attachment_get := fun url =>
       if decide (url = str "https://trello.com/a/1")
       then Response 200 [37; 80; 68; 70]
       else ConnectionError;
     stdin := [str "1"];
     path_exists := fun _ => false;
     raises := fun _ => false |}.


(** A world whose attachment server answers 404 with an error page. *)
Definition sample_trello_404 : world :=
  {| members_me_boards := Response 200 sample_boards;
     boards_lists := fun _ => Response 200 sample_lists;
     boards_cards_all := fun _ => Response 200 [sample_card];
     cards_get := fun _ => Response 200 sample_card;
     attachment_get := fun _ => Response 404 (str "Not Found");
     stdin := [];
     path_exists := fun _ => false;
     raises := fun _ => false |}.

(** The sample card as the detail fetch gives it once it has been
    archived, and a world in which this happens between the fetch of the
    collection and the fetch of the detail. *)
Definition sample_card_archived : card :=
  {| card_id := card_id sample_card; card_name := card_name sample_card;
     card_desc := card_desc sample_card; card_idList := card_idList sample_card;
     card_labels := card_labels sample_card;
     card_start := card_start sample_card; card_due := card_due sample_card;
     card_dateLastActivity := card_dateLastActivity sample_card;
     card_closed := true; card_idShort := card_idShort sample_card;
     card_shortUrl := card_shortUrl sample_card;
     card_checklists := card_checklists sample_card;
     card_actions := card_actions sample_card;
     card_attachments := None |}.

Definition sample_trello_race : world :=
  {| members_me_boards := Response 200 sample_boards;
     boards_lists := fun _ => Response 200 sample_lists;
     boards_cards_all := fun _ => Response 200 [sample_card];
     cards_get := fun _ => Response 200 sample_card_archived;
     attachment_get := fun _ => ConnectionError;
     stdin := [];
     path_exists := fun _ => false;
     raises := fun _ => false |}.

(** An attachment whose name has more than 255 characters, and a world
    whose file system limits file names to 255 characters and whose
    attachment server answers every request. *)
Definition sample_long_attachment : attachment :=
  {| attachment_name := repeat (chr "a") 300 ++ str ".pdf";
     attachment_url := str "https://trello.com/a/3";
     attachment_date := str "2024-03-03" |}.

Definition sample_trello_name_max : world :=
  {| members_me_boards := Response 200 sample_boards;
     boards_lists := fun _ => Response 200 sample_lists;
     boards_cards_all := fun _ => Response 200 [sample_card];
     cards_get := fun _ => Response 200 sample_card;
     attachment_get := fun _ => Response 200 [37; 80; 68; 70];
     stdin := [];
     path_exists := fun _ => false;
     raises := fun c =>
       match c with
       | OpenWb p => Nat.ltb 255 (length (basename p))
       | _ => false
       end |}.

(** ** Vocabulary for further properties *)

(** The number of occurrences of the character [c] in [s]. *)
Definition count_char (c : N) (s : pystr) : nat :=
  length (filter (fun x => x = c) s).

(** One of the three characters [escape_xml] replaces. *)
Definition xml_special (c : N) : Prop :=
  c = chr "&" \/ c = chr "<" \/ c = chr ">".

(** The ASCII letters and digits of a text, in order. *)
Definition letters_digits (s : pystr) : pystr :=
  filter (fun c => alnum c = true) s.

(** ** Vocabulary for the order of the context *)

(** The position of a check-item and of a checklist of the context. *)
Definition item_pos (x : checkItem_ctx) : Q := x.1.1.2.
Definition entry_pos (x : checklist_ctx) : Q := x.1.1.2.

(** The elements of [l] at position [q], in the order of [l]. *)
Definition at_pos {A : Type} (pos : A -> Q) (q : Q) (l : list A) : list A :=
  filter (fun x => Qeq_bool (pos x) q = true) l.

(** The check-item of the context built from a check-item of the card. *)
Definition item_entry (strftime_date : pystr -> pystr) (c : card)
    (it : checkItem) : checkItem_ctx :=
  (escape_xml (checkItem_name it), checkItem_pos it, checkItem_state it,
   updateCheckItemStateDate strftime_date c it).

(** The checklists of a card that have a name. *)
Definition named (cls : list checklist) : list checklist :=
  filter (fun cl => checklist_name cl <> []) cls.

(** ** Vocabulary for the selection of the board *)

(** A line typed at the prompt that is not the number of a board: it is
    not an integer, or the integer is out of range. *)
Definition rejected (int_of_str : pystr -> option Z) (len : Z)
    (line : pystr) : Prop :=
  forall num, int_of_str line = Some num -> ~ (0 <= num < len)%Z.

(** The events of the rejected lines: a prompt and a message each. *)
Definition rejections (lines : list pystr) : list event :=
  flat_map (fun _ => [Input (str "Select a board : ");
                      Print (str "This is not a valid board number.")]) lines.

(** The list of the boards as it is printed before the first prompt. *)
Definition board_menu (boards : list board_row) : list event :=
  Print (str "------------------------------")
  :: map (fun ib => Print (board_line ib)) (imap (fun i b => (i, b)) boards)
  ++ [Print (str "------------------------------")].

(** ** Vocabulary for the attachments *)

(** The name under which an attachment of the card [idShort] is stored
    (line 505). *)
Definition attachment_file (nfkd : pystr -> pystr) (idShort : Z)
    (a : attachment) : pystr :=
  sanitize_filename nfkd (str_of_int idShort ++ str "-" ++ attachment_name a).

(** The body of the response to the request for an attachment, if the
    request returned one. *)
Definition downloaded (w : world) (a : attachment) : option (list N) :=
  match attachment_get w (attachment_url a) with
  | ConnectionError => None
  | Response _ content => Some content
  end.

(** The file of a downloaded attachment and its entry of the context. *)
Definition stored_attachment (nfkd : pystr -> pystr) (w : world) (idShort : Z)
    (a : attachment) : option (pystr * list N) :=
  match downloaded w a with
  | Some content => Some (pathToAttachments ++ attachment_file nfkd idShort a, content)
  | None => None
  end.
Definition listed_attachment (nfkd strftime_date : pystr -> pystr) (w : world)
    (idShort : Z) (a : attachment) : option attachment_ctx :=
  match downloaded w a with
  | Some _ => Some (attachment_file nfkd idShort a, strftime_date (attachment_date a))
  | None => None
  end.

(** Neither the removal nor the write of the file of an attachment
    raises. *)
Definition attachment_ok (nfkd : pystr -> pystr) (w : world) (idShort : Z)
    (a : attachment) : Prop :=
  raises w (Remove (pathToAttachments ++ attachment_file nfkd idShort a)) = false /\
  raises w (OpenWb (pathToAttachments ++ attachment_file nfkd idShort a)) = false.

(** The paths handed to [remove_if_exists] by a run, in order. *)
Definition removed_file (e : event) : option pystr :=
  match e with
  | RemoveIfExists p => Some p
  | _ => None
  end.
Definition removed_files (t : list event) : list pystr := omap removed_file t.

(** ** Vocabulary for the effects of a run *)

(** The path of the document of a card, from its detail. *)
Definition document_path (nfkd : pystr -> pystr) (d : card) : pystr :=
  bucket_dir (card_closed d) ++ outputFileName nfkd d.

(** The events that touch the file system. *)
Definition file_effect (e : event) : bool :=
  match e with
  | Print _ | Input _ => false
  | RemoveIfExists _ | CloseWorkbook _ _ _ | WriteFile _ _ | SaveDocument _ _
  | CopyFile _ _ | MakeDirs _ => true
  end.

(** A request for the detail of a card that does not give the card. *)
Definition detail_fails (w : world) (c : card) : Prop :=
  forall d, cards_get w (card_id c) <> Response 200 d.

(** The event is not the writing of the spreadsheet. *)
Definition no_workbook (e : event) : Prop :=
  match e with
  | CloseWorkbook _ _ _ => False
  | _ => True
  end.

(** ** The autofilters of the two sheets (source lines 387-388)

    [worksheet.autofilter(first_row, first_col, last_row, last_col)] with
    the row counters as the loop over the cards left them. *)
Definition autofilter_range : Type := Z * Z * Z * Z.
Definition autofilters (s : sheets) : autofilter_range * autofilter_range :=
  ((0, 0, worksheet1cellRow s - 1, 7)%Z, (0, 0, worksheet2cellRow s - 1, 7)%Z).

(** ** Vocabulary for the start-up *)

(** The events of a start-up in which nothing raises: the copy of the
    sample configuration and the creation of the directories, each for
    what is missing. *)
Definition startup_events (w : world) : list event :=
  (if path_exists w (str "config.ini") then []
   else [CopyFile (str "config-sample.ini") (str "config.ini")])
  ++ flat_map (fun p => if path_exists w p then [] else [MakeDirs p])
       [path; pathToCards; pathToArchived; pathToAttachments].

(** An event of the start-up. *)
Definition startup_effect (e : event) : Prop :=
  e = CopyFile (str "config-sample.ini") (str "config.ini") \/
  exists p, p ∈ [path; pathToCards; pathToArchived; pathToAttachments] /\
            e = MakeDirs p.

(** * Properties of [escape_xml] *)

Lemma replace_app old new s t :
  replace old new (s ++ t) = replace old new s ++ replace old new t.
Proof.
  induction s as [|c s IH]; simpl; [done|].
  by rewrite IH, app_assoc.
Qed.

Lemma escape_xml_nil : escape_xml [] = [].
Proof. reflexivity. Qed.

Lemma escape_xml_one c : escape_xml [c] = escape_char c.
Proof.
  unfold escape_xml, escape_char; simpl.
  destruct (N.eqb_spec c (chr "&")) as [->|Hamp]; [reflexivity|].
  simpl.
  destruct (N.eqb_spec c (chr "<")) as [->|Hlt]; [reflexivity|].
  simpl.
  destruct (N.eqb_spec c (chr ">")) as [->|Hgt]; reflexivity.
Qed.

Lemma escape_xml_app s t : escape_xml (s ++ t) = escape_xml s ++ escape_xml t.
Proof. unfold escape_xml. by rewrite !replace_app. Qed.

Lemma escape_xml_cons c s : escape_xml (c :: s) = escape_char c ++ escape_xml s.
Proof. by rewrite <- escape_xml_one, <- escape_xml_app. Qed.

Lemma xml_unescape_escape_char c s :
  xml_unescape (escape_char c ++ s) = c :: xml_unescape s.
Proof.
  unfold escape_char, xml_unescape.
  destruct (N.eqb_spec c (chr "&")) as [->|Hamp]; [reflexivity|].
  destruct (N.eqb_spec c (chr "<")) as [->|Hlt]; [reflexivity|].
  destruct (N.eqb_spec c (chr ">")) as [->|Hgt]; [reflexivity|].
  cbn [app xml_unescape_from].
  assert (Hp : forall p, has_prefix (chr "&" :: p) (c :: s) = false).
  { intros p. cbn [has_prefix].
    destruct (N.eqb_spec (chr "&") c); [congruence|reflexivity]. }
  change (str "&amp;") with (chr "&" :: str "amp;").
  change (str "&lt;") with (chr "&" :: str "lt;").
  change (str "&gt;") with (chr "&" :: str "gt;").
  by rewrite !Hp.
Qed.

Lemma xml_unescape_escape_xml s : xml_unescape (escape_xml s) = s.
Proof.
  induction s as [|c s IH]; [reflexivity|].
  by rewrite escape_xml_cons, xml_unescape_escape_char, IH.
Qed.

(** C10.  [escape_xml] is losslessly reversible and injective: decoding
    the three entity references of the escaped text gives back the
    original string, and two distinct strings never have the same
    escaped text. *)
Theorem escape_xml_reversible_injective :
  (forall s, xml_unescape (escape_xml s) = s) /\
  (forall s1 s2, s1 <> s2 -> escape_xml s1 <> escape_xml s2).
Proof.
  split; [apply xml_unescape_escape_xml|].
  intros s1 s2 Hne Heq. apply Hne.
  rewrite <- (xml_unescape_escape_xml s1), <- (xml_unescape_escape_xml s2).
  by rewrite Heq.
Qed.

Lemma escape_xml_reversible_injective_witness :
  xml_unescape (escape_xml (str "a<b & c>")) = str "a<b & c>" /\
  escape_xml (str "<") <> escape_xml (str "&lt;").
Proof.
  split.
  - apply (proj1 escape_xml_reversible_injective).
  - apply (proj2 escape_xml_reversible_injective). discriminate.
Defined.

(** * Properties of [sanitize_filename] *)

(** Facts on the character classes, by arithmetic on the code points. *)
Ltac cls_facts :=
  unfold cls_clean, cls_not_allowed, cls_separator, cls_dot, cls_hyphen,
    strip_chars, alnum, re_word, re_space in *;
  change (chr "-") with 45 in *; change (chr "_") with 95 in *;
  change (chr ".") with 46 in *;
  rewrite ?negb_true_iff, ?negb_false_iff in *;
  rewrite ?orb_true_iff, ?orb_false_iff, ?andb_true_iff, ?andb_false_iff,
    ?N.eqb_eq, ?N.eqb_neq, ?N.leb_le, ?N.leb_gt, ?N.ltb_lt, ?N.ltb_ge in *;
  lia.

Lemma clean_ascii c : cls_clean c = true -> (c <? 128) = true.
Proof. intros H. cls_facts. Qed.

Lemma clean_allowed c : cls_clean c = true -> cls_not_allowed c = false.
Proof. intros H. cls_facts. Qed.

Lemma clean_separator c :
  cls_clean c = true -> cls_separator c = true -> c = chr "-".
Proof. intros H1 H2. cls_facts. Qed.

Lemma allowed_not_separator_clean c :
  cls_not_allowed c = false -> cls_separator c = false -> cls_clean c = true.
Proof. intros H1 H2. cls_facts. Qed.

Lemma clean_word_like c :
  cls_clean c = true ->
  re_word c || (c =? chr "-") || (c =? chr "_") || (c =? chr ".") = true.
Proof. intros H. cls_facts. Qed.

Lemma clean_no_underscore_space c :
  cls_clean c = true -> c <> chr "_" /\ re_space c = false.
Proof. intros H. split; cls_facts. Qed.

Lemma strip_chars_not_alnum c : strip_chars c = true -> alnum c = false.
Proof. intros H. cls_facts. Qed.

Lemma clean_cases c :
  cls_clean c = true -> alnum c = true \/ strip_chars c = true.
Proof. intros H. cls_facts. Qed.

(** ** The passes one by one *)

Lemma encode_ascii_ignore_ascii s :
  Forall (fun c => (c <? 128) = true) (encode_ascii_ignore s).
Proof.
  induction s as [|c s IH]; simpl; [constructor|].
  destruct (c <? 128) eqn:Hc; [constructor|]; done.
Qed.

Lemma encode_ascii_ignore_id s :
  Forall (fun c => (c <? 128) = true) s -> encode_ascii_ignore s = s.
Proof.
  induction 1 as [|c s Hc _ IH]; simpl; [done|]. by rewrite Hc, IH.
Qed.

Lemma encode_ascii_ignore_app s t :
  encode_ascii_ignore (s ++ t) = encode_ascii_ignore s ++ encode_ascii_ignore t.
Proof.
  induction s as [|c s IH]; simpl; [done|].
  destruct (c <? 128); simpl; by rewrite IH.
Qed.

Lemma re_delete_spec cls s : Forall (fun c => cls c = false) (re_delete cls s).
Proof.
  induction s as [|c s IH]; simpl; [constructor|].
  destruct (cls c) eqn:Hc; [|constructor]; done.
Qed.

Lemma re_delete_id cls s :
  Forall (fun c => cls c = false) s -> re_delete cls s = s.
Proof.
  induction 1 as [|c s Hc _ IH]; simpl; [done|]. by rewrite Hc, IH.
Qed.

Lemma re_delete_app cls s t :
  re_delete cls (s ++ t) = re_delete cls s ++ re_delete cls t.
Proof.
  induction s as [|c s IH]; simpl; [done|].
  destruct (cls c); simpl; by rewrite IH.
Qed.

Section Runs.
Variables (cls : N -> bool) (r : N).
Hypothesis cls_r : cls r = true.

Lemma re_sub_runs_from_collapsed b s :
  collapsed cls r b (re_sub_runs_from cls [r] b s) = true.
Proof.
  revert b; induction s as [|c s IH]; intros b; simpl; [done|].
  destruct (cls c) eqn:Hc.
  - destruct b; simpl; [apply IH|].
    by rewrite cls_r, N.eqb_refl, IH.
  - simpl. by rewrite Hc, IH.
Qed.

Lemma re_sub_runs_from_id b s :
  collapsed cls r b s = true -> re_sub_runs_from cls [r] b s = s.
Proof.
  revert b; induction s as [|c s IH]; intros b; simpl; [done|].
  destruct (cls c) eqn:Hc.
  - rewrite !andb_true_iff, negb_true_iff, N.eqb_eq.
    intros [[-> ->] Hs]. simpl. by rewrite IH.
  - intros Hs. by rewrite IH.
Qed.

Lemma re_sub_runs_from_Forall (P : N -> Prop) b s :
  P r -> Forall (fun c => cls c = false -> P c) s ->
  Forall P (re_sub_runs_from cls [r] b s).
Proof.
  intros Hr Hs; revert b; induction Hs as [|c s Hc _ IH]; intros b;
    simpl; [constructor|].
  destruct (cls c) eqn:Hcls.
  - destruct b; simpl; [apply IH|]. constructor; [done|apply IH].
  - constructor; [by apply Hc|apply IH].
Qed.
End Runs.

Lemma collapsed_weaken cls r b s :
  collapsed cls r b s = true -> collapsed cls r false s = true.
Proof.
  destruct s as [|c s]; simpl; [done|].
  destruct (cls c); [|done].
  rewrite !andb_true_iff. intros [[-> _] ->]. done.
Qed.

Lemma collapsed_app_l cls r b s t :
  collapsed cls r b (s ++ t) = true -> collapsed cls r b s = true.
Proof.
  revert b; induction s as [|c s IH]; intros b; simpl; [done|].
  destruct (cls c).
  - rewrite !andb_true_iff. intros [[-> ->] Hs]. split; [done|]. by eapply IH.
  - apply IH.
Qed.

Lemma collapsed_app_r cls r b s t :
  collapsed cls r b (s ++ t) = true -> collapsed cls r false t = true.
Proof.
  revert b; induction s as [|c s IH]; intros b; simpl.
  - apply collapsed_weaken.
  - destruct (cls c).
    + rewrite !andb_true_iff. intros [_ Hs]. by eapply IH.
    + apply IH.
Qed.

(** A pass over another class keeps the first class collapsed, as long
    as its replacement character is outside the first class. *)
Lemma re_sub_runs_from_keeps_collapsed cls1 r1 cls2 r2 b1 b2 s :
  cls1 r2 = false ->
  (forall c, cls2 c = true -> cls1 c = false) ->
  b1 && b2 = false ->
  collapsed cls1 r1 b1 s = true ->
  collapsed cls1 r1 b1 (re_sub_runs_from cls2 [r2] b2 s) = true.
Proof.
  intros Hr2 Hdisj. revert b1 b2.
  induction s as [|c s IH]; intros b1 b2 Hb; simpl; [done|].
  destruct (cls2 c) eqn:H2.
  - rewrite (Hdisj c H2). intros Hs.
    destruct b2; simpl.
    + destruct b1; [done|]. by apply IH.
    + rewrite Hr2. by apply IH.
  - simpl. destruct (cls1 c) eqn:H1.
    + rewrite !andb_true_iff. intros [[-> ->] Hs].
      split; [done|]. by apply IH.
    + by apply IH.
Qed.


(** ** [lstrip], [rstrip] and [strip] *)

Lemma lstrip_split chars s :
  exists t, s = t ++ lstrip chars s /\ Forall (fun c => chars c = true) t.
Proof.
  induction s as [|c s (t & Hs & Ht)]; simpl.
  - by exists [].
  - destruct (chars c) eqn:Hc.
    + exists (c :: t). split; [by rewrite <- app_comm_cons, <- Hs|by constructor].
    + by exists [].
Qed.

Lemma lstrip_head chars s c : head (lstrip chars s) = Some c -> chars c = false.
Proof.
  induction s as [|x s IH]; simpl; [done|].
  destruct (chars x) eqn:Hx; [done|]. simpl. by intros [= <-].
Qed.

Lemma lstrip_all chars s :
  Forall (fun c => chars c = true) s -> lstrip chars s = [].
Proof. induction 1 as [|c s Hc _ IH]; simpl; [done|]. by rewrite Hc. Qed.

Lemma lstrip_app_all chars s t :
  Forall (fun c => chars c = true) s -> lstrip chars (s ++ t) = lstrip chars t.
Proof. induction 1 as [|c s Hc _ IH]; simpl; [done|]. by rewrite Hc. Qed.

Lemma lstrip_app chars s t :
  Exists (fun c => chars c = false) s ->
  lstrip chars (s ++ t) = lstrip chars s ++ t.
Proof.
  induction 1 as [c s Hc|c s _ IH]; simpl.
  - by rewrite Hc.
  - destruct (chars c); done.
Qed.

Lemma lstrip_id chars s :
  (forall c, head s = Some c -> chars c = false) -> lstrip chars s = s.
Proof. destruct s as [|c s]; simpl; [done|]. intros H. by rewrite (H c). Qed.

Lemma rstrip_split chars s :
  exists t, s = rstrip chars s ++ t /\ Forall (fun c => chars c = true) t.
Proof.
  unfold rstrip. destruct (lstrip_split chars (reverse s)) as (t & Hs & Ht).
  exists (reverse t). split; [|by apply Forall_reverse].
  by rewrite <- reverse_app, <- Hs, reverse_involutive.
Qed.

Lemma rstrip_last chars s c : last (rstrip chars s) = Some c -> chars c = false.
Proof. unfold rstrip. rewrite last_reverse. apply lstrip_head. Qed.

Lemma rstrip_all chars s :
  Forall (fun c => chars c = true) s -> rstrip chars s = [].
Proof.
  intros H. unfold rstrip. rewrite lstrip_all; [done|by apply Forall_reverse].
Qed.

Lemma rstrip_app_all chars s t :
  Forall (fun c => chars c = true) t -> rstrip chars (s ++ t) = rstrip chars s.
Proof.
  intros H. unfold rstrip.
  rewrite reverse_app, lstrip_app_all; [done|by apply Forall_reverse].
Qed.

Lemma rstrip_app chars s t :
  Exists (fun c => chars c = false) t ->
  rstrip chars (s ++ t) = s ++ rstrip chars t.
Proof.
  intros H. unfold rstrip.
  rewrite reverse_app, lstrip_app, reverse_app, reverse_involutive; [done|].
  apply Exists_exists. apply Exists_exists in H as (c & Hin & Hc).
  exists c. split; [by apply elem_of_reverse|done].
Qed.

Lemma rstrip_id chars s :
  (forall c, last s = Some c -> chars c = false) -> rstrip chars s = s.
Proof.
  intros H. unfold rstrip. rewrite lstrip_id, reverse_involutive; [done|].
  intros c Hc. apply H. by rewrite <- head_reverse.
Qed.

Lemma all_or_exists (chars : N -> bool) s :
  Forall (fun c => chars c = true) s \/ Exists (fun c => chars c = false) s.
Proof.
  induction s as [|c s [IH|IH]].
  - left; constructor.
  - destruct (chars c) eqn:Hc; [left|right]; by constructor.
  - right; by constructor.
Qed.

Lemma strip_all chars s :
  Forall (fun c => chars c = true) s -> strip chars s = [].
Proof. intros H. unfold strip. by rewrite lstrip_all. Qed.

Lemma strip_nonempty chars s :
  strip chars s <> [] -> Exists (fun c => chars c = false) s.
Proof.
  intros H. destruct (all_or_exists chars s) as [Hall|]; [|done].
  by rewrite strip_all in H.
Qed.

Lemma lstrip_exists chars s :
  Exists (fun c => chars c = false) s ->
  exists c s', lstrip chars s = c :: s' /\ chars c = false.
Proof.
  induction 1 as [c s Hc|c s _ IH]; simpl.
  - rewrite Hc. eauto.
  - destruct (chars c) eqn:Hc; eauto.
Qed.

(** Stripping on the left and on the right commute. *)
Lemma lstrip_rstrip chars s :
  lstrip chars (rstrip chars s) = rstrip chars (lstrip chars s).
Proof.
  destruct (all_or_exists chars s) as [Hall|Hex].
  - by rewrite (rstrip_all _ _ Hall), (lstrip_all _ _ Hall).
  - destruct (lstrip_split chars s) as (t & Hs & Ht).
    destruct (lstrip_exists _ _ Hex) as (c & s' & Hl & Hc).
    rewrite Hl in *.
    assert (Hex' : Exists (fun c => chars c = false) (c :: s'))
      by by constructor.
    rewrite Hs at 1. rewrite (rstrip_app _ t _ Hex').
    rewrite lstrip_app_all by done.
    apply lstrip_id. intros x.
    destruct (all_or_exists chars s') as [Hall'|Hex''].
    + change (c :: s') with ([c] ++ s').
      rewrite rstrip_app_all by done.
      unfold rstrip; simpl. rewrite Hc. simpl. by intros [= <-].
    + change (c :: s') with ([c] ++ s').
      rewrite rstrip_app by done. simpl. by intros [= <-].
Qed.

(** ** The normal form of sanitized names *)

Lemma sanitize_core_clean nfkd s :
  Forall (fun c => cls_clean c = true) (sanitize_core nfkd s).
Proof.
  unfold sanitize_core, re_sub_runs.
  apply (re_sub_runs_from_Forall cls_dot (chr ".")); [done|].
  apply Forall_forall; intros c Hc _. revert c Hc. apply Forall_forall.
  apply (re_sub_runs_from_Forall cls_separator (chr "-")); [done|].
  eapply Forall_impl; [apply re_delete_spec|].
  intros c Hc Hsep. by apply allowed_not_separator_clean.
Qed.

Lemma sanitize_core_hyphens nfkd s :
  collapsed cls_separator (chr "-") false (sanitize_core nfkd s) = true.
Proof.
  unfold sanitize_core, re_sub_runs.
  apply (re_sub_runs_from_keeps_collapsed _ _ cls_dot (chr ".")); [done| |done|].
  - intros c Hc. cls_facts.
  - by apply re_sub_runs_from_collapsed.
Qed.

Lemma sanitize_core_dots nfkd s :
  collapsed cls_dot (chr ".") false (sanitize_core nfkd s) = true.
Proof. unfold sanitize_core, re_sub_runs. by apply re_sub_runs_from_collapsed. Qed.

Lemma sanitize_filename_core nfkd s :
  sanitize_filename nfkd s = strip strip_chars (sanitize_core nfkd s).
Proof. reflexivity. Qed.

Lemma strip_split chars s :
  exists t u, s = t ++ strip chars s ++ u.
Proof.
  unfold strip.
  destruct (lstrip_split chars s) as (t & Hs & _).
  destruct (rstrip_split chars (lstrip chars s)) as (u & Hu & _).
  exists t, u. by rewrite <- Hu.
Qed.

Lemma strip_head chars s c : head (strip chars s) = Some c -> chars c = false.
Proof. unfold strip. rewrite <- lstrip_rstrip. apply lstrip_head. Qed.

Lemma strip_last chars s c : last (strip chars s) = Some c -> chars c = false.
Proof. apply rstrip_last. Qed.

Lemma sanitize_filename_sanitized nfkd s : sanitized (sanitize_filename nfkd s).
Proof.
  rewrite sanitize_filename_core.
  destruct (strip_split strip_chars (sanitize_core nfkd s)) as (t & u & Hs).
  pose proof (sanitize_core_clean nfkd s) as Hclean.
  pose proof (sanitize_core_hyphens nfkd s) as Hhy.
  pose proof (sanitize_core_dots nfkd s) as Hdot.
  rewrite Hs in Hclean, Hhy, Hdot.
  repeat split.
  - apply Forall_app in Hclean as [_ Hclean].
    by apply Forall_app in Hclean as [Hclean _].
  - apply collapsed_app_r in Hhy. by apply collapsed_app_l in Hhy.
  - apply collapsed_app_r in Hdot. by apply collapsed_app_l in Hdot.
  - apply strip_head.
  - apply strip_last.
Qed.

Section Idempotent.
Variable nfkd : pystr -> pystr.
(** NFKD leaves ASCII text as it is. *)
Hypothesis nfkd_ascii :
  forall s, Forall (fun c => (c <? 128) = true) s -> nfkd s = s.

Lemma sanitized_fixpoint s : sanitized s -> sanitize_filename nfkd s = s.
Proof.
  intros (Hclean & Hhy & Hdot & Hhd & Hlast).
  unfold sanitize_filename.
  assert (Hascii : Forall (fun c => (c <? 128) = true) s)
    by (eapply Forall_impl; [exact Hclean|apply clean_ascii]).
  rewrite (nfkd_ascii s Hascii), (encode_ascii_ignore_id s Hascii).
  rewrite re_delete_id
    by (eapply Forall_impl; [exact Hclean|apply clean_allowed]).
  unfold re_sub_runs.
  rewrite (re_sub_runs_from_id cls_separator (chr "-")) by done.
  rewrite (re_sub_runs_from_id cls_dot (chr ".")) by done.
  unfold strip. by rewrite (lstrip_id _ _ Hhd), (rstrip_id _ _ Hlast).
Qed.
End Idempotent.


(** ** Runs of separators *)

Lemma re_sub_runs_from_app cls repl b s t :
  re_sub_runs_from cls repl b (s ++ t) =
  re_sub_runs_from cls repl b s ++ re_sub_runs_from cls repl (ends_in cls b s) t.
Proof.
  revert b; induction s as [|c s IH]; intros b; simpl; [done|].
  destruct (cls c); simpl; by rewrite IH, ?app_assoc.
Qed.

Lemma re_sub_runs_from_run cls repl b run :
  Forall (fun c => cls c = true) run -> run <> [] ->
  re_sub_runs_from cls repl b run = (if b then [] else repl) /\
  ends_in cls b run = true.
Proof.
  intros Hrun; revert b; induction Hrun as [|c run Hc Hrun IH]; intros b Hne;
    [done|].
  simpl. rewrite Hc. destruct run as [|c' run].
  - simpl. by rewrite app_nil_r.
  - destruct (IH true) as [-> ->]; [done|]. by rewrite app_nil_r.
Qed.

Lemma re_sub_runs_from_true cls r s :
  re_sub_runs_from cls [r] false s = re_sub_runs_from cls [r] true s \/
  re_sub_runs_from cls [r] false s = r :: re_sub_runs_from cls [r] true s.
Proof. destruct s as [|c s]; simpl; [by left|]. destruct (cls c); auto. Qed.

Lemma re_sub_runs_from_ends cls r b s :
  ends_in cls b s = true ->
  exists P, (if b then [r] else []) ++ re_sub_runs_from cls [r] b s = P ++ [r].
Proof.
  revert b; induction s as [|c s IH]; intros b; simpl.
  - intros ->. by exists [].
  - destruct (cls c) eqn:Hc; intros He.
    + destruct (IH true He) as [P HP]. exists P.
      rewrite <- HP. by destruct b.
    + destruct (IH false He) as [P HP]. simpl in HP.
      exists ((if b then [r] else []) ++ c :: P).
      rewrite HP. by rewrite <- app_assoc.
Qed.

Lemma re_sub_runs_from_join cls r s :
  exists P,
    re_sub_runs_from cls [r] false s
      ++ (if ends_in cls false s then [] else [r]) = P ++ [r] /\
    (re_sub_runs_from cls [r] false s = P \/
     re_sub_runs_from cls [r] false s = P ++ [r]).
Proof.
  destruct (ends_in cls false s) eqn:He.
  - destruct (re_sub_runs_from_ends cls r false s He) as [P HP].
    simpl in HP. exists P. rewrite app_nil_r. auto.
  - exists (re_sub_runs_from cls [r] false s). auto.
Qed.

Lemma re_sub_runs_from_around cls repl b s c t :
  cls c = false ->
  re_sub_runs_from cls repl b (s ++ c :: t) =
  re_sub_runs_from cls repl b s ++ c :: re_sub_runs_from cls repl false t.
Proof. intros Hc. rewrite re_sub_runs_from_app. simpl. by rewrite Hc. Qed.

Lemma Exists_snoc_strip (chars : N -> bool) s c :
  chars c = true ->
  Exists (fun x => chars x = false) (s ++ [c]) ->
  Exists (fun x => chars x = false) s.
Proof.
  intros Hc H. apply Exists_app in H as [H|H]; [done|].
  apply Exists_cons in H as [H|H]; [congruence|]. by apply Exists_nil in H.
Qed.

Lemma re_sub_runs_run cls r s run t :
  Forall (fun c => cls c = true) run -> run <> [] ->
  exists P Q,
    re_sub_runs cls [r] (s ++ run ++ t) = P ++ r :: Q /\
    (re_sub_runs cls [r] s = P \/ re_sub_runs cls [r] s = P ++ [r]) /\
    (re_sub_runs cls [r] t = Q \/ re_sub_runs cls [r] t = r :: Q).
Proof.
  intros Hrun Hne. unfold re_sub_runs.
  rewrite !re_sub_runs_from_app.
  destruct (re_sub_runs_from_run cls [r] (ends_in cls false s) run Hrun Hne)
    as [-> ->].
  destruct (re_sub_runs_from_join cls r s) as (P & HP & HPs).
  exists P, (re_sub_runs_from cls [r] true t).
  split; [|split; [done|apply re_sub_runs_from_true]].
  change (P ++ r :: ?T) with (P ++ [r] ++ T).
  rewrite (app_assoc P), <- HP. by rewrite <- app_assoc.
Qed.

Section InteriorRun.
Variable nfkd : pystr -> pystr.
Hypothesis nfkd_ascii :
  forall s, Forall (fun c => (c <? 128) = true) s -> nfkd s = s.
(** NFKD decomposes character by character and reorders combining
    marks only, none of which is ASCII: what survives the ASCII
    encoding of a concatenation is the concatenation of what survives
    of its parts. *)
Hypothesis nfkd_app :
  forall s t,
    encode_ascii_ignore (nfkd (s ++ t)) =
    encode_ascii_ignore (nfkd s) ++ encode_ascii_ignore (nfkd t).

Local Abbreviation clean := (clean_text nfkd).

Lemma clean_run run :
  Forall (fun c => cls_separator c = true) run -> clean run = run.
Proof.
  intros Hrun. unfold clean_text.
  assert (Hascii : Forall (fun c => (c <? 128) = true) run).
  { eapply Forall_impl; [exact Hrun|]. intros c Hc. cls_facts. }
  rewrite (nfkd_ascii _ Hascii), (encode_ascii_ignore_id _ Hascii).
  apply re_delete_id. eapply Forall_impl; [exact Hrun|].
  intros c Hc. cls_facts.
Qed.

Lemma clean_app s t : clean (s ++ t) = clean s ++ clean t.
Proof. unfold clean_text. by rewrite nfkd_app, re_delete_app. Qed.

Lemma sanitize_filename_clean s :
  sanitize_filename nfkd s =
  strip strip_chars
    (re_sub_runs cls_dot [chr "."] (re_sub_runs cls_separator [chr "-"] (clean s))).
Proof. reflexivity. Qed.

Lemma sanitize_interior_run pre run post :
  run <> [] ->
  Forall (fun c => cls_separator c = true) run ->
  sanitize_filename nfkd pre <> [] ->
  sanitize_filename nfkd post <> [] ->
  run_collapses nfkd pre run post.
Proof.
  intros Hne Hrun Hpre Hpost.
  unfold run_collapses. rewrite !sanitize_filename_clean in *.
  rewrite !clean_app, (clean_run run Hrun).
  destruct (re_sub_runs_run cls_separator (chr "-") (clean pre) run (clean post)
              Hrun Hne) as (P & Q & -> & HPA & HQB).
  unfold re_sub_runs at 1.
  rewrite (re_sub_runs_from_around cls_dot) by done.
  fold (re_sub_runs cls_dot [chr "."] P). fold (re_sub_runs cls_dot [chr "."] Q).
  set (U := re_sub_runs cls_dot [chr "."] P) in *.
  set (V := re_sub_runs cls_dot [chr "."] Q) in *.
  assert (HU : Exists (fun c => strip_chars c = false) U /\
               strip strip_chars
                 (re_sub_runs cls_dot [chr "."]
                    (re_sub_runs cls_separator [chr "-"] (clean pre)))
               = strip strip_chars U).
  { destruct HPA as [HA|HA]; rewrite HA in Hpre |- *.
    - split; [by apply strip_nonempty|done].
    - unfold re_sub_runs in Hpre |- * at 1.
      change (P ++ [chr "-"]) with (P ++ chr "-" :: []) in *.
      rewrite (re_sub_runs_from_around cls_dot) in Hpre |- * by done.
      cbn [re_sub_runs_from] in *.
      fold (re_sub_runs cls_dot [chr "."] P) in Hpre |- *. fold U in Hpre |- *.
      assert (Hx : Exists (fun c => strip_chars c = false) U).
      { apply strip_nonempty in Hpre.
        by apply Exists_snoc_strip in Hpre. }
      split; [done|]. unfold strip.
      rewrite (lstrip_app _ _ _ Hx).
      by rewrite rstrip_app_all by (by constructor). }
  destruct HU as [HUx HUeq].
  assert (HV : Exists (fun c => strip_chars c = false) V /\
               strip strip_chars
                 (re_sub_runs cls_dot [chr "."]
                    (re_sub_runs cls_separator [chr "-"] (clean post)))
               = strip strip_chars V).
  { destruct HQB as [HB|HB]; rewrite HB in Hpost |- *.
    - split; [by apply strip_nonempty|done].
    - change (re_sub_runs cls_dot [chr "."] (chr "-" :: Q))
        with (chr "-" :: V) in *.
      assert (Hx : Exists (fun c => strip_chars c = false) V).
      { apply strip_nonempty in Hpost.
        apply Exists_cons in Hpost as [H|H]; [done|done]. }
      split; [done|]. reflexivity. }
  destruct HV as [HVx HVeq].
  exists (lstrip strip_chars U), (rstrip strip_chars V).
  split; [|split].
  - unfold strip.
    rewrite (lstrip_app _ _ _ HUx).
    rewrite rstrip_app by (by apply Exists_cons_tl).
    change (chr "-" :: V) with ([chr "-"] ++ V).
    by rewrite (rstrip_app _ _ _ HVx).
  - by rewrite HUeq.
  - rewrite HVeq. apply lstrip_rstrip.
Qed.
End InteriorRun.


Lemma collapsed_hyphen b s :
  Forall (fun c => cls_clean c = true) s ->
  collapsed cls_separator (chr "-") b s = true ->
  collapsed cls_hyphen (chr "-") b s = true.
Proof.
  intros Hclean; revert b.
  induction Hclean as [|c t Hc Hclean IH]; intros b; [done|].
  simpl. destruct (cls_hyphen c) eqn:Hh.
  - assert (Hsep : cls_separator c = true) by cls_facts. rewrite Hsep.
    rewrite !andb_true_iff. intros [[-> ->] Ht]. split; [done|]. by apply IH.
  - assert (Hsep : cls_separator c = false).
    { destruct (cls_separator c) eqn:Hs; [|done].
      pose proof (clean_separator c Hc Hs). cls_facts. }
    rewrite Hsep. by apply IH.
Qed.

(** ** The stated properties *)

(** C9.  Whatever the input and whatever the normalisation, the
    sanitized name contains no underscore and no whitespace character.
    This is stricter than the character set "word characters, hyphens,
    underscores and dots", in which the underscore is allowed. *)
Theorem sanitize_filename_no_underscore_no_space nfkd filename :
  Forall (fun c => c <> chr "_" /\ re_space c = false)
    (sanitize_filename nfkd filename)
  /\ re_word (chr "_") = true.
Proof.
  split; [|reflexivity].
  destruct (sanitize_filename_sanitized nfkd filename) as [Hclean _].
  eapply Forall_impl; [exact Hclean|]. apply clean_no_underscore_space.
Qed.

(** * Sorting *)

Section SortedFacts.
Context {A K : Type} (ltb : K -> K -> bool) (key : A -> K).

Lemma insert_sorted_Permutation x l : insert_sorted ltb key x l ≡ₚ x :: l.
Proof.
  induction l as [|y l IH]; simpl; [done|].
  destruct (ltb (key y) (key x)); [|done].
  rewrite IH. apply Permutation_swap.
Qed.

Lemma sorted_Permutation l : sorted ltb key l ≡ₚ l.
Proof.
  induction l as [|x l IH]; simpl; [done|].
  by rewrite insert_sorted_Permutation, IH.
Qed.

Lemma sorted_length l : length (sorted ltb key l) = length l.
Proof. apply Permutation_length, sorted_Permutation. Qed.

Local Abbreviation le_key := (key_le ltb key).

Hypothesis ltb_asym : forall a b, ltb a b = true -> ltb b a = false.

Lemma insert_sorted_HdRel y x l :
  ltb (key y) (key x) = true -> HdRel le_key y l ->
  HdRel le_key y (insert_sorted ltb key x l).
Proof.
  intros Hyx Hy. destruct l as [|z l]; simpl.
  - constructor. by apply ltb_asym.
  - destruct (ltb (key z) (key x)); constructor.
    + by inversion Hy.
    + by apply ltb_asym.
Qed.

Lemma insert_sorted_Sorted x l :
  Sorted le_key l -> Sorted le_key (insert_sorted ltb key x l).
Proof.
  induction 1 as [|y l Hl IH Hy]; simpl.
  - by repeat constructor.
  - destruct (ltb (key y) (key x)) eqn:Hyx.
    + constructor; [done|]. by apply insert_sorted_HdRel.
    + constructor; [by constructor|]. by constructor.
Qed.

Lemma sorted_Sorted l : Sorted le_key (sorted ltb key l).
Proof.
  induction l as [|x l IH]; simpl; [constructor|].
  by apply insert_sorted_Sorted.
Qed.

(** With a transitive order every element stands before all the
    later ones. *)
Lemma sorted_StronglySorted l :
  (forall a b c, ltb b a = false -> ltb c b = false -> ltb c a = false) ->
  StronglySorted le_key (sorted ltb key l).
Proof.
  intros Htrans. apply Sorted_StronglySorted; [|apply sorted_Sorted].
  intros a b c Hab Hbc. unfold key_le in *. eauto.
Qed.
End SortedFacts.

Lemma str_ltb_asym a b : str_ltb a b = true -> str_ltb b a = false.
Proof.
  revert b; induction a as [|x a IH]; intros [|y b]; simpl; try done.
  rewrite orb_true_iff, andb_true_iff, orb_false_iff, andb_false_iff.
  rewrite N.ltb_lt, N.eqb_eq, N.ltb_ge, N.eqb_neq.
  intros [Hlt|[-> Hab]].
  - split; [lia|left; lia].
  - split; [lia|right; by apply IH].
Qed.

(** The order of strings is transitive. *)
Lemma str_ltb_trans a b c :
  str_ltb b a = false -> str_ltb c b = false -> str_ltb c a = false.
Proof.
  revert b c; induction a as [|x a IH]; intros [|y b] [|z c]; simpl; try done.
  rewrite !orb_false_iff, !andb_false_iff.
  rewrite !N.ltb_ge, !N.eqb_neq.
  intros [Hyx Hba] [Hzy Hcb]. split; [lia|].
  destruct (N.eq_dec z x) as [->|]; [|by left]. right.
  assert (y = x) by lia. subst y.
  destruct Hba as [|Hba]; [done|]. destruct Hcb as [|Hcb]; [done|].
  by apply (IH b c).
Qed.

Lemma num_ltb_asym a b : num_ltb a b = true -> num_ltb b a = false.
Proof.
  unfold num_ltb. rewrite negb_true_iff, negb_false_iff.
  intros H. apply Qle_bool_iff.
  destruct (Qlt_le_dec a b) as [Hlt|Hle]; [by apply Qlt_le_weak|].
  apply Qle_bool_iff in Hle. congruence.
Qed.

(** * Runs *)

Lemma run_bind_unfold {A B} (f : A -> run B) (m : run A) :
  m ≫= f = match m.2 with
            | Done a => (m.1 ++ (f a).1, (f a).2)
            | Exit => (m.1, Exit)
            | Raise e => (m.1, Raise e)
            end.
Proof. reflexivity. Qed.

Lemma run_bind_done {A B} (f : A -> run B) t a :
  (t, Done a) ≫= f = (t ++ (f a).1, (f a).2).
Proof. reflexivity. Qed.

Lemma for_each_print {A} (f : A -> pystr) l :
  for_each (fun x => print (f x)) l = (map (fun x => Print (f x)) l, Done tt).
Proof.
  induction l as [|x l IH]; [done|].
  cbn [for_each]. rewrite IH. reflexivity.
Qed.

(** * The selection of the board *)

Lemma ask_board_input int_of_str len lines :
  exists rest o,
    ask_board int_of_str len lines = (Input (str "Select a board : ") :: rest, o).
Proof.
  destruct lines as [|line lines]; cbn [ask_board]; rewrite run_bind_unfold.
  - by eexists _, _.
  - cbn [emit fst snd app]. by eexists _, _.
Qed.

(** C8.  With an empty list of boards the selection indexes position 0
    of the empty list: the run ends with an uncaught [IndexError], not
    with [sys.exit()]; a board is selected only if the list is not
    empty. *)
Theorem select_board_empty int_of_str w :
  select_board int_of_str w [] = ([], Raise IndexError) /\
  (forall boards t b,
     select_board int_of_str w boards = (t, Done b) -> boards <> []).
Proof.
  split; [reflexivity|].
  intros boards t b H ->. discriminate H.
Qed.


Lemma select_board_empty_witness :
  select_board int_of_digit (sample_world ConnectionError [])
    [(str "b1", str "Roadmap", str "")]
  = ([], Done (str "b1", str "Roadmap", str "")) /\
  [(str "b1", str "Roadmap", str "")] <> ([] : list board_row).
Proof.
  split; [reflexivity|].
  eapply (proj2 (select_board_empty int_of_digit (sample_world ConnectionError []))).
  reflexivity.
Defined.

(** C7.  When the fetch returns more than one board, the boards are
    printed in the lexicographic order of their names (every name is at
    most every later one), and the first prompt comes after the list; when it returns exactly one board,
    nothing is printed or asked and that board is selected. *)
Theorem boards_displayed_sorted int_of_str w json_data :
  members_me_boards w = Response 200 json_data ->
  ((1 < length json_data)%nat ->
   exists boards rest,
     boards ≡ₚ json_data /\
     StronglySorted (fun a b : board_row => str_ltb b.1.2 a.1.2 = false) boards /\
     (get_boards w ≫= select_board int_of_str w).1 =
       Print (str "------------------------------")
       :: map (fun ib => Print (board_line ib)) (imap (fun i b => (i, b)) boards)
       ++ Print (str "------------------------------")
       :: Input (str "Select a board : ") :: rest) /\
  (forall b, json_data = [b] ->
     get_boards w ≫= select_board int_of_str w = ([], Done b)).
Proof.
  intros Hw. unfold get_boards. rewrite Hw. cbn [Z.eqb Pos.eqb].
  split.
  - intros Hlen.
    set (boards := sorted str_ltb (fun x : board_row => x.1.2) json_data).
    exists boards.
    destruct (ask_board_input int_of_str (Z.of_nat (length boards)) (stdin w))
      as (rest & o & Hask).
    exists rest.
    split; [apply sorted_Permutation|].
    split.
    { apply (sorted_StronglySorted str_ltb (fun x : board_row => x.1.2));
        [apply str_ltb_asym|apply str_ltb_trans]. }
    unfold mret, run_ret. rewrite run_bind_done. cbn [app].
    unfold select_board.
    assert (Hl : (1 <? Z.of_nat (length boards))%Z = true).
    { apply Z.ltb_lt. unfold boards. rewrite sorted_length. lia. }
    rewrite Hl, for_each_print, Hask.
    rewrite !run_bind_unfold. cbn [print emit fst snd app].
    destruct o as [num| |]; cbn [fst snd app]; [|done|done].
    destruct (boards !! Z.to_nat num); cbn [fst snd mret run_ret raise];
      by rewrite app_nil_r.
  - intros b ->. reflexivity.
Qed.

Lemma boards_displayed_sorted_witness :
  (get_boards (sample_world (Response 200 sample_boards) [str "x"; str "1"])
     ≫= select_board int_of_digit
          (sample_world (Response 200 sample_boards) [str "x"; str "1"]))
  = ([ Print (str "------------------------------");
       Print (str "   0: Backlog");
       Print (str "   1: Ops");
       Print (str "   2: Roadmap");
       Print (str "------------------------------");
       Input (str "Select a board : ");
       Print (str "This is not a valid board number.");
       Input (str "Select a board : ") ],
     Done (str "b3", str "Ops", str "")) /\
  (exists boards rest,
     boards ≡ₚ sample_boards /\
     (get_boards (sample_world (Response 200 sample_boards) [str "x"; str "1"])
        ≫= select_board int_of_digit
             (sample_world (Response 200 sample_boards) [str "x"; str "1"])).1 =
       Print (str "------------------------------")
       :: map (fun ib => Print (board_line ib)) (imap (fun i b => (i, b)) boards)
       ++ Print (str "------------------------------")
       :: Input (str "Select a board : ") :: rest).
Proof.
  split; [vm_compute; reflexivity|].
  destruct (boards_displayed_sorted int_of_digit
              (sample_world (Response 200 sample_boards) [str "x"; str "1"])
              sample_boards eq_refl) as [H _].
  destruct H as (boards & rest & Hperm & _ & Htrace); [simpl; lia|].
  by exists boards, rest.
Defined.

(** * The context of a card *)

Section ContextFacts.
Variable strftime_date : pystr -> pystr.
Variable strftime_datetime : pystr -> pystr.

Lemma scan_actions_first acts pre a post it :
  acts = pre ++ a :: post ->
  Forall (fun x => ~ state_change_of it x) pre ->
  state_change_of it a ->
  scan_actions strftime_date acts (checkItem_id it)
  = strftime_date (action_date a).
Proof.
  intros -> Hpre [Ha1 Ha2].
  induction Hpre as [|x pre Hx _ IH]; simpl.
  - rewrite decide_True by done. by rewrite decide_True by done.
  - destruct (decide (action_type x = _)) as [H1|]; [|done].
    destruct (decide (action_data_checkItem_id x = _)) as [H2|]; [|done].
    by destruct Hx.
Qed.

Lemma scan_actions_none acts it :
  Forall (fun x => ~ state_change_of it x) acts ->
  scan_actions strftime_date acts (checkItem_id it) = [].
Proof.
  induction 1 as [|x acts Hx _ IH]; simpl; [done|].
  destruct (decide (action_type x = _)) as [H1|]; [|done].
  destruct (decide (action_data_checkItem_id x = _)) as [H2|]; [|done].
  by destruct Hx.
Qed.

(** What the loop over the check-items computes. *)
Lemma checkItems_loop_spec c items checkItems checklistComplete :
  checkItems_loop strftime_date c items checkItems checklistComplete =
  (checkItems ++
     map (fun it => (escape_xml (checkItem_name it), checkItem_pos it,
                     checkItem_state it,
                     updateCheckItemStateDate strftime_date c it)) items,
   (checklistComplete + complete_count items)%Z).
Proof.
  revert checkItems checklistComplete.
  induction items as [|it items IH]; intros acc n.
  - simpl. unfold complete_count. simpl. by rewrite app_nil_r, Z.add_0_r.
  - cbn [checkItems_loop]. rewrite IH. f_equal.
    + by rewrite <- app_assoc.
    + unfold complete_count. rewrite filter_cons.
      destruct (decide (checkItem_state it = str "complete")); simpl length; lia.
Qed.

(** The check-items and the percentage of one checklist. *)
Lemma checklist_entry_checkItems c cl :
  ctx_checkItems (checklist_entry strftime_date c cl) ≡ₚ
  map (fun it => (escape_xml (checkItem_name it), checkItem_pos it,
                  checkItem_state it,
                  updateCheckItemStateDate strftime_date c it))
    (checklist_checkItems cl).
Proof.
  unfold checklist_entry, ctx_checkItems.
  destruct (checklist_checkItems cl) as [|it items] eqn:Hitems; [done|].
  rewrite checkItems_loop_spec. cbn [app fst snd].
  set (l := map _ (it :: items)).
  destruct l eqn:Hl; [done|]. rewrite <- Hl. apply sorted_Permutation.
Qed.

Lemma checklist_entry_pcentComplet c cl :
  ctx_pcentComplet (checklist_entry strftime_date c cl) =
  match checklist_checkItems cl with
  | [] => []
  | items => pcent (complete_count items) (length items)
  end.
Proof.
  unfold checklist_entry, ctx_pcentComplet.
  destruct (checklist_checkItems cl) as [|it items] eqn:Hitems; [done|].
  rewrite checkItems_loop_spec. by rewrite Z.add_0_l.
Qed.

(** The checklists of the context are the entries of the named
    checklists of the card, in some order. *)
Lemma checklists_loop_Permutation c cls acc :
  checklists_loop strftime_date c cls acc ≡ₚ
  acc ++ map (checklist_entry strftime_date c)
           (filter (fun cl => checklist_name cl <> []) cls).
Proof.
  revert acc; induction cls as [|cl cls IH]; intros acc.
  - simpl. by rewrite app_nil_r.
  - cbn [checklists_loop]. rewrite IH, filter_cons.
    set (acc' := if decide (checklist_name cl <> []) then _ else _).
    assert (Hacc : match acc' with
                   | [] => acc'
                   | _ => sorted num_ltb (fun x : checklist_ctx => x.1.1.2) acc'
                   end ≡ₚ acc').
    { destruct acc'; [done|]. apply sorted_Permutation. }
    rewrite Hacc. unfold acc'.
    destruct (decide (checklist_name cl <> [])); [|done].
    by rewrite <- app_assoc.
Qed.

Lemma card_checklists_ctx_elem c x :
  x ∈ card_checklists_ctx strftime_date c ->
  exists cls cl,
    card_checklists c = Some cls /\ cl ∈ cls /\ checklist_name cl <> [] /\
    x = checklist_entry strftime_date c cl.
Proof.
  unfold card_checklists_ctx.
  destruct (card_checklists c) as [cls|]; [|by intros ?%elem_of_nil].
  rewrite checklists_loop_Permutation. cbn [app].
  intros (cl & -> & Hcl)%list_elem_of_fmap.
  apply list_elem_of_filter in Hcl as [Hname Hcl]. eauto 10.
Qed.
Lemma actions_loop_spec acts :
  actions_loop strftime_datetime acts =
  map (fun a => (strftime_datetime (action_date a),
                 escape_xml (action_memberCreator a),
                 escape_xml (action_data_text a)))
    (filter (fun a => action_type a = str "commentCard") acts).
Proof.
  induction acts as [|a acts IH]; [done|].
  cbn [actions_loop]. rewrite filter_cons.
  destruct (decide (action_type a = str "commentCard")); [|done].
  cbn [map]. by rewrite IH.
Qed.
End ContextFacts.

(** C6.  The date of the last state change of a check-item is the
    (formatted) date of the first action of the card's action list, in
    the order returned, that has type [updateCheckItemStateOnCard] and
    targets the item; it is empty if there is no such action or no action
    list.  This is the date every check-item carries in the context. *)
Theorem updateCheckItemStateDate_first_match strftime_date c it :
  (forall acts pre a post,
     card_actions c = Some acts ->
     acts = pre ++ a :: post ->
     Forall (fun x => ~ state_change_of it x) pre ->
     state_change_of it a ->
     updateCheckItemStateDate strftime_date c it = strftime_date (action_date a)) /\
  (forall acts,
     card_actions c = Some acts ->
     Forall (fun x => ~ state_change_of it x) acts ->
     updateCheckItemStateDate strftime_date c it = []) /\
  (card_actions c = None -> updateCheckItemStateDate strftime_date c it = []) /\
  (forall cl,
     ctx_checkItems (checklist_entry strftime_date c cl) ≡ₚ
     map (fun it => (escape_xml (checkItem_name it), checkItem_pos it,
                     checkItem_state it,
                     updateCheckItemStateDate strftime_date c it))
       (checklist_checkItems cl)).
Proof.
  unfold updateCheckItemStateDate. split; [|split; [|split]].
  - intros acts pre a post -> Hacts Hpre Ha. by eapply scan_actions_first.
  - intros acts -> Hacts. by apply scan_actions_none.
  - by intros ->.
  - apply checklist_entry_checkItems.
Qed.


Lemma updateCheckItemStateDate_first_match_witness :
  updateCheckItemStateDate id sample_card sample_item1 = str "2024-03-02" /\
  updateCheckItemStateDate id sample_card sample_item3 = [].
Proof.
  destruct (updateCheckItemStateDate_first_match id sample_card sample_item1)
    as (Hfirst & _).
  destruct (updateCheckItemStateDate_first_match id sample_card sample_item3)
    as (_ & Hnone & _).
  split.
  - apply (Hfirst sample_actions (take 2 sample_actions)
             {| action_type := str "updateCheckItemStateOnCard";
                action_date := str "2024-03-02";
                action_data_checkItem_id := str "i1"; action_data_text := [];
                action_memberCreator := str "Ann <QA>" |}
             (drop 3 sample_actions)); [reflexivity|reflexivity| |done].
    repeat constructor; intros [H1 H2]; discriminate.
  - apply (Hnone sample_actions); [reflexivity|].
    repeat constructor; intros [H1 H2]; discriminate.
Defined.

(** * Floating point: the completion percent

    The three roundings of [int(round(K / N * 100, 0))] are followed
    through the Standard Library's specification of binary64. *)

Section FloatFacts.
Local Open Scope Z_scope.

Lemma digits2_pos_bounds p :
  2 ^ (Zpos (digits2_pos p) - 1) <= Zpos p < 2 ^ Zpos (digits2_pos p).
Proof.
  induction p as [p IH|p IH|]; cbn [digits2_pos]; [| |simpl; lia].
  - rewrite Pos2Z.inj_succ, (Pos2Z.inj_xI p).
    replace (Z.succ (Zpos (digits2_pos p)) - 1)
      with (Z.succ (Zpos (digits2_pos p) - 1)) by lia.
    rewrite !Z.pow_succ_r by lia.
    generalize dependent (2 ^ (Zpos (digits2_pos p) - 1)).
    generalize dependent (2 ^ Zpos (digits2_pos p)). intros; lia.
  - rewrite Pos2Z.inj_succ, (Pos2Z.inj_xO p).
    replace (Z.succ (Zpos (digits2_pos p)) - 1)
      with (Z.succ (Zpos (digits2_pos p) - 1)) by lia.
    rewrite !Z.pow_succ_r by lia.
    generalize dependent (2 ^ (Zpos (digits2_pos p) - 1)).
    generalize dependent (2 ^ Zpos (digits2_pos p)). intros; lia.
Qed.

Lemma digits2_pos_unique p d :
  2 ^ (d - 1) <= Zpos p < 2 ^ d -> Zpos (digits2_pos p) = d.
Proof.
  intros [Hlo Hhi]. pose proof (digits2_pos_bounds p) as [Hlo' Hhi'].
  assert (0 < d).
  { destruct (Z_lt_le_dec 0 d); [assumption|].
    assert (2 ^ d <= 2 ^ 0) by (destruct (Z.eq_dec d 0) as [->|]; [lia|rewrite Z.pow_neg_r by lia; simpl; lia]).
    simpl in *. lia. }
  destruct (Z.lt_trichotomy (Zpos (digits2_pos p)) d) as [Hlt|[Heq|Hgt]]; [|assumption|].
  - assert (2 ^ Zpos (digits2_pos p) <= 2 ^ (d - 1)) by (apply Z.pow_le_mono_r; lia). lia.
  - assert (2 ^ d <= 2 ^ (Zpos (digits2_pos p) - 1)) by (apply Z.pow_le_mono_r; lia). lia.
Qed.

Lemma shr_1_located mrs a b :
  0 < b -> record_located mrs a b -> record_located (shr_1 mrs) a (2 * b).
Proof.
  intros Hb [Hm [Hab Hl]]. destruct mrs as [m r s]. cbn [shr_m] in *.
  unfold record_located, located.
  destruct m as [|[p|p|]|p]; try lia;
    destruct r, s; cbn [shr_1 orb shr_m loc_of_shr_record] in *;
    repeat match goal with
           | H : _ /\ _ |- _ => destruct H
           | H : (_ ?= _) = _ |- _ => first [apply Z.compare_eq_iff in H | apply Z.compare_lt_iff in H | apply Z.compare_gt_iff in H]
           end;
    rewrite ?Z.compare_eq_iff, ?Z.compare_lt_iff, ?Z.compare_gt_iff;
    lia.
Qed.

Lemma iter_pos_shr_1_located n mrs a b :
  0 < b -> record_located mrs a b ->
  record_located (SpecFloat.iter_pos shr_1 n mrs) a (2 ^ Zpos n * b).
Proof.
  revert mrs b; induction n as [n IH|n IH|]; intros mrs b Hb H; cbn [SpecFloat.iter_pos].
  - replace (2 ^ Zpos n~1 * b) with (2 ^ Zpos n * (2 ^ Zpos n * (2 * b))).
    + assert (0 < 2 ^ Zpos n) by (apply Z.pow_pos_nonneg; lia).
      apply IH; [nia|]. apply IH; [lia|]. by apply shr_1_located.
    + rewrite (Pos2Z.inj_xI n), Z.pow_add_r, Z.pow_mul_r, Z.pow_1_r by lia.
      change (2 ^ 2) with 4.
      replace (4 ^ Zpos n) with (2 ^ Zpos n * 2 ^ Zpos n); [ring|].
      rewrite <- Z.pow_mul_l. reflexivity.
  - replace (2 ^ Zpos n~0 * b) with (2 ^ Zpos n * (2 ^ Zpos n * b)).
    + assert (0 < 2 ^ Zpos n) by (apply Z.pow_pos_nonneg; lia).
      apply IH; [nia|]. by apply IH.
    + rewrite (Pos2Z.inj_xO n), Z.pow_mul_r by lia.
      change (2 ^ 2) with 4.
      replace (4 ^ Zpos n) with (2 ^ Zpos n * 2 ^ Zpos n); [ring|].
      rewrite <- Z.pow_mul_l. reflexivity.
  - change (2 ^ 1) with 2. by apply shr_1_located.
Qed.

Lemma shr_record_of_loc_located m l a b :
  0 <= m -> located m l a b -> record_located (shr_record_of_loc m l) a b.
Proof.
  intros Hm H. unfold record_located.
  destruct l as [|[]]; cbn [shr_record_of_loc shr_m loc_of_shr_record]; auto.
Qed.

(** Shifting by [n] bits keeps the location, at the scale [2 ^ n]. *)
Lemma shr_located mrs e n a b :
  0 <= n -> 0 < b -> record_located mrs a b ->
  record_located (fst (shr mrs e n)) a (2 ^ n * b) /\ snd (shr mrs e n) = e + n.
Proof.
  intros Hn Hb H. destruct n as [|n|n]; [| |lia]; cbn [shr fst snd].
  - split; [|lia]. by rewrite Z.pow_0_r, Z.mul_1_l.
  - split; [|reflexivity]. by apply iter_pos_shr_1_located.
Qed.

(** Rounding to nearest: the result is a neighbour at distance at most
    one half. *)
Lemma round_nearest_even_located m l a b :
  0 < b -> located m l a b ->
  let m' := round_nearest_even m l in
  m <= m' <= m + 1 /\ 2 * Z.abs (m' * b - a) <= b.
Proof.
  intros Hb [Hab Hl]. cbn zeta.
  destruct l as [|[]]; cbn [round_nearest_even].
  - lia.
  - destruct Hl as [Hlt Hc]. apply Z.compare_eq_iff in Hc.
    destruct (Z.even m); lia.
  - destruct Hl as [Hlt Hc]. change (2 * (a - m * b) < b) in Hc. lia.
  - destruct Hl as [Hlt Hc]. change (2 * (a - m * b) > b) in Hc. lia.
Qed.

Lemma fexp_normal e : -1074 <= e - 53 -> fexp 53 1024 e = e - 53.
Proof. intros H. unfold fexp, emin. lia. Qed.

Lemma loc_of_shr_record_of_loc m l :
  loc_of_shr_record (shr_record_of_loc m l) = l /\
  shr_m (shr_record_of_loc m l) = m.
Proof. by destruct l as [|[]]. Qed.

(** The first half of [binary_round_aux]: the mantissa is cut down to 53
    bits and rounded to nearest. *)
Lemma shr_fexp_round_located p ex lx a b :
  0 < b -> located (Zpos p) lx a b ->
  let d := Zpos (digits2_pos p) in
  53 <= d -> -1074 <= ex + d - 53 ->
  let mrs := fst (shr_fexp 53 1024 (Zpos p) ex lx) in
  let m := round_nearest_even (shr_m mrs) (loc_of_shr_record mrs) in
  snd (shr_fexp 53 1024 (Zpos p) ex lx) = ex + (d - 53) /\
  2 ^ 52 <= m <= 2 ^ 53 /\
  2 * Z.abs (m * (2 ^ (d - 53) * b) - a) <= 2 ^ (d - 53) * b.
Proof.
  intros Hb Hloc d Hd Hex. unfold shr_fexp. cbn [Zdigits2]. fold d.
  rewrite fexp_normal by lia.
  replace (d + ex - 53 - ex) with (d - 53) by lia.
  destruct (shr_located (shr_record_of_loc (Zpos p) lx) ex (d - 53) a b)
    as [[Hm Hrec] He]; [lia|done|by apply shr_record_of_loc_located|].
  cbn zeta. split; [done|].
  set (mrs := fst (shr (shr_record_of_loc (Zpos p) lx) ex (d - 53))) in *.
  set (c := 2 ^ (d - 53) * b) in *.
  assert (Hc : 0 < c) by (apply Z.mul_pos_pos; [apply Z.pow_pos_nonneg; lia|done]).
  destruct (round_nearest_even_located _ _ _ _ Hc Hrec) as [Hround Hdist].
  split; [|done].
  pose proof (digits2_pos_bounds p) as Hp. fold d in Hp.
  replace (d - 1) with (52 + (d - 53)) in Hp by lia.
  replace d with (53 + (d - 53)) in Hp at 2 by lia.
  rewrite !Z.pow_add_r in Hp by lia.
  destruct Hloc as [Hab _]. destruct Hrec as [Hab' _].
  set (m' := shr_m mrs) in *.
  set (P := 2 ^ (d - 53)) in *.
  assert (HP : 0 < P) by (apply Z.pow_pos_nonneg; lia).
  assert (H1 : 2 ^ 52 * c <= a) by (unfold c; nia).
  assert (H2 : a < 2 ^ 53 * c) by (unfold c; nia).
  assert (m' < 2 ^ 53) by nia.
  assert (2 ^ 52 <= m') by nia.
  lia.
Qed.

(** The second half: a mantissa of 53 bits is kept, [2 ^ 53] is
    renormalised to [2 ^ 52] with the next exponent. *)
Lemma shr_fexp_renormalise m e :
  2 ^ 52 <= m <= 2 ^ 53 -> -1074 <= e ->
  exists q k,
    shr_fexp 53 1024 m e loc_Exact
    = ({| shr_m := Zpos q; shr_r := false; shr_s := false |}, e + k) /\
    0 <= k <= 1 /\ 2 ^ 52 <= Zpos q < 2 ^ 53 /\ Zpos q * 2 ^ k = m.
Proof.
  intros Hm He. destruct m as [|q|q]; [simpl in Hm; lia| |lia].
  destruct (Z.eq_dec (Zpos q) (2 ^ 53)) as [Heq|Hne].
  - exists (4503599627370496%positive), 1.
    split; [|by vm_compute].
    assert (Hq : q = 9007199254740992%positive) by (apply Pos2Z.inj; exact Heq).
    subst q. unfold shr_fexp.
    change (Zdigits2 9007199254740992) with 54.
    rewrite fexp_normal by lia.
    replace (54 + e - 53 - e) with 1 by lia. reflexivity.
  - exists q, 0. split; [|split; [lia|split; [lia|lia]]].
    unfold shr_fexp. cbn [Zdigits2].
    rewrite (digits2_pos_unique q 53) by (simpl; lia).
    rewrite fexp_normal by lia.
    replace (53 + e - 53 - e) with 0 by lia. cbn [shr shr_record_of_loc].
    by rewrite Z.add_0_r.
Qed.

(** Rounding in the normal range: the result is a float of 53 bits at
    distance at most half a unit in the last place from the exact
    value [a / b * 2 ^ ex]. *)
Lemma binary_round_aux_located p ex lx a b :
  0 < b -> located (Zpos p) lx a b ->
  let d := Zpos (digits2_pos p) in
  53 <= d -> -1074 <= ex + d - 53 -> ex + d - 52 <= 971 ->
  exists m k,
    binary_round_aux 53 1024 false (Zpos p) ex lx = S754_finite false m (ex + k) /\
    d - 53 <= k <= d - 52 /\
    2 ^ 52 <= Zpos m < 2 ^ 53 /\
    2 * Z.abs (Zpos m * (2 ^ k * b) - a) <= 2 ^ k * b.
Proof.
  intros Hb Hloc d Hd Hlo Hhi.
  destruct (shr_fexp_round_located p ex lx a b Hb Hloc Hd Hlo)
    as (He & Hm & Hdist).
  unfold binary_round_aux.
  destruct (shr_fexp 53 1024 (Zpos p) ex lx) as [mrs e'].
  cbn [fst snd] in *. subst e'. cbv beta iota. fold d in Hdist |- *.
  set (m2 := round_nearest_even (shr_m mrs) (loc_of_shr_record mrs)) in *.
  destruct (shr_fexp_renormalise m2 (ex + (d - 53)) Hm) as (q & k & -> & Hk & Hq & Hqm);
    [lia|].
  cbn [shr_m].
  replace (ex + (d - 53) + k <=? 1024 - 53) with true
    by (symmetry; apply Z.leb_le; lia).
  exists q, (d - 53 + k).
  split; [f_equal; lia|]. split; [lia|]. split; [done|].
  rewrite Z.pow_add_r by lia.
  set (P := 2 ^ (d - 53)) in *.
  assert (HP : 0 < P) by (apply Z.pow_pos_nonneg; lia).
  destruct (Z.eq_dec k 0) as [->|Hk1].
  - rewrite Z.pow_0_r, Z.mul_1_r in *. by rewrite Hqm.
  - assert (k = 1) by lia. subst k. rewrite Z.pow_1_r in *.
    replace (Zpos q * (P * 2 * b) - a) with (m2 * (P * b) - a) by (rewrite <- Hqm; ring).
    nia.
Qed.

Lemma binary_round_aux_exact p e :
  Zpos (digits2_pos p) = 53 -> -1074 <= e <= 971 ->
  binary_round_aux 53 1024 false (Zpos p) e loc_Exact = S754_finite false p e.
Proof.
  intros Hd He. unfold binary_round_aux, shr_fexp. cbn [Zdigits2].
  rewrite Hd, fexp_normal by lia.
  replace (53 + e - 53 - e) with 0 by lia.
  cbn [shr shr_record_of_loc loc_of_shr_record round_nearest_even shr_m Zdigits2].
  rewrite Hd, fexp_normal by lia.
  replace (53 + e - 53 - e) with 0 by lia.
  cbn [shr shr_record_of_loc shr_m].
  by replace (e <=? 1024 - 53) with true by (symmetry; apply Z.leb_le; lia).
Qed.

Lemma Pos_iter_xO p s : Zpos (Pos.iter xO p s) = Zpos p * 2 ^ Zpos s.
Proof.
  induction s as [|s IH] using Pos.peano_ind.
  - simpl. lia.
  - rewrite Pos.iter_succ, Pos2Z.inj_succ, Z.pow_succ_r by lia.
    rewrite (Pos2Z.inj_xO (Pos.iter xO p s)), IH. ring.
Qed.

Lemma digits2_pos_range p lo hi :
  0 <= lo -> 2 ^ lo <= Zpos p < 2 ^ hi -> lo < Zpos (digits2_pos p) <= hi.
Proof.
  intros Hlo [H1 H2]. pose proof (digits2_pos_bounds p) as [H3 H4].
  split.
  - apply (Z.pow_lt_mono_r_iff 2); lia.
  - destruct (Z_le_gt_dec (Zpos (digits2_pos p)) hi) as [|Hgt]; [done|].
    assert (2 ^ hi <= 2 ^ (Zpos (digits2_pos p) - 1)).
    { apply Z.pow_le_mono_r; lia. }
    lia.
Qed.

(** The conversion of an integer below [2 ^ 53] is exact and
    normalised. *)
Lemma float_of_int_exact n :
  0 < n < 2 ^ 53 ->
  exists m E,
    binary_normalize 53 1024 n 0 false = S754_finite false m (- E) /\
    0 <= E <= 52 /\ Zpos m = n * 2 ^ E /\ 2 ^ 52 <= Zpos m < 2 ^ 53.
Proof.
  intros Hn. destruct n as [|p|p]; [lia| |lia].
  cbn [binary_normalize]. unfold binary_round.
  pose proof (digits2_pos_bounds p) as Hp.
  set (d := Zpos (digits2_pos p)) in *.
  assert (Hd : 0 < d <= 53).
  { split; [done|]. apply (digits2_pos_range p 0 53); [lia|].
    change (2 ^ 0) with 1. lia. }
  rewrite Z.add_0_r, fexp_normal by lia.
  unfold shl_align. rewrite Z.sub_0_r.
  destruct (d - 53) as [|s|s] eqn:Hs; [|lia|].
  - exists p, 0. rewrite binary_round_aux_exact by (fold d; lia).
    change (2 ^ 0) with 1. rewrite Z.mul_1_r.
    replace d with 53 in Hp by lia.
    split; [done|]. split; [lia|]. split; [done|]. exact Hp || lia.
  - assert (Hm : Zpos (Pos.iter xO p s) = Zpos p * 2 ^ (53 - d)).
    { rewrite Pos_iter_xO. do 2 f_equal. lia. }
    assert (Hb : 2 ^ 52 <= Zpos (Pos.iter xO p s) < 2 ^ 53).
    { rewrite Hm.
      assert (H52 : 2 ^ 52 = 2 ^ (d - 1) * 2 ^ (53 - d))
        by (rewrite <- Z.pow_add_r by lia; f_equal; lia).
      assert (H53 : 2 ^ 53 = 2 ^ d * 2 ^ (53 - d))
        by (rewrite <- Z.pow_add_r by lia; f_equal; lia).
      rewrite H52, H53.
      assert (0 < 2 ^ (53 - d)) by (apply Z.pow_pos_nonneg; lia).
      nia. }
    exists (Pos.iter xO p s), (53 - d).
    rewrite binary_round_aux_exact.
    + split; [f_equal; lia|]. split; [lia|]. split; [exact Hm|exact Hb].
    + apply digits2_pos_unique. exact Hb.
    + lia.
Qed.

(** The location of a quotient from its remainder. *)
Lemma new_location_located nb q k a :
  0 < nb -> 0 <= k < nb -> a = q * nb + k ->
  located q (new_location nb k) a nb.
Proof.
  intros Hnb Hk ->. unfold located. split; [lia|].
  unfold new_location, new_location_even, new_location_odd.
  replace (q * nb + k - q * nb) with k by ring.
  destruct (Z.even nb) eqn:Heven.
  - destruct (Z.eqb_spec k 0) as [->|Hk0]; [lia|]. split; [lia|reflexivity].
  - destruct (Z.eqb_spec k 0) as [->|Hk0]; [lia|]. split; [lia|].
    assert (Hodd : Z.odd nb = true) by (rewrite <- Z.negb_even, Heven; done).
    apply Z.odd_spec in Hodd as [t Ht].
    destruct (Z.compare_spec (2 * k + 1) nb) as [H|H|H].
    + apply Z.compare_lt_iff. lia.
    + apply Z.compare_lt_iff. lia.
    + apply Z.compare_gt_iff. lia.
Qed.

Lemma abs_scale_cancel x y z c :
  0 < c -> 2 * Z.abs (x * c - y * c) <= z * c -> 2 * Z.abs (x - y) <= z.
Proof.
  intros Hc H. replace (x * c - y * c) with ((x - y) * c) in H by ring.
  rewrite Z.abs_mul, (Z.abs_eq c) in H by lia.
  apply (Z.mul_le_mono_pos_r _ _ c); [done|]. lia.
Qed.

(** The quotient of two integers: a float of 53 bits, [m / 2 ^ F], at
    distance at most [1 / 2 ^ (F + 1)] from [K / N]. *)
Lemma truediv_located K N :
  0 < K <= N -> N < 2 ^ 53 ->
  exists m F,
    SFdiv 53 1024 (binary_normalize 53 1024 K 0 false)
      (binary_normalize 53 1024 N 0 false) = S754_finite false m (- F) /\
    52 <= F <= 105 /\
    2 ^ 52 <= Zpos m < 2 ^ 53 /\
    2 * Z.abs (Zpos m * N - K * 2 ^ F) <= N.
Proof.
  intros HK HN.
  destruct (float_of_int_exact K) as (mK & EK & -> & HEK & HmK & HbK); [lia|].
  destruct (float_of_int_exact N) as (mN & EN & -> & HEN & HmN & HbN); [lia|].
  assert (HPK : 0 < 2 ^ EK) by (apply Z.pow_pos_nonneg; lia).
  assert (HPN : 0 < 2 ^ EN) by (apply Z.pow_pos_nonneg; lia).
  assert (HE : EN <= EK).
  { destruct (Z_le_gt_dec EN EK) as [|Hgt]; [done|]. exfalso.
    assert (2 ^ (EK + 1) <= 2 ^ EN) by (apply Z.pow_le_mono_r; lia).
    rewrite Z.pow_add_r, Z.pow_1_r in * by lia. nia. }
  cbn [SFdiv xorb]. unfold SFdiv_core_binary. cbn [Zdigits2].
  rewrite (digits2_pos_unique mK 53), (digits2_pos_unique mN 53) by (simpl; lia).
  rewrite fexp_normal by lia.
  replace (Z.min (53 + - EK - (53 + - EN) - 53) (- EK - - EN))
    with (- EK + EN - 53) by lia.
  replace (- EK - - EN - (- EK + EN - 53)) with 53 by lia.
  rewrite Z.shiftl_mul_pow2 by lia.
  pose proof (Z_div_mod (Zpos mK * 2 ^ 53) (Zpos mN) eq_refl) as Hdiv.
  destruct (Z.div_eucl (Zpos mK * 2 ^ 53) (Zpos mN)) as [q r].
  destruct Hdiv as [Hqr Hr].
  assert (Hq : 2 ^ 52 <= q < 2 ^ 54).
  { change (2 ^ 54) with (2 ^ 53 * 2). change (2 ^ 53) with (2 ^ 52 * 2) in *.
    set (P := 2 ^ 52) in *. assert (0 < P) by done. nia. }
  destruct q as [|q|q]; [simpl in Hq; lia| |lia].
  assert (Hd : 52 < Zpos (digits2_pos q) <= 54)
    by (apply digits2_pos_range; [lia|done]).
  destruct (binary_round_aux_located q (- EK + EN - 53)
              (new_location (Zpos mN) r) (Zpos mK * 2 ^ 53) (Zpos mN))
    as (m & k & -> & Hk & Hm & Hdist); try lia.
  { apply new_location_located; lia. }
  exists m, (- (- EK + EN - 53 + k)).
  assert (HF : 0 <= EK - EN + 53 - k) by lia.
  split; [f_equal; lia|].
  replace (- (- EK + EN - 53 + k)) with (EK - EN + 53 - k) by lia.
  set (F := EK - EN + 53 - k) in *.
  assert (Hmain : 2 * Z.abs (Zpos m * N - K * 2 ^ F) <= N).
  { apply (abs_scale_cancel _ _ _ (2 ^ (k + EN))).
    - apply Z.pow_pos_nonneg; lia.
    - replace (K * 2 ^ F * 2 ^ (k + EN)) with (Zpos mK * 2 ^ 53).
      + replace (Zpos m * N * 2 ^ (k + EN)) with (Zpos m * (2 ^ k * Zpos mN))
          by (rewrite HmN, Z.pow_add_r by lia; ring).
        replace (N * 2 ^ (k + EN)) with (2 ^ k * Zpos mN)
          by (rewrite HmN, Z.pow_add_r by lia; ring).
        exact Hdist.
      + rewrite HmK, <- !Z.mul_assoc, <- !Z.pow_add_r by lia.
        do 2 f_equal. unfold F. lia. }
  split; [|split; [exact Hm|exact Hmain]].
  split; [|lia].
  assert (HPF : 0 < 2 ^ F) by (apply Z.pow_pos_nonneg; lia).
  assert (Hle : Zpos m <= 2 ^ F).
  { destruct (Z_le_gt_dec (Zpos m) (2 ^ F)) as [|Hgt]; [assumption|exfalso].
    assert (K * 2 ^ F <= N * 2 ^ F) by (apply Z.mul_le_mono_nonneg_r; lia).
    assert ((2 ^ F + 1) * N <= Zpos m * N) by (apply Z.mul_le_mono_nonneg_r; lia).
    lia. }
  apply (Z.pow_le_mono_r_iff 2); lia.
Qed.

(** The product by [100.0]: a float of 53 bits, [m' / 2 ^ F'], at
    distance at most [1 / 2 ^ (F' + 1)] from [100 * m / 2 ^ F]. *)
Lemma mul_100_located m F :
  2 ^ 52 <= Zpos m < 2 ^ 53 -> 52 <= F <= 105 ->
  exists m' F',
    SFmul 53 1024 (S754_finite false m (- F)) (binary_normalize 53 1024 100 0 false)
    = S754_finite false m' (- F') /\
    0 < F' /\
    2 ^ 52 <= Zpos m' < 2 ^ 53 /\
    2 * Z.abs (Zpos m' * 2 ^ F - 100 * Zpos m * 2 ^ F') <= 2 ^ F.
Proof.
  intros Hm HF.
  change (binary_normalize 53 1024 100 0 false)
    with (S754_finite false 7036874417766400 (-46)).
  cbn [SFmul xorb].
  assert (Hprod : Zpos (m * 7036874417766400) = Zpos m * (100 * 2 ^ 46)).
  { rewrite Pos2Z.inj_mul. reflexivity. }
  assert (Hd : 104 < Zpos (digits2_pos (m * 7036874417766400)) <= 106).
  { apply digits2_pos_range; [lia|]. rewrite Hprod.
    change (2 ^ 104) with (2 ^ 52 * 2 ^ 52).
    change (2 ^ 106) with (2 ^ 53 * 2 ^ 53).
    change (100 * 2 ^ 46) with 7036874417766400.
    change (2 ^ 52) with 4503599627370496 in *.
    change (2 ^ 53) with 9007199254740992 in *. lia. }
  destruct (binary_round_aux_located (m * 7036874417766400) (- F + -46) loc_Exact
              (Zpos (m * 7036874417766400)) 1)
    as (m' & k & -> & Hk & Hm' & Hdist); try lia.
  { unfold located. lia. }
  rewrite Z.mul_1_r, Hprod in Hdist.
  exists m', (F + 46 - k).
  split; [f_equal; lia|]. split; [lia|]. split; [exact Hm'|].
  destruct (Z_le_gt_dec k F) as [Hle|Hgt].
  - replace (2 ^ F) with (2 ^ k * 2 ^ (F - k))
      by (rewrite <- Z.pow_add_r by lia; f_equal; lia).
    replace (2 ^ (F + 46 - k)) with (2 ^ 46 * 2 ^ (F - k))
      by (rewrite <- Z.pow_add_r by lia; f_equal; lia).
    set (c := 2 ^ (F - k)).
    assert (Hc : 0 < c) by (apply Z.pow_pos_nonneg; lia).
    replace (Zpos m' * (2 ^ k * c) - 100 * Zpos m * (2 ^ 46 * c))
      with ((Zpos m' * 2 ^ k - Zpos m * (100 * 2 ^ 46)) * c) by ring.
    rewrite Z.abs_mul, (Z.abs_eq c) by lia.
    rewrite Z.mul_assoc. apply Z.mul_le_mono_nonneg_r; [lia|exact Hdist].
  - apply (abs_scale_cancel _ _ _ (2 ^ (k - F))).
    + apply Z.pow_pos_nonneg; lia.
    + replace (2 ^ F * 2 ^ (k - F)) with (2 ^ k)
        by (rewrite <- Z.pow_add_r by lia; f_equal; lia).
      replace (Zpos m' * 2 ^ F * 2 ^ (k - F)) with (Zpos m' * 2 ^ k)
        by (rewrite <- Z.mul_assoc, <- Z.pow_add_r by lia; do 2 f_equal; lia).
      replace (100 * Zpos m * 2 ^ (F + 46 - k) * 2 ^ (k - F))
        with (Zpos m * (100 * 2 ^ 46)).
      * exact Hdist.
      * rewrite <- (Z.mul_assoc (100 * Zpos m)), <- Z.pow_add_r by lia.
        replace (F + 46 - k + (k - F)) with 46 by lia. ring.
Qed.

(** [round_half_even] gives an integer at distance at most one half. *)
Lemma round_half_even_located a b :
  0 < b -> 2 * Z.abs (round_half_even a b * b - a) <= b.
Proof.
  intros Hb. unfold round_half_even.
  pose proof (Z.div_mod a b ltac:(lia)) as Hdiv.
  pose proof (Z.mod_pos_bound a b Hb) as Hmod.
  destruct (Z.compare_spec (2 * (a mod b)) b) as [H|H|H].
  - destruct (Z.even (a / b)); lia.
  - lia.
  - lia.
Qed.

(** The three roundings together miss [100 * K / N] by less than
    [1 / 2 + 1 / (2 * N)]. *)
Lemma percent_nearest K N m A m' B r :
  0 < K <= N -> N <= 2 ^ 44 ->
  0 < A -> 0 < B ->
  2 ^ 52 <= m -> 2 ^ 52 <= m' ->
  2 * Z.abs (m * N - K * A) <= N ->
  2 * Z.abs (m' * A - 100 * m * B) <= A ->
  2 * Z.abs (r * B - m') <= B ->
  2 * Z.abs (r * N - 100 * K) <= N.
Proof.
  intros HK HN HA HB Hm Hm' H1 H2 H3.
  assert (HmA : m <= A).
  { destruct (Z_le_gt_dec m A) as [|Hgt]; [assumption|exfalso].
    assert (K * A <= N * A) by (apply Z.mul_le_mono_nonneg_r; lia).
    assert ((A + 1) * N <= m * N) by (apply Z.mul_le_mono_nonneg_r; lia).
    lia. }
  assert (Hm'B : m' <= 100 * B).
  { destruct (Z_le_gt_dec m' (100 * B)) as [|Hgt]; [assumption|exfalso].
    assert (100 * B * m <= 100 * B * A) by (apply Z.mul_le_mono_nonneg_l; lia).
    assert ((100 * B + 1) * A <= m' * A) by (apply Z.mul_le_mono_nonneg_r; lia).
    lia. }
  change (2 ^ 52) with 4503599627370496 in *.
  change (2 ^ 44) with 17592186044416 in *.
  (* (r N - 100 K) A B = N A (r B - m') + N (m' A - 100 m B) + 100 B (m N - K A) *)
  assert (Hid : (r * N - 100 * K) * (A * B)
                = N * A * (r * B - m') + N * (m' * A - 100 * m * B)
                  + 100 * B * (m * N - K * A)) by ring.
  assert (Hbound : 2 * Z.abs ((r * N - 100 * K) * (A * B))
                   <= N * (A * B) + N * A + 100 * B * N).
  { rewrite Hid.
    pose proof (Z.abs_triangle (N * A * (r * B - m') + N * (m' * A - 100 * m * B))
                  (100 * B * (m * N - K * A))) as T1.
    pose proof (Z.abs_triangle (N * A * (r * B - m')) (N * (m' * A - 100 * m * B)))
      as T2.
    rewrite ?Z.abs_mul in T1. rewrite ?Z.abs_mul in T2.
    rewrite ?(Z.abs_mul N) in T2.
    rewrite (Z.abs_eq N), (Z.abs_eq A), (Z.abs_eq 100), (Z.abs_eq B) in * by lia.
    assert (E1 : 2 * (N * A * Z.abs (r * B - m')) <= N * A * B).
    { rewrite Z.mul_assoc, (Z.mul_comm 2), <- Z.mul_assoc.
      apply Z.mul_le_mono_nonneg_l; [apply Z.mul_nonneg_nonneg; lia|exact H3]. }
    assert (E2 : 2 * (N * Z.abs (m' * A - 100 * m * B)) <= N * A).
    { rewrite Z.mul_assoc, (Z.mul_comm 2), <- Z.mul_assoc.
      apply Z.mul_le_mono_nonneg_l; [lia|exact H2]. }
    assert (E3 : 2 * (100 * B * Z.abs (m * N - K * A)) <= 100 * B * N).
    { rewrite Z.mul_assoc, (Z.mul_comm 2), <- Z.mul_assoc.
      apply Z.mul_le_mono_nonneg_l; [lia|exact H1]. }
    clear - T1 T2 E1 E2 E3.
    generalize dependent (Z.abs (r * B - m')).
    generalize dependent (Z.abs (m' * A - 100 * m * B)).
    generalize dependent (Z.abs (m * N - K * A)).
    generalize dependent
      (Z.abs (N * A * (r * B - m') + N * (m' * A - 100 * m * B))).
    generalize dependent
      (Z.abs (N * A * (r * B - m') + N * (m' * A - 100 * m * B)
              + 100 * B * (m * N - K * A))).
    intros. lia. }
  assert (Hsmall : N * A + 100 * B * N < A * B).
  { assert (256 * (N * A) <= 100 * (A * B)).
    { replace (256 * (N * A)) with (A * (256 * N)) by ring.
      replace (100 * (A * B)) with (A * (100 * B)) by ring.
      apply Z.mul_le_mono_nonneg_l; lia. }
    assert (256 * (100 * B * N) <= 100 * (A * B)).
    { replace (256 * (100 * B * N)) with (100 * B * (256 * N)) by ring.
      replace (100 * (A * B)) with (100 * B * A) by ring.
      apply Z.mul_le_mono_nonneg_l; lia. }
    assert (0 < A * B) by (apply Z.mul_pos_pos; lia).
    lia. }
  rewrite Z.abs_mul, (Z.abs_eq (A * B)) in Hbound
    by (apply Z.mul_nonneg_nonneg; lia).
  assert (HAB : 0 < A * B) by (apply Z.mul_pos_pos; lia).
  assert (Hlt : 2 * Z.abs (r * N - 100 * K) * (A * B) < (N + 1) * (A * B)) by lia.
  apply Z.mul_lt_mono_pos_r in Hlt; [lia|exact HAB].
Qed.

(** The percentage of [K] items out of [N], as the script computes it
    in floating point, is an integer nearest to [100 * K / N]. *)
Lemma int_round_percent K N :
  0 <= K <= N -> 0 < N <= 2 ^ 44 ->
  nearest_integer
    (int_round (float_mul (truediv K N) (float_of_int 100))) (100 * K) N.
Proof.
  intros HK HN. unfold nearest_integer, truediv, float_mul, float_of_int.
  assert (HN53 : N < 2 ^ 53).
  { change (2 ^ 44) with 17592186044416 in HN.
    change (2 ^ 53) with 9007199254740992. lia. }
  destruct (Z.eq_dec K 0) as [->|HK0].
  - destruct (float_of_int_exact N) as (mN & EN & -> & _); [lia|].
    change (binary_normalize 53 1024 0 0 false) with (S754_zero false).
    change (binary_normalize 53 1024 100 0 false)
      with (S754_finite false 7036874417766400 (-46)).
    cbn [SFdiv SFmul xorb int_round]. lia.
  - destruct (truediv_located K N) as (m & F & -> & HF & Hm & H1); [lia|done|].
    destruct (mul_100_located m F Hm HF) as (m' & F' & -> & HF' & Hm' & H2).
    destruct F' as [|p|p]; [lia| |lia].
    change (- Z.pos p) with (Z.neg p). cbn [int_round].
    assert (HA : 0 < 2 ^ F) by (apply Z.pow_pos_nonneg; lia).
    assert (HB : 0 < 2 ^ Zpos p) by (apply Z.pow_pos_nonneg; lia).
    pose proof (round_half_even_located (Zpos m') (2 ^ Zpos p) HB) as H3.
    apply (percent_nearest K N (Zpos m) (2 ^ F) (Zpos m') (2 ^ Zpos p));
      [lia|lia|exact HA|exact HB|lia|lia|exact H1|exact H2|exact H3].
Qed.

Lemma complete_count_le items :
  0 <= complete_count items <= Z.of_nat (length items).
Proof.
  unfold complete_count. split; [lia|].
  apply inj_le, length_filter.
Qed.

(** Away from a tie there is one nearest integer. *)
Lemma nearest_integer_off_tie r a N :
  0 < N -> nearest_integer r a N -> 2 * (a mod N) <> N ->
  r = round_half_up a N /\ round_half_even a N = round_half_up a N.
Proof.
  unfold nearest_integer, round_half_up, round_half_even.
  intros HN Hr Htie.
  pose proof (Z.div_mod a N ltac:(lia)) as Ha.
  pose proof (Z.mod_pos_bound a N HN) as Hm.
  set (q := a / N) in *. set (m := a mod N) in *.
  destruct (2 * m ?= N) eqn:Hcmp.
  - apply Z.compare_eq in Hcmp. lia.
  - change (2 * m < N) in Hcmp.
    assert (q = (2 * a + N) / (2 * N)) as <-.
    { apply (Z.div_unique_pos _ _ q (2 * m + N)); lia. }
    split; [|done].
    destruct (Z_lt_le_dec r q) as [Hlt|Hge].
    + exfalso. assert (r * N <= q * N - N) by nia. lia.
    + destruct (Z_le_lt_eq_dec q r Hge) as [Hlt|Heq]; [|done].
      exfalso. assert (q * N + N <= r * N) by nia. lia.
  - apply Z.compare_gt_iff in Hcmp.
    assert (q + 1 = (2 * a + N) / (2 * N)) as <-.
    { apply (Z.div_unique_pos _ _ (q + 1) (2 * m - N)); lia. }
    split; [|done].
    destruct (Z_lt_le_dec r (q + 1)) as [Hlt|Hge].
    + exfalso. assert (r * N <= q * N) by nia. lia.
    + destruct (Z_le_lt_eq_dec (q + 1) r Hge) as [Hlt|Heq]; [|done].
      exfalso. assert (q * N + 2 * N <= r * N) by nia. lia.
Qed.

(** C2.  The completion percent diverges from [round(100 * K / N)] at a
    tie: with 23 check-items complete out of 40 the quotient is [57.5],
    which rounds to [58], to the even neighbour as well as upwards, and
    the context holds [57%], since [23 / 40 * 100] is
    [57.49999999999999] in binary64.  Away from the ties the claim
    holds: a checklist without check-items has the empty string, and
    with [N > 0] check-items of which [K] are complete, [100 * K / N] not
    lying halfway between two integers, the percent is the decimal string
    of the integer nearest to [100 * K / N], followed by [%]; with 1 out
    of 3 it is [33%].  ([N] is taken to be at most [2 ^ 44].) *)
Theorem checklist_pcentComplet_tie strftime_date c :
  (complete_count (checklist_checkItems sample_tie_checklist) = 23 /\
   length (checklist_checkItems sample_tie_checklist) = 40%nat /\
   ctx_pcentComplet (checklist_entry strftime_date c sample_tie_checklist)
   = str "57%" /\
   round_half_even (100 * 23) 40 = 58 /\
   round_half_up (100 * 23) 40 = 58) /\
  (forall cl,
     checklist_checkItems cl = [] ->
     ctx_pcentComplet (checklist_entry strftime_date c cl) = []) /\
  (forall cl,
     let K := complete_count (checklist_checkItems cl) in
     let N := Z.of_nat (length (checklist_checkItems cl)) in
     checklist_checkItems cl <> [] ->
     N <= 2 ^ 44 ->
     2 * ((100 * K) mod N) <> N ->
     ctx_pcentComplet (checklist_entry strftime_date c cl)
     = str_of_int (round_half_up (100 * K) N) ++ str "%" /\
     round_half_even (100 * K) N = round_half_up (100 * K) N) /\
  pcent 1 3 = str "33%".
Proof.
  split; [|split; [|split; [|by vm_compute]]].
  - rewrite checklist_entry_pcentComplet. repeat split; by vm_compute.
  - intros cl Hnil. rewrite checklist_entry_pcentComplet. by rewrite Hnil.
  - intros cl K N Hne Hlen Htie. subst K N.
    rewrite checklist_entry_pcentComplet.
    destruct (checklist_checkItems cl) as [|it items] eqn:Hitems; [done|].
    set (all := it :: items) in *.
    assert (0 < Z.of_nat (length all)) as HN by (unfold all; cbn [length]; lia).
    pose proof (int_round_percent (complete_count all) (Z.of_nat (length all))
                  (complete_count_le all) (conj HN Hlen)) as Hr.
    destruct (nearest_integer_off_tie _ _ _ HN Hr Htie) as [Heq Heven].
    split; [|exact Heven]. unfold pcent. by rewrite Heq.
Qed.

Lemma checklist_pcentComplet_tie_witness :
  ctx_pcentComplet (checklist_entry id sample_card sample_checklist) = str "33%" /\
  round_half_even (100 * 1) 3 = 33.
Proof.
  destruct (checklist_pcentComplet_tie id sample_card) as (_ & _ & H & _).
  destruct (H sample_checklist) as [H1 H2];
    [discriminate|by vm_compute|by vm_compute|].
  split; [rewrite H1|exact H2]; by vm_compute.
Defined.

(** At a tie the result of the floating-point computation decides:
    [12.5] and [37.5] are exact and go to the even neighbour, while
    [23 / 40 * 100] is [57.49999999999999] in binary64 and goes down. *)
Lemma pcent_ties :
  pcent 1 8 = str "12%" /\ pcent 3 8 = str "38%" /\ pcent 23 40 = str "57%".
Proof. by vm_compute. Qed.

End FloatFacts.

(** * The two buckets *)

Lemma str_of_bool_False b : str_of_bool b = str "False" <-> b = false.
Proof. destruct b; split; (done || discriminate). Qed.

Section SheetFacts.
Variable strftime_date : pystr -> pystr.
Variable strftime_datetime : pystr -> pystr.
Variable wsHeaders : list cell.
Variable lists : list list_row.

Local Abbreviation row := (card_row strftime_date strftime_datetime lists).
Local Abbreviation write := (write_card strftime_date strftime_datetime lists).

Lemma write_cards_foldl cards s :
  foldl write s cards =
  {| worksheet1 :=
       worksheet1 s ++
       imap (fun i c => (worksheet1cellRow s + Z.of_nat i, row c)%Z)
         (filter (fun c => card_closed c = false) cards);
     worksheet1cellRow :=
       worksheet1cellRow s
       + Z.of_nat (length (filter (fun c => card_closed c = false) cards));
     worksheet2 :=
       worksheet2 s ++
       imap (fun i c => (worksheet2cellRow s + Z.of_nat i, row c)%Z)
         (filter (fun c => card_closed c = true) cards);
     worksheet2cellRow :=
       worksheet2cellRow s
       + Z.of_nat (length (filter (fun c => card_closed c = true) cards)) |}.
Proof.
  revert s; induction cards as [|c cards IH]; intros s.
  - destruct s; simpl. by rewrite !app_nil_r, !Z.add_0_r.
  - cbn [foldl]. rewrite IH. unfold write_card. rewrite !filter_cons.
    destruct (decide (str_of_bool (card_closed c) = str "False")) as [Hc|Hc].
    + apply str_of_bool_False in Hc. rewrite Hc.
      rewrite decide_True, decide_False by done. cbn [worksheet1 worksheet1cellRow
        worksheet2 worksheet2cellRow imap length].
      f_equal; [|lia].
      rewrite <- app_assoc. cbn [app]. rewrite Z.add_0_r. do 2 f_equal.
      apply imap_ext. intros i x _. simpl. f_equal. lia.
    + assert (Hc' : card_closed c = true).
      { destruct (card_closed c); [done|]. by destruct Hc. }
      rewrite Hc'. rewrite decide_False, decide_True by done.
      cbn [worksheet1 worksheet1cellRow worksheet2 worksheet2cellRow imap length].
      f_equal; [|lia].
      rewrite <- app_assoc. cbn [app]. rewrite Z.add_0_r. do 2 f_equal.
      apply imap_ext. intros i x _. simpl. f_equal. lia.
Qed.

Lemma write_cards_sheets cards :
  let s := write_cards strftime_date strftime_datetime wsHeaders lists cards in
  worksheet1 s =
    (0%Z, wsHeaders)
    :: imap (fun i c => (1 + Z.of_nat i, row c)%Z)
         (filter (fun c => card_closed c = false) cards) /\
  worksheet2 s =
    (0%Z, wsHeaders)
    :: imap (fun i c => (1 + Z.of_nat i, row c)%Z)
         (filter (fun c => card_closed c = true) cards).
Proof. unfold write_cards. by rewrite write_cards_foldl. Qed.
End SheetFacts.

Lemma filter_closed_partition (cards : list card) :
  filter (fun c => card_closed c = false) cards
  ++ filter (fun c => card_closed c = true) cards ≡ₚ cards.
Proof.
  induction cards as [|c cards IH]; [done|].
  rewrite !filter_cons. destruct (card_closed c).
  - rewrite decide_False, decide_True by done.
    by rewrite <- Permutation_middle, IH.
  - rewrite decide_True, decide_False by done. simpl. by rewrite IH.
Qed.

(** * File operations *)

Lemma remove_if_exists_ok w boardFileName p :
  raises w (Remove p) = false ->
  remove_if_exists w boardFileName p = ([RemoveIfExists p], Done tt).
Proof. intros H. unfold remove_if_exists. rewrite H. reflexivity. Qed.

Lemma remove_if_exists_raises w boardFileName p :
  raises w (Remove p) = true ->
  remove_if_exists w boardFileName p =
  ([ RemoveIfExists p;
     Print (str "Oops, an error occurred.");
     Print (str "'" ++ p ++ str "' already exists." ++ [10]
            ++ str "You should rename or delete '" ++ boardFileName ++ str ".") ],
   Exit).
Proof. intros H. unfold remove_if_exists. rewrite H. reflexivity. Qed.

Lemma write_file_ok w p content :
  raises w (OpenWb p) = false -> write_file w p content = ([WriteFile p content], Done tt).
Proof. intros H. unfold write_file. by rewrite H. Qed.

Lemma write_file_raises w p content :
  raises w (OpenWb p) = true -> write_file w p content = ([], Raise OSError).
Proof. intros H. unfold write_file. by rewrite H. Qed.

Lemma save_document_ok w p context :
  raises w (Save p) = false ->
  save_document w p context = ([SaveDocument p context], Done tt).
Proof. intros H. unfold save_document. by rewrite H. Qed.

Lemma close_workbook_ok w p s1 s2 :
  raises w (Close p) = false ->
  close_workbook w p s1 s2 = ([CloseWorkbook p s1 s2], Done tt).
Proof. intros H. unfold close_workbook. by rewrite H. Qed.

Lemma run_eta {A} (r : run A) : (r.1, r.2) = r.
Proof. by destruct r. Qed.

Section DocumentFacts.
Variable nfkd : pystr -> pystr.
Variable strftime_date : pystr -> pystr.
Variable strftime_datetime : pystr -> pystr.
Variable w : world.
Variable boardFileName : pystr.

Local Abbreviation download :=
  (download_attachments nfkd strftime_date w boardFileName).

(** The attachments whose removal and write go through are handled one
    by one: the loop goes on with the rest of the list. *)
Lemma download_attachments_prefix idShort before rest status attachments :
  Forall (attachment_ok nfkd w idShort) before ->
  exists t status',
    download idShort (before ++ rest) status attachments =
    (t ++ (download idShort rest status'
             (attachments ++
              omap (listed_attachment nfkd strftime_date w idShort) before)).1,
     (download idShort rest status'
        (attachments ++
         omap (listed_attachment nfkd strftime_date w idShort) before)).2) /\
    written_files t = omap (stored_attachment nfkd w idShort) before /\
    removed_files t =
      map (fun a => pathToAttachments ++ attachment_file nfkd idShort a) before /\
    saved_documents t = [].
Proof.
  intros Hok. revert status attachments.
  induction Hok as [|a before [Hrm Hwr] _ IH]; intros status attachments.
  - exists [], status. cbn [app omap list_omap map]. rewrite app_nil_r.
    by rewrite run_eta.
  - cbn [app download_attachments omap list_omap map]. cbv zeta.
    fold (attachment_file nfkd idShort a).
    rewrite (remove_if_exists_ok _ _ _ Hrm).
    unfold print, emit. rewrite !run_bind_done.
    destruct (attachment_get w (attachment_url a)) as [|code content] eqn:Hget.
    + assert (listed_attachment nfkd strftime_date w idShort a = None) as ->
        by (unfold listed_attachment, downloaded; by rewrite Hget).
      assert (stored_attachment nfkd w idShort a = None) as ->
        by (unfold stored_attachment, downloaded; by rewrite Hget).
      rewrite ?run_bind_done. cbn [fst snd app].
      destruct (IH status attachments) as (t & status' & -> & H2 & H3 & H4).
      cbn [fst snd]. eexists (_ :: _ :: _ :: _ :: _ :: t), status'.
      split; [reflexivity|].
      unfold written_files, removed_files, saved_documents in *.
      cbn [omap list_omap written_file removed_file saved_document].
      by rewrite H2, H3, H4.
    + assert (listed_attachment nfkd strftime_date w idShort a =
              Some (attachment_file nfkd idShort a,
                    strftime_date (attachment_date a))) as ->
        by (unfold listed_attachment, downloaded; by rewrite Hget).
      assert (stored_attachment nfkd w idShort a =
              Some (pathToAttachments ++ attachment_file nfkd idShort a, content))
        as -> by (unfold stored_attachment, downloaded; by rewrite Hget).
      rewrite (write_file_ok _ _ _ Hwr). rewrite ?run_bind_done.
      cbn [fst snd app].
      destruct (IH code
                  (attachments ++
                     [(attachment_file nfkd idShort a,
                       strftime_date (attachment_date a))]))
        as (t & status' & -> & H2 & H3 & H4).
      cbn [fst snd]. eexists (_ :: _ :: _ :: t), status'.
      split; [by rewrite <- !app_assoc|].
      unfold written_files, removed_files, saved_documents in *.
      cbn [omap list_omap written_file removed_file saved_document].
      by rewrite H2, H3, H4.
Qed.

(** When no removal and no write raises, the loop ends normally. *)
Lemma download_attachments_spec idShort atts status attachments :
  Forall (attachment_ok nfkd w idShort) atts ->
  exists t,
    download idShort atts status attachments =
    (t, Done (attachments ++
              omap (listed_attachment nfkd strftime_date w idShort) atts)) /\
    written_files t = omap (stored_attachment nfkd w idShort) atts /\
    removed_files t =
      map (fun a => pathToAttachments ++ attachment_file nfkd idShort a) atts /\
    saved_documents t = [].
Proof.
  intros Hok.
  destruct (download_attachments_prefix idShort atts [] status attachments Hok)
    as (t & status' & Heq & H2 & H3 & H4).
  rewrite app_nil_r in Heq. cbn [download_attachments fst snd mret run_ret] in Heq.
  rewrite app_nil_r in Heq. by exists t.
Qed.

Hypothesis fs_ok : file_system_ok w.

Lemma attachments_ok idShort atts : Forall (attachment_ok nfkd w idShort) atts.
Proof. apply Forall_true. intros a. split; apply fs_ok. Qed.

(** The downloads do not end the run, and save no document. *)
Lemma download_attachments_done idShort atts status attachments :
  exists t attachments',
    download idShort atts status attachments = (t, Done attachments') /\
    saved_documents t = [].
Proof.
  destruct (download_attachments_spec idShort atts status attachments
              (attachments_ok idShort atts)) as (t & Heq & _ & _ & Hs).
  by eexists _, _.
Qed.

Lemma export_card_saved lists total ic d :
  cards_get w (card_id ic.2) = Response 200 d ->
  exists t context,
    export_card nfkd strftime_date strftime_datetime w boardFileName lists total ic
    = (t, Done tt) /\
    saved_documents t =
      [(bucket_dir (card_closed d) ++ outputFileName nfkd d, context)].
Proof.
  intros Hd. unfold export_card. rewrite Hd. cbn [Z.eqb Pos.eqb].
  unfold card_attachments_ctx.
  assert (Hatt : exists t attachments,
             match card_attachments d with
             | Some atts => download (card_idShort d) atts 200 []
             | None => mret []
             end = (t, Done attachments) /\ saved_documents t = []).
  { destruct (card_attachments d) as [atts|].
    - apply download_attachments_done.
    - by exists [], []. }
  destruct Hatt as (t & attachments & -> & Ht).
  unfold print, emit. rewrite !run_bind_done. cbv zeta.
  rewrite (fs_ok (Render _)).
  unfold bucket_dir, outputFileName.
  destruct (decide (str_of_bool (card_closed d) = str "False")) as [Hc|Hc].
  - apply str_of_bool_False in Hc. rewrite Hc.
    rewrite (remove_if_exists_ok _ _ _ (fs_ok _)), (save_document_ok _ _ _ (fs_ok _)).
    rewrite !run_bind_unfold. cbn [print emit fst snd app mret run_ret].
    eexists _, _. split; [reflexivity|].
    unfold saved_documents in *. cbn [omap list_omap saved_document].
    rewrite omap_app, Ht. reflexivity.
  - assert (Hc' : card_closed d = true).
    { destruct (card_closed d); [done|]. by destruct Hc. }
    rewrite Hc'.
    rewrite (remove_if_exists_ok _ _ _ (fs_ok _)), (save_document_ok _ _ _ (fs_ok _)).
    rewrite !run_bind_unfold. cbn [print emit fst snd app mret run_ret].
    eexists _, _. split; [reflexivity|].
    unfold saved_documents in *. cbn [omap list_omap saved_document].
    rewrite omap_app, Ht. reflexivity.
Qed.

Lemma for_each_export_card lists total ics details :
  Forall2 (fun ic d => cards_get w (card_id ic.2) = Response 200 d) ics details ->
  exists t,
    for_each (export_card nfkd strftime_date strftime_datetime w boardFileName
                lists total) ics
    = (t, Done tt) /\
    map fst (saved_documents t) =
      map (fun d => bucket_dir (card_closed d) ++ outputFileName nfkd d) details.
Proof.
  induction 1 as [|ic d ics details Hd _ (t & Ht & Hs)].
  - by exists [].
  - destruct (export_card_saved lists total ic d Hd) as (t1 & context & H1 & Hs1).
    exists (t1 ++ t). cbn [for_each]. rewrite H1, Ht. split; [done|].
    unfold saved_documents in *. rewrite omap_app, Hs1. cbn [app map fst].
    by rewrite Hs.
Qed.
End DocumentFacts.


Lemma Forall2_imap_snd {A B} (P : A -> B -> Prop) (f : nat -> nat) l k :
  Forall2 P l k ->
  Forall2 (fun (ic : nat * A) d => P ic.2 d) (imap (fun i c => (f i, c)) l) k.
Proof.
  intros H; revert f; induction H as [|c d l k Hcd _ IH]; intros f; simpl.
  - constructor.
  - constructor; [done|]. apply (IH (f ∘ S)).
Qed.

Lemma bucket_dirs_disjoint x y : pathToCards ++ x <> pathToArchived ++ y.
Proof. intros H. vm_compute in H. discriminate H. Qed.

(** C4, amended.  In a run that completes (every card of the collection
    is served by the detail fetch, and no file operation or rendering
    raises) every card gets its row on exactly one sheet, sheet 1 if the
    [closed] flag of the collection is [False] and sheet 2 otherwise,
    and its document in exactly one directory, [cards/] if the [closed]
    flag of the detail is [False] and [archived/] otherwise.  When the
    detail fetch gives each card the [closed] flag of the collection, the
    row and the document of a card are in the same bucket, decided by
    that flag; the open and the archived cards partition the
    collection. *)
Theorem cards_partitioned nfkd strftime_date strftime_datetime wsHeaders w
    boardFileName lists cards details :
  file_system_ok w ->
  Forall2 (fun c d => cards_get w (card_id c) = Response 200 d) cards details ->
  let s := write_cards strftime_date strftime_datetime wsHeaders lists cards in
  let r := export_docx nfkd strftime_date strftime_datetime w boardFileName
             lists cards in
  worksheet1 s =
    (0%Z, wsHeaders)
    :: imap (fun i c =>
               ((1 + Z.of_nat i)%Z,
                card_row strftime_date strftime_datetime lists c))
         (filter (fun c => card_closed c = false) cards) /\
  worksheet2 s =
    (0%Z, wsHeaders)
    :: imap (fun i c =>
               ((1 + Z.of_nat i)%Z,
                card_row strftime_date strftime_datetime lists c))
         (filter (fun c => card_closed c = true) cards) /\
  r.2 = Done tt /\
  map fst (saved_documents r.1) =
    map (fun d => bucket_dir (card_closed d) ++ outputFileName nfkd d) details /\
  (Forall2 (fun c d => card_closed d = card_closed c) cards details ->
   map fst (saved_documents r.1) =
     zip_with (fun c d => bucket_dir (card_closed c) ++ outputFileName nfkd d)
       cards details) /\
  (forall x y, bucket_dir false ++ x <> bucket_dir true ++ y) /\
  filter (fun c => card_closed c = false) cards
  ++ filter (fun c => card_closed c = true) cards ≡ₚ cards.
Proof.
  intros Hok H s r.
  destruct (write_cards_sheets strftime_date strftime_datetime wsHeaders lists cards)
    as [H1 H2].
  split; [exact H1|]. split; [exact H2|].
  assert (Hics : Forall2
            (fun (ic : nat * card) d => cards_get w (card_id ic.2) = Response 200 d)
            (imap (fun i c => (i, c)) cards) details).
  { by apply (Forall2_imap_snd
                (fun c d => cards_get w (card_id c) = Response 200 d) (fun i => i)). }
  destruct (for_each_export_card nfkd strftime_date strftime_datetime w
              boardFileName Hok lists (length cards) _ _ Hics) as (t & Ht & Hs).
  subst r. unfold export_docx. rewrite Ht.
  rewrite run_bind_unfold. cbn [print emit fst snd app].
  change (saved_documents (Print (str "Exporting cards...") :: t))
    with (saved_documents t).
  split; [done|]. split; [exact Hs|]. split; [|split].
  - intros Hflags. rewrite Hs. clear -Hflags.
    induction Hflags as [|c d cards details Hcd _ IH]; [done|].
    simpl. by rewrite Hcd, IH.
  - apply bucket_dirs_disjoint.
  - apply filter_closed_partition.
Qed.

Lemma cards_partitioned_witness :
  let s := write_cards id id [] sample_lists [sample_card; sample_archived] in
  let r := export_docx id id id sample_trello (str "Ops.xlsx") sample_lists
             [sample_card; sample_archived] in
  map fst (worksheet1 s) = [0%Z; 1%Z] /\
  map fst (worksheet2 s) = [0%Z; 1%Z] /\
  r.2 = Done tt /\
  map fst (saved_documents r.1) =
    [ str "./exports/cards/Fix-login-signup.docx";
      str "./exports/archived/Old-idea.docx" ].
Proof.
  assert (H : Forall2
            (fun c d => cards_get sample_trello (card_id c) = Response 200 d)
            [sample_card; sample_archived] [sample_card; sample_archived])
    by (repeat constructor).
  assert (Hok : file_system_ok sample_trello) by (intros c; reflexivity).
  destruct (cards_partitioned id id id [] sample_trello (str "Ops.xlsx")
              sample_lists _ _ Hok H)
    as (H1 & H2 & H3 & _ & H4 & _).
  intros s r. subst s r. rewrite H1, H2, H4 by (by repeat constructor).
  repeat split; try done.
Defined.

(** The claim without the proviso on the two [closed] flags fails: a
    card that is open when the collection is fetched and archived when
    its detail is fetched gets its row on sheet 1 and its document in
    [archived/]. *)
Lemma cards_partitioned_flags_counterexample :
  let s := write_cards id id [] sample_lists [sample_card] in
  let r := export_docx id id id sample_trello_race (str "Ops.xlsx") sample_lists
             [sample_card] in
  boards_cards_all sample_trello_race (str "b3") = Response 200 [sample_card] /\
  card_closed sample_card = false /\
  cards_get sample_trello_race (card_id sample_card)
  = Response 200 sample_card_archived /\
  card_closed sample_card_archived = true /\
  map fst (worksheet1 s) = [0%Z; 1%Z] /\
  map fst (worksheet2 s) = [0%Z] /\
  r.2 = Done tt /\
  map fst (saved_documents r.1) =
    [ str "./exports/archived/Fix-login-signup.docx" ].
Proof. cbv zeta. repeat split; by vm_compute. Qed.

(** * Escaping in the context *)

Lemma escape_xml_join_comma names :
  join (str ", ") (map escape_xml names) = escape_xml (join (str ", ") names).
Proof.
  induction names as [|n names IH]; [done|].
  destruct names as [|n' names]; [done|].
  change (join (str ", ") (map escape_xml (n :: n' :: names)))
    with (escape_xml n ++ str ", " ++ join (str ", ") (map escape_xml (n' :: names))).
  change (join (str ", ") (n :: n' :: names))
    with (n ++ str ", " ++ join (str ", ") (n' :: names)).
  by rewrite IH, !escape_xml_app.
Qed.

(** The label string of the document is the escaped label string of the
    spreadsheet. *)
Lemma document_labels_escaped c : document_labels c = escape_xml (sheet_labels c).
Proof.
  unfold document_labels, sheet_labels.
  destruct (card_labels c); [done|]. apply escape_xml_join_comma.
Qed.

Ltac ctx_lookup :=
  unfold card_context; cbv zeta;
  repeat (rewrite lookup_insert_ne by done); apply lookup_insert_eq.

(** The fields that are escaped once. *)
Lemma card_context_escaped_once strftime_date strftime_datetime lists c atts :
  let context := card_context strftime_date strftime_datetime lists c atts in
  context !! "title" = Some (CtxStr (escape_xml (card_name c))) /\
  context !! "list" = Some (CtxStr (escape_xml (lists_get_name (card_idList c) lists))) /\
  context !! "description" = Some (CtxStr (escape_xml (card_desc c))) /\
  context !! "checklists" = Some (CtxChecklists (card_checklists_ctx strftime_date c)) /\
  context !! "actions" = Some (CtxActions (card_actions_ctx strftime_datetime c)) /\
  (forall x, x ∈ card_checklists_ctx strftime_date c ->
     exists cl, x.1.1.1 = escape_xml (checklist_name cl) /\
       ctx_checkItems x ≡ₚ
       map (fun it => (escape_xml (checkItem_name it), checkItem_pos it,
                       checkItem_state it,
                       updateCheckItemStateDate strftime_date c it))
         (checklist_checkItems cl)) /\
  (forall acts, card_actions c = Some acts ->
     card_actions_ctx strftime_datetime c =
     map (fun a => (strftime_datetime (action_date a),
                    escape_xml (action_memberCreator a),
                    escape_xml (action_data_text a)))
       (filter (fun a => action_type a = str "commentCard") acts)).
Proof.
  intros context.
  repeat (split; [subst context; ctx_lookup|]).
  split.
  - intros x (cls & cl & _ & _ & _ & ->)%card_checklists_ctx_elem.
    exists cl. split; [|apply checklist_entry_checkItems].
    unfold checklist_entry. by destruct (match checklist_checkItems cl with
                                         | [] => _ | _ => _ end).
  - intros acts Hacts. unfold card_actions_ctx. rewrite Hacts.
    apply actions_loop_spec.
Qed.

(** C1 fails on the labels.  The label string is escaped twice: each
    label name where it is collected, and the joined string again where
    it enters the context.  With the label [R&D] the context holds
    [R&amp;amp;D]. *)
Theorem card_context_labels_escaped_twice :
  (forall strftime_date strftime_datetime lists c atts,
     card_context strftime_date strftime_datetime lists c atts !! "labels" =
     Some (CtxStr (escape_xml (escape_xml (sheet_labels c))))) /\
  card_context id id sample_lists sample_card [] !! "labels" =
    Some (CtxStr (str "Bug, R&amp;amp;D")) /\
  escape_xml (sheet_labels sample_card) = str "Bug, R&amp;D".
Proof.
  split; [|split].
  - intros. rewrite <- document_labels_escaped. ctx_lookup.
  - etrans; [ctx_lookup|]. reflexivity.
  - reflexivity.
Qed.

(** * Failures of requests *)

(** A failed request for the boards, the lists, the cards or a card ends
    the run. *)
Lemma fetch_failure_fatal nfkd strftime_date strftime_datetime w boardFileName :
  (members_me_boards w = ConnectionError \/
   (exists status x, members_me_boards w = Response status x /\ status <> 200%Z) ->
   (get_boards w).2 = Exit) /\
  (forall boardId boardName,
     (boards_lists w boardId = ConnectionError ->
      (get_lists w boardId boardName).2 = Raise RequestException) /\
     (forall status x,
        boards_lists w boardId = Response status x -> status <> 200%Z ->
        (get_lists w boardId boardName).2 = Exit)) /\
  (forall boardId boardName,
     (boards_cards_all w boardId = ConnectionError ->
      (get_cards w boardId boardName).2 = Raise RequestException) /\
     (forall status x,
        boards_cards_all w boardId = Response status x -> status <> 200%Z ->
        (get_cards w boardId boardName).2 = Exit)) /\
  (forall lists total ic,
     (cards_get w (card_id ic.2) = ConnectionError ->
      (export_card nfkd strftime_date strftime_datetime w boardFileName lists total ic).2
      = Raise RequestException) /\
     (forall status x,
        cards_get w (card_id ic.2) = Response status x -> status <> 200%Z ->
        (export_card nfkd strftime_date strftime_datetime w boardFileName lists total ic).2
        = Exit)).
Proof.
  split; [|split; [|split]].
  - unfold get_boards. intros [->|(status & x & -> & Hs)]; [done|].
    apply Z.eqb_neq in Hs. by rewrite Hs.
  - intros boardId boardName. unfold get_lists. split; [by intros ->|].
    intros status x -> Hs. apply Z.eqb_neq in Hs. by rewrite Hs.
  - intros boardId boardName. unfold get_cards. split; [by intros ->|].
    intros status x -> Hs. apply Z.eqb_neq in Hs. by rewrite Hs.
  - intros lists total ic. unfold export_card. split; [by intros ->|].
    intros status x -> Hs. apply Z.eqb_neq in Hs. by rewrite Hs.
Qed.

(** A failed run of the loop stops it: the cards behind the failing one
    are not exported. *)
Lemma for_each_stops {A} (body : A -> run unit) l1 x l2 :
  Forall (fun y => (body y).2 = Done tt) l1 ->
  (body x).2 <> Done tt ->
  (for_each body (l1 ++ x :: l2)).1 = (for_each body l1).1 ++ (body x).1 /\
  (for_each body (l1 ++ x :: l2)).2 = (body x).2.
Proof.
  induction 1 as [|y l1 Hy _ IH]; intros Hx.
  - cbn [app for_each]. rewrite run_bind_unfold.
    destruct (body x) as [t [[]| |e]]; cbn [fst snd] in *; by rewrite ?app_nil_r.
  - cbn [app for_each]. rewrite !run_bind_unfold, Hy.
    destruct (IH Hx) as [-> ->]. cbn [fst snd].
    destruct (for_each body l1) as [t1 [[]| |e]]; cbn [fst snd];
      by rewrite ?app_assoc.
Qed.

(** An exception of the download of an attachment is reported, nothing
    is written for the attachment, it does not enter the context, and
    the loop goes on with the next attachment. *)
Lemma download_attachments_exception nfkd strftime_date w boardFileName idShort
    a atts status attachments :
  raises w (Remove (pathToAttachments ++ attachment_file nfkd idShort a)) = false ->
  attachment_get w (attachment_url a) = ConnectionError ->
  let name :=
    sanitize_filename nfkd (str_of_int idShort ++ str "-" ++ attachment_name a) in
  let rest :=
    download_attachments nfkd strftime_date w boardFileName idShort atts status
      attachments in
  download_attachments nfkd strftime_date w boardFileName idShort (a :: atts)
    status attachments
  = ([ RemoveIfExists (pathToAttachments ++ name);
       Print (str "  Downloading '" ++ name ++ str "'");
       Print (str "  Oops, an error occurred.");
       Print (str "  Cannot download '" ++ name ++ str "'");
       Print (str "  Response code : " ++ str_of_int status) ] ++ rest.1,
     rest.2).
Proof.
  intros Hrm Hget name rest. cbn [download_attachments]. cbv zeta.
  rewrite (remove_if_exists_ok _ _ _ Hrm), Hget.
  fold name. fold rest. unfold print, emit. rewrite !run_bind_done.
  reflexivity.
Qed.

(** Whatever the status code of the response, its body is written to the
    file of the attachment and the attachment enters the context. *)
Lemma download_attachments_response nfkd strftime_date w boardFileName idShort a
    status_code content status :
  attachment_ok nfkd w idShort a ->
  attachment_get w (attachment_url a) = Response status_code content ->
  let name :=
    sanitize_filename nfkd (str_of_int idShort ++ str "-" ++ attachment_name a) in
  download_attachments nfkd strftime_date w boardFileName idShort [a] status []
  = ([ RemoveIfExists (pathToAttachments ++ name);
       Print (str "  Downloading '" ++ name ++ str "'");
       WriteFile (pathToAttachments ++ name) content ],
     Done [(name, strftime_date (attachment_date a))]).
Proof.
  intros [Hrm Hwr] Hget name. cbn [download_attachments]. cbv zeta.
  fold (attachment_file nfkd idShort a) in *.
  rewrite (remove_if_exists_ok _ _ _ Hrm), Hget, (write_file_ok _ _ _ Hwr).
  reflexivity.
Qed.

(** C5 fails on a response that is not 200.  The attachment server
    answers 404 with an error page: the page is written to the file of
    the attachment and the attachment is listed in the context, as for a
    successful download. *)
Theorem download_attachments_non_200_written :
  written_files
    (card_attachments_ctx id id sample_trello_404 (str "Ops.xlsx") sample_card
       200).1
  = [ (str "./exports/attachments/7-spec-v1.pdf", str "Not Found");
      (str "./exports/attachments/7-notes.txt", str "Not Found") ] /\
  (card_attachments_ctx id id sample_trello_404 (str "Ops.xlsx") sample_card
     200).2
  = Done [ (str "7-spec-v1.pdf", str "2024-03-01");
           (str "7-notes.txt", str "2024-03-02") ].
Proof. split; vm_compute; reflexivity. Qed.

(** With an exception instead, the attachment is skipped and the next
    one is downloaded. *)
Lemma download_attachments_skip_example :
  written_files
    (card_attachments_ctx id id sample_trello (str "Ops.xlsx") sample_card 200).1
  = [ (str "./exports/attachments/7-spec-v1.pdf", [37; 80; 68; 70]) ] /\
  (card_attachments_ctx id id sample_trello (str "Ops.xlsx") sample_card 200).2
  = Done [ (str "7-spec-v1.pdf", str "2024-03-01") ].
Proof. split; vm_compute; reflexivity. Qed.

(** * Further properties of [escape_xml] *)

Lemma count_char_cons c x s :
  count_char c (x :: s) = (count_char c [x] + count_char c s)%nat.
Proof.
  unfold count_char. rewrite !(filter_cons (fun y => y = c)).
  destruct (decide (x = c)); reflexivity.
Qed.

Lemma count_char_other c x : x <> c -> count_char c [x] = 0%nat.
Proof.
  intros H. unfold count_char.
  by rewrite (filter_cons (fun y => y = c)), decide_False.
Qed.

Lemma escape_char_length c :
  length (escape_char c) =
  (1 + 4 * count_char (chr "&") [c] + 3 * count_char (chr "<") [c]
   + 3 * count_char (chr ">") [c])%nat.
Proof.
  unfold escape_char.
  destruct (N.eqb_spec c (chr "&")) as [->|Hamp]; [reflexivity|].
  destruct (N.eqb_spec c (chr "<")) as [->|Hlt]; [reflexivity|].
  destruct (N.eqb_spec c (chr ">")) as [->|Hgt]; [reflexivity|].
  by rewrite !count_char_other.
Qed.

Lemma escape_char_no_angle c :
  Forall (fun x => x <> chr "<" /\ x <> chr ">") (escape_char c).
Proof.
  unfold escape_char.
  destruct (N.eqb_spec c (chr "&")) as [->|Hamp];
    [repeat constructor; discriminate|].
  destruct (N.eqb_spec c (chr "<")) as [->|Hlt];
    [repeat constructor; discriminate|].
  destruct (N.eqb_spec c (chr ">")) as [->|Hgt];
    [repeat constructor; discriminate|].
  by repeat constructor.
Qed.

Lemma escape_xml_no_angle s :
  Forall (fun c => c <> chr "<" /\ c <> chr ">") (escape_xml s).
Proof.
  induction s as [|c s IH]; [constructor|].
  rewrite escape_xml_cons. apply Forall_app.
  split; [apply escape_char_no_angle|exact IH].
Qed.

Lemma escape_xml_length s :
  length (escape_xml s) =
  (length s + 4 * count_char (chr "&") s + 3 * count_char (chr "<") s
   + 3 * count_char (chr ">") s)%nat.
Proof.
  induction s as [|c s IH]; [done|].
  rewrite escape_xml_cons, length_app, escape_char_length, IH.
  rewrite (count_char_cons (chr "&") c s), (count_char_cons (chr "<") c s),
    (count_char_cons (chr ">") c s).
  cbn [length]. lia.
Qed.

(** X1.  The escaped text contains neither [<] nor [>], whatever the
    input, and it is longer than the input by 4 characters for every
    [&] and by 3 for every [<] and every [>]. *)
Theorem escape_xml_markup_free s :
  Forall (fun c => c <> chr "<" /\ c <> chr ">") (escape_xml s) /\
  length (escape_xml s) =
  (length s + 4 * count_char (chr "&") s + 3 * count_char (chr "<") s
   + 3 * count_char (chr ">") s)%nat.
Proof. split; [apply escape_xml_no_angle|apply escape_xml_length]. Qed.

Lemma escape_xml_plain s :
  Forall (fun c => ~ xml_special c) s -> escape_xml s = s.
Proof.
  induction 1 as [|c s Hc _ IH]; [done|].
  rewrite escape_xml_cons, IH. unfold escape_char, xml_special in *.
  destruct (N.eqb_spec c (chr "&")) as [->|Hamp]; [tauto|].
  destruct (N.eqb_spec c (chr "<")) as [->|Hlt]; [tauto|].
  destruct (N.eqb_spec c (chr ">")) as [->|Hgt]; [tauto|done].
Qed.

Lemma escape_char_ampersands c :
  xml_special c -> (0 < count_char (chr "&") (escape_char c))%nat.
Proof.
  unfold xml_special, escape_char. intros [H|[H|H]]; subst c; vm_compute; lia.
Qed.

Lemma count_char_app c s t :
  count_char c (s ++ t) = (count_char c s + count_char c t)%nat.
Proof.
  unfold count_char. by rewrite (filter_app (fun x => x = c)), length_app.
Qed.

Lemma escape_xml_ampersands s :
  Exists xml_special s -> (0 < count_char (chr "&") (escape_xml s))%nat.
Proof.
  induction 1 as [c s Hc|c s _ IH]; rewrite escape_xml_cons, count_char_app.
  - pose proof (escape_char_ampersands c Hc). lia.
  - lia.
Qed.

Lemma xml_special_dec c : {xml_special c} + {~ xml_special c}.
Proof.
  unfold xml_special.
  destruct (decide (c = chr "&")); [by left; left|].
  destruct (decide (c = chr "<")); [by left; right; left|].
  destruct (decide (c = chr ">")); [by left; right; right|].
  right. tauto.
Qed.

Lemma plain_or_special s :
  Forall (fun c => ~ xml_special c) s \/ Exists xml_special s.
Proof.
  induction s as [|c s [IH|IH]]; [by left| |by right; constructor].
  destruct (xml_special_dec c); [right|left]; by constructor.
Qed.

(** X2.  Escaping twice gives the same text as escaping once exactly for
    the strings that contain none of [&], [<] and [>]: on every other
    string the second pass escapes the ampersands of the first. *)
Theorem escape_xml_twice s :
  escape_xml (escape_xml s) = escape_xml s <->
  Forall (fun c => ~ xml_special c) s.
Proof.
  split.
  - intros Heq. destruct (plain_or_special s) as [|Hsp]; [done|]. exfalso.
    pose proof (escape_xml_ampersands s Hsp) as Hamp.
    pose proof (escape_xml_length (escape_xml s)) as Hlen.
    rewrite Heq in Hlen. lia.
  - intros H. by rewrite !(escape_xml_plain s H).
Qed.

Lemma escape_xml_twice_witness :
  escape_xml (escape_xml (str "Q3 plan")) = escape_xml (str "Q3 plan") /\
  escape_xml (escape_xml (str "R&D")) <> escape_xml (str "R&D").
Proof.
  split.
  - apply (proj2 (escape_xml_twice (str "Q3 plan"))).
    repeat constructor; intros [H|[H|H]]; discriminate H.
  - intros H. apply (proj1 (escape_xml_twice (str "R&D"))) in H.
    apply Forall_cons in H as [_ H]. apply Forall_cons in H as [H _].
    apply H. by left.
Defined.


(** * Further properties of [lists_get_name] *)

Lemma lists_get_name_none listId haystack :
  Forall (fun row : list_row => row.1.1 <> listId) haystack ->
  lists_get_name listId haystack = [].
Proof.
  induction 1 as [|row haystack Hrow _ IH]; [done|].
  cbn [lists_get_name]. by rewrite decide_False.
Qed.

Lemma lists_get_name_found listId pre row post :
  Forall (fun row : list_row => row.1.1 <> listId) pre ->
  row.1.1 = listId ->
  lists_get_name listId (pre ++ row :: post) = row.1.2.
Proof.
  intros Hpre Hrow. induction Hpre as [|r pre Hr _ IH]; cbn [app lists_get_name].
  - by rewrite decide_True.
  - by rewrite decide_False.
Qed.

(** X3.  [lists_get_name] returns the name of the first row of the
    haystack whose id is the one asked for, and the empty string when no
    row has that id. *)
Theorem lists_get_name_first_match listId haystack :
  (forall pre row post,
     haystack = pre ++ row :: post ->
     Forall (fun row : list_row => row.1.1 <> listId) pre ->
     row.1.1 = listId ->
     lists_get_name listId haystack = row.1.2) /\
  (Forall (fun row : list_row => row.1.1 <> listId) haystack ->
   lists_get_name listId haystack = []).
Proof.
  split; [|apply lists_get_name_none].
  intros pre row post -> Hpre Hrow. by apply lists_get_name_found.
Qed.

Lemma lists_get_name_first_match_witness :
  lists_get_name (str "l2") sample_lists = str "Done & dusted" /\
  lists_get_name (str "l9") sample_lists = [].
Proof.
  destruct (lists_get_name_first_match (str "l2") sample_lists) as [Hfound _].
  destruct (lists_get_name_first_match (str "l9") sample_lists) as [_ Hnone].
  split.
  - apply (Hfound [(str "l1", str "To do", 1%Q)] (str "l2", str "Done & dusted", 2%Q) []);
      [reflexivity| |reflexivity].
    repeat constructor. discriminate.
  - apply Hnone. repeat constructor; discriminate.
Defined.

Lemma lists_get_name_Permutation listId (l l' : list list_row) :
  NoDup (map (fun row : list_row => row.1.1) l) ->
  l ≡ₚ l' ->
  lists_get_name listId l = lists_get_name listId l'.
Proof.
  intros Hnd Hperm. induction Hperm as [|x l l' Hperm IH|x y l|l l' l'' H1 IH1 H2 IH2].
  - done.
  - cbn [lists_get_name]. destruct (decide (x.1.1 = listId)); [done|].
    apply IH. by apply NoDup_cons in Hnd as [_ ?].
  - cbn [lists_get_name].
    destruct (decide (y.1.1 = listId)) as [Hy|]; [|done].
    destruct (decide (x.1.1 = listId)) as [Hx|]; [|done].
    exfalso. cbn [map] in Hnd. apply NoDup_cons in Hnd as [Hnin _].
    apply Hnin. rewrite Hy, <- Hx. by left.
  - rewrite IH1 by done. apply IH2.
    assert (map (fun row : list_row => row.1.1) l ≡ₚ
            map (fun row : list_row => row.1.1) l') as Hmap
      by (by apply Permutation_map).
    rewrite <- Hmap. exact Hnd.
Qed.

(** X4.  When the ids of the lists are distinct, the name found for an
    id does not depend on the order of the lists: sorting them by
    position, as the script does after the fetch, changes no lookup. *)
Theorem lists_get_name_sorted listId (json_data : list list_row) :
  NoDup (map (fun row : list_row => row.1.1) json_data) ->
  lists_get_name listId (sorted num_ltb (fun x : list_row => x.2) json_data)
  = lists_get_name listId json_data.
Proof.
  intros Hnd. symmetry. apply lists_get_name_Permutation; [done|].
  symmetry. apply sorted_Permutation.
Qed.

Lemma lists_get_name_sorted_witness :
  lists_get_name (str "l1")
    (sorted num_ltb (fun x : list_row => x.2)
       [(str "l2", str "Done & dusted", 2%Q); (str "l1", str "To do", 1%Q)])
  = str "To do".
Proof.
  rewrite lists_get_name_sorted; [reflexivity|].
  cbn [map fst snd]. repeat constructor.
  - intros H. apply list_elem_of_singleton in H. discriminate H.
  - intros H. by apply elem_of_nil in H.
Defined.


(** * Further properties of [sanitize_filename] *)

Lemma letters_digits_cons c s :
  letters_digits (c :: s) =
  if alnum c then c :: letters_digits s else letters_digits s.
Proof.
  unfold letters_digits. rewrite (filter_cons (fun c => alnum c = true)).
  destruct (alnum c); by destruct (decide _).
Qed.

Lemma letters_digits_app s t :
  letters_digits (s ++ t) = letters_digits s ++ letters_digits t.
Proof. unfold letters_digits. apply (filter_app (fun c => alnum c = true)). Qed.

Lemma letters_digits_none s :
  Forall (fun c => alnum c = false) s <-> letters_digits s = [].
Proof.
  induction s as [|c s IH]; [done|].
  rewrite letters_digits_cons, Forall_cons, IH.
  destruct (alnum c); [split; [by intros [? _]|done]|].
  split; [by intros [_ ?]|done].
Qed.

Lemma letters_digits_re_delete cls s :
  (forall c, alnum c = true -> cls c = false) ->
  letters_digits (re_delete cls s) = letters_digits s.
Proof.
  intros Hcls. induction s as [|c s IH]; [done|].
  cbn [re_delete]. destruct (cls c) eqn:Hc.
  - rewrite letters_digits_cons, IH.
    destruct (alnum c) eqn:Ha; [|done]. apply Hcls in Ha. congruence.
  - by rewrite !letters_digits_cons, IH.
Qed.

Lemma letters_digits_re_sub_runs_from cls r b s :
  alnum r = false ->
  (forall c, alnum c = true -> cls c = false) ->
  letters_digits (re_sub_runs_from cls [r] b s) = letters_digits s.
Proof.
  intros Hr Hcls. revert b. induction s as [|c s IH]; intros b; [done|].
  cbn [re_sub_runs_from]. destruct (cls c) eqn:Hc.
  - rewrite letters_digits_app, IH, (letters_digits_cons c).
    assert (alnum c = false) as ->.
    { destruct (alnum c) eqn:Ha; [|done]. apply Hcls in Ha. congruence. }
    destruct b; [done|]. by rewrite letters_digits_cons, Hr.
  - by rewrite !letters_digits_cons, IH.
Qed.

Lemma strip_split_stripped chars s :
  exists t u, s = t ++ strip chars s ++ u /\
    Forall (fun c => chars c = true) t /\ Forall (fun c => chars c = true) u.
Proof.
  destruct (lstrip_split chars s) as (t & Ht & Hall).
  destruct (rstrip_split chars (lstrip chars s)) as (u & Hu & Hall').
  exists t, u. split; [|done]. unfold strip. by rewrite <- Hu.
Qed.

Lemma letters_digits_strip s :
  letters_digits (strip strip_chars s) = letters_digits s.
Proof.
  destruct (strip_split_stripped strip_chars s) as (t & u & Hs & Ht & Hu).
  rewrite Hs at 2. rewrite !letters_digits_app.
  assert (forall v, Forall (fun c => strip_chars c = true) v ->
                    letters_digits v = []) as Hnone.
  { intros v Hv. apply letters_digits_none.
    eapply Forall_impl; [exact Hv|]. apply strip_chars_not_alnum. }
  by rewrite (Hnone t Ht), (Hnone u Hu), app_nil_r.
Qed.

Lemma sanitize_filename_letters_digits nfkd s :
  letters_digits (sanitize_filename nfkd s) =
  letters_digits (encode_ascii_ignore (nfkd s)).
Proof.
  unfold sanitize_filename. cbv zeta. rewrite letters_digits_strip.
  unfold re_sub_runs.
  rewrite (letters_digits_re_sub_runs_from cls_dot (chr "."));
    [|done|intros c Hc; cls_facts].
  rewrite (letters_digits_re_sub_runs_from cls_separator (chr "-"));
    [|done|intros c Hc; cls_facts].
  apply letters_digits_re_delete. intros c Hc. cls_facts.
Qed.

Lemma re_delete_length cls s : (length (re_delete cls s) <= length s)%nat.
Proof.
  induction s as [|c s IH]; [done|].
  cbn [re_delete]. destruct (cls c); cbn [length]; lia.
Qed.

Lemma re_sub_runs_from_length cls r b s :
  (length (re_sub_runs_from cls [r] b s) <= length s)%nat.
Proof.
  revert b. induction s as [|c s IH]; intros b; [done|].
  cbn [re_sub_runs_from]. destruct (cls c).
  - rewrite length_app. specialize (IH true). destruct b; cbn [length]; lia.
  - specialize (IH false). cbn [length]. lia.
Qed.

Lemma strip_length chars s : (length (strip chars s) <= length s)%nat.
Proof.
  destruct (strip_split chars s) as (t & u & Hs).
  rewrite Hs at 2. rewrite !length_app. lia.
Qed.

Lemma sanitize_filename_length nfkd s :
  (length (sanitize_filename nfkd s) <= length (encode_ascii_ignore (nfkd s)))%nat.
Proof.
  unfold sanitize_filename. cbv zeta. unfold re_sub_runs.
  etrans; [apply strip_length|].
  etrans; [apply re_sub_runs_from_length|].
  etrans; [apply re_sub_runs_from_length|].
  apply re_delete_length.
Qed.

(** X5.  Sanitizing loses no letter and no digit: the ASCII letters and
    digits of the normalised name are all kept, in their order, and no
    other letter or digit appears.  The sanitized name is never longer
    than the ASCII part of the normalised name. *)
Theorem sanitize_filename_keeps_letters_digits nfkd filename :
  letters_digits (sanitize_filename nfkd filename) =
  letters_digits (encode_ascii_ignore (nfkd filename)) /\
  (length (sanitize_filename nfkd filename)
   <= length (encode_ascii_ignore (nfkd filename)))%nat.
Proof.
  split; [apply sanitize_filename_letters_digits|apply sanitize_filename_length].
Qed.

Lemma sanitize_filename_nil_iff nfkd filename :
  sanitize_filename nfkd filename = [] <->
  Forall (fun c => alnum c = false) (encode_ascii_ignore (nfkd filename)).
Proof.
  rewrite letters_digits_none, <- sanitize_filename_letters_digits. split.
  - by intros ->.
  - intros Hnone.
    destruct (sanitize_filename_sanitized nfkd filename)
      as (Hclean & _ & _ & Hhead & _).
    destruct (sanitize_filename nfkd filename) as [|c s']; [done|].
    exfalso. apply Forall_cons in Hclean as [Hc _].
    specialize (Hhead c eq_refl).
    rewrite letters_digits_cons in Hnone.
    destruct (clean_cases c Hc) as [Ha|Hs]; [|congruence].
    by rewrite Ha in Hnone.
Qed.

(** X6.  The sanitized name is empty exactly when the ASCII part of the
    normalised name holds no letter and no digit; a card with such a name
    gets the document name [.docx]. *)
Theorem sanitize_filename_empty nfkd filename :
  (sanitize_filename nfkd filename = [] <->
   Forall (fun c => alnum c = false) (encode_ascii_ignore (nfkd filename))) /\
  (forall c,
     Forall (fun x => alnum x = false) (encode_ascii_ignore (nfkd (card_name c))) ->
     outputFileName nfkd c = str ".docx").
Proof.
  split; [apply sanitize_filename_nil_iff|].
  intros c Hc. unfold outputFileName.
  by rewrite (proj2 (sanitize_filename_nil_iff nfkd (card_name c)) Hc).
Qed.

Lemma sanitize_filename_empty_witness :
  sanitize_filename (fun s => s) [26085; 26412; 35486; chr "!"; chr "_"] = [] /\
  sanitize_filename (fun s => s) (str "!a_") <> [].
Proof.
  split.
  - apply (proj1 (sanitize_filename_empty (fun s => s) _)).
    vm_compute. repeat constructor.
  - intros H.
    apply (proj1 (sanitize_filename_empty (fun s => s) (str "!a_"))) in H.
    vm_compute in H. apply Forall_cons in H as [_ H].
    apply Forall_cons in H as [H _]. discriminate H.
Defined.

Lemma Forall_take_clean (P : N -> Prop) n (s : pystr) :
  Forall P s -> Forall P (take n s).
Proof. apply Forall_take. Qed.

Lemma sanitize_filename_clean_chars nfkd s :
  Forall (fun c => cls_clean c = true) (sanitize_filename nfkd s).
Proof. by destruct (sanitize_filename_sanitized nfkd s) as (H & _). Qed.

(** X7.  The file names the script builds are made of ASCII letters,
    digits, hyphens and dots only, so that none of them holds a path
    separator: the name of the document of a card, which is at most 255
    characters long, the name of the spreadsheet and the name under which
    an attachment is stored. *)
Theorem file_names_clean nfkd :
  (forall c,
     Forall (fun x => cls_clean x = true) (outputFileName nfkd c) /\
     (length (outputFileName nfkd c) <= 255)%nat) /\
  (forall strftime_date strftime_datetime wsHeaders w boardName lists cards e,
     e ∈ (export_xlsx nfkd strftime_date strftime_datetime wsHeaders w
            boardName lists cards).1 ->
     file_effect e = true ->
     exists name s1 s2,
       (e = RemoveIfExists (path ++ name) \/ e = CloseWorkbook (path ++ name) s1 s2) /\
       Forall (fun x => cls_clean x = true) name /\ (length name <= 255)%nat) /\
  (forall strftime_date w boardFileName idShort atts status attachments p content,
     WriteFile p content ∈
       (download_attachments nfkd strftime_date w boardFileName idShort atts status
          attachments).1 ->
     exists name,
       p = pathToAttachments ++ name /\ Forall (fun x => cls_clean x = true) name).
Proof.
  assert (forall s ext,
            Forall (fun x => cls_clean x = true) ext -> length ext = 5%nat ->
            Forall (fun x => cls_clean x = true)
              (take 250 (sanitize_filename nfkd s) ++ ext) /\
            (length (take 250 (sanitize_filename nfkd s) ++ ext) <= 255)%nat)
    as Hname.
  { intros s ext Hext Hlen. split.
    - apply Forall_app. split; [|done].
      apply Forall_take, sanitize_filename_clean_chars.
    - rewrite length_app, length_take, Hlen. lia. }
  split; [|split].
  - intros c. apply Hname; [|done]. vm_compute. repeat constructor.
  - intros sd sdt hs w boardName lists cards e He Heff.
    destruct (Hname boardName (str ".xlsx")) as [Hc Hl];
      [vm_compute; repeat constructor|done|].
    unfold export_xlsx in He. cbv zeta in He.
    eexists _, _, _. split; [|split; [exact Hc|exact Hl]].
    destruct (raises w (Remove (path ++ take 250 (sanitize_filename nfkd boardName)
                                ++ str ".xlsx"))) eqn:Hrm.
    + rewrite (remove_if_exists_raises _ _ _ Hrm), run_bind_unfold in He.
      cbn [fst snd] in He.
      apply elem_of_cons in He as [->|He]; [by left|].
      apply elem_of_cons in He as [->|He]; [discriminate Heff|].
      apply elem_of_cons in He as [->|He]; [discriminate Heff|].
      by apply elem_of_nil in He.
    + rewrite (remove_if_exists_ok _ _ _ Hrm), run_bind_done in He.
      cbn [fst snd app] in He.
      apply elem_of_cons in He as [->|He]; [by left|].
      unfold close_workbook in He. destruct (raises w (Close _)); cbn in He.
      * by apply elem_of_nil in He.
      * apply list_elem_of_singleton in He as ->. by right.
  - intros sd w boardFileName idShort atts. induction atts as [|a atts IH];
      intros status attachments p content Hin.
    + cbn in Hin. by apply elem_of_nil in Hin.
    + cbn [download_attachments] in Hin. cbv zeta in Hin.
      fold (attachment_file nfkd idShort a) in Hin.
      destruct (raises w (Remove (pathToAttachments
                                  ++ attachment_file nfkd idShort a))) eqn:Hrm.
      * rewrite (remove_if_exists_raises _ _ _ Hrm), run_bind_unfold in Hin.
        cbn [fst snd] in Hin.
        apply elem_of_cons in Hin as [Hin|Hin]; [done|].
        apply elem_of_cons in Hin as [Hin|Hin]; [done|].
        apply elem_of_cons in Hin as [Hin|Hin]; [done|].
        by apply elem_of_nil in Hin.
      * rewrite (remove_if_exists_ok _ _ _ Hrm) in Hin.
        unfold print, emit in Hin. rewrite !run_bind_done in Hin.
        cbn [fst snd app] in Hin.
        apply elem_of_cons in Hin as [Hin|Hin]; [done|].
        apply elem_of_cons in Hin as [Hin|Hin]; [done|].
        destruct (attachment_get w (attachment_url a)) as [|code body].
        -- rewrite ?run_bind_done in Hin. cbn [fst snd app] in Hin.
           apply elem_of_cons in Hin as [Hin|Hin]; [done|].
           apply elem_of_cons in Hin as [Hin|Hin]; [done|].
           apply elem_of_cons in Hin as [Hin|Hin]; [done|].
           by eapply IH.
        -- destruct (raises w (OpenWb (pathToAttachments
                                       ++ attachment_file nfkd idShort a))) eqn:Hwr.
           ++ rewrite (write_file_raises _ _ _ Hwr), run_bind_unfold in Hin.
              cbn [fst snd] in Hin. by apply elem_of_nil in Hin.
           ++ rewrite (write_file_ok _ _ _ Hwr), run_bind_done in Hin.
              cbn [fst snd app] in Hin.
              apply elem_of_cons in Hin as [Hin|Hin].
              ** injection Hin as -> _. eexists. split; [done|].
                 apply sanitize_filename_clean_chars.
              ** by eapply IH.
Qed.

Lemma file_names_clean_witness :
  exists name,
    str "./exports/attachments/7-spec-v1.pdf" = pathToAttachments ++ name /\
    Forall (fun x => cls_clean x = true) name.
Proof.
  apply (proj2 (proj2 (file_names_clean id)) id sample_trello (str "Ops.xlsx") 7%Z
           [ {| attachment_name := str "spec v1.pdf";
                attachment_url := str "https://trello.com/a/1";
                attachment_date := str "2024-03-01" |} ] 200%Z [] _ [37; 80; 68; 70]).
  vm_compute. apply elem_of_cons. right. apply elem_of_cons. right.
  apply elem_of_cons. by left.
Defined.

(** * Text without letters and digits at the ends of a name *)

Lemma re_delete_Forall (P : N -> Prop) cls s :
  Forall P s -> Forall P (re_delete cls s).
Proof.
  induction 1 as [|c s Hc _ IH]; [constructor|].
  cbn [re_delete]. destruct (cls c); [done|by constructor].
Qed.

Lemma split_first (P : N -> bool) l :
  Forall (fun c => P c = true) l \/
  exists l0 c l1, l = l0 ++ c :: l1 /\ Forall (fun c => P c = true) l0 /\ P c = false.
Proof.
  induction l as [|c l IH]; [by left|].
  destruct (P c) eqn:Hc.
  - destruct IH as [Hall|(l0 & c' & l1 & -> & H0 & Hc')].
    + left. by constructor.
    + right. exists (c :: l0), c', l1. split; [done|]. split; [by constructor|done].
  - right. exists [], c, l. split; [done|]. split; [constructor|done].
Qed.

Lemma split_last (P : N -> bool) l :
  Forall (fun c => P c = true) l \/
  exists l0 c l1, l = l0 ++ c :: l1 /\ P c = false /\ Forall (fun c => P c = true) l1.
Proof.
  induction l as [|c l IH]; [by left|].
  destruct IH as [Hall|(l0 & c' & l1 & -> & Hc' & H1)].
  - destruct (P c) eqn:Hc.
    + left. by constructor.
    + right. by exists [], c, l.
  - right. by exists (c :: l0), c', l1.
Qed.

Lemma blank_strip b1 b2 y :
  Forall (fun c => blank c = true) y ->
  Forall (fun c => strip_chars c = true)
    (re_sub_runs_from cls_dot [chr "."] b2
       (re_sub_runs_from cls_separator [chr "-"] b1 y)).
Proof.
  intros Hy. apply re_sub_runs_from_Forall; [reflexivity|].
  eapply Forall_impl.
  - apply (re_sub_runs_from_Forall cls_separator (chr "-")
             (fun c => c = chr "-" \/ c = chr ".") b1 y); [by left|].
    eapply Forall_impl; [exact Hy|]. intros c Hc Hsep. right.
    unfold blank in Hc. rewrite Hsep in Hc. by apply N.eqb_eq in Hc.
  - intros c [->| ->] _; reflexivity.
Qed.

Lemma nonblank c :
  blank c = false ->
  cls_separator c = false /\ cls_dot c = false /\ strip_chars c = false.
Proof. unfold blank. intros Hc. cls_facts. Qed.

Lemma rstrip_snoc_all chars (A : pystr) c W :
  Forall (fun x => chars x = true) W ->
  rstrip chars (A ++ c :: W) = rstrip chars (A ++ [c]).
Proof.
  intros HW. replace (A ++ c :: W) with ((A ++ [c]) ++ W)
    by (by rewrite <- app_assoc).
  by apply rstrip_app_all.
Qed.

(** The two substitutions of [sanitize_filename], one after the other. *)
Lemma subst_prefix y s :
  Forall (fun c => blank c = true) y ->
  lstrip strip_chars
    (re_sub_runs cls_dot [chr "."] (re_sub_runs cls_separator [chr "-"] (y ++ s)))
  = lstrip strip_chars
      (re_sub_runs cls_dot [chr "."] (re_sub_runs cls_separator [chr "-"] s)).
Proof.
  intros Hy. unfold re_sub_runs.
  destruct (split_first blank s) as [Hs|(p0 & c & p1 & -> & Hp0 & Hc)].
  - rewrite !lstrip_all; [done|by apply blank_strip|].
    apply blank_strip, Forall_app. by split.
  - destruct (nonblank c Hc) as (Hsep & Hdot & Hstrip).
    rewrite app_assoc.
    rewrite !(re_sub_runs_from_around cls_separator) by done.
    rewrite !(re_sub_runs_from_around cls_dot) by done.
    rewrite !lstrip_app_all; [done|by apply blank_strip|].
    apply blank_strip, Forall_app. by split.
Qed.

Lemma subst_suffix s y :
  Forall (fun c => blank c = true) y ->
  rstrip strip_chars
    (re_sub_runs cls_dot [chr "."] (re_sub_runs cls_separator [chr "-"] (s ++ y)))
  = rstrip strip_chars
      (re_sub_runs cls_dot [chr "."] (re_sub_runs cls_separator [chr "-"] s)).
Proof.
  intros Hy. unfold re_sub_runs.
  destruct (split_last blank s) as [Hs|(q0 & c & q1 & -> & Hc & Hq1)].
  - rewrite !rstrip_all; [done|by apply blank_strip|].
    apply blank_strip, Forall_app. by split.
  - destruct (nonblank c Hc) as (Hsep & Hdot & Hstrip).
    rewrite <- app_assoc. cbn [app].
    rewrite !(re_sub_runs_from_around cls_separator) by done.
    rewrite !(re_sub_runs_from_around cls_dot) by done.
    set (A := re_sub_runs_from cls_dot [chr "."] false
                (re_sub_runs_from cls_separator [chr "-"] false q0)).
    transitivity (rstrip strip_chars (A ++ [c])); [|symmetry];
      apply rstrip_snoc_all, blank_strip; [|done].
    apply Forall_app. by split.
Qed.

Section Boundary.
Variable nfkd : pystr -> pystr.
Hypothesis nfkd_app :
  forall s t,
    encode_ascii_ignore (nfkd (s ++ t)) =
    encode_ascii_ignore (nfkd s) ++ encode_ascii_ignore (nfkd t).

Lemma clean_blank x :
  sanitize_filename nfkd x = [] ->
  Forall (fun c => blank c = true) (clean_text nfkd x).
Proof.
  intros Hx. apply sanitize_filename_nil_iff in Hx.
  unfold clean_text.
  pose proof (re_delete_spec cls_not_allowed (encode_ascii_ignore (nfkd x))) as H1.
  pose proof (re_delete_Forall _ cls_not_allowed _ Hx) as H2.
  rewrite Forall_forall in H1, H2. apply Forall_forall. intros c Hc.
  specialize (H1 c Hc). specialize (H2 c Hc). cbv beta in H1, H2.
  unfold blank. cls_facts.
Qed.

(** Text without a letter or a digit in front of a name, or behind it,
    leaves no trace in the sanitized name. *)
Lemma sanitize_filename_skip_prefix x s :
  sanitize_filename nfkd x = [] ->
  sanitize_filename nfkd (x ++ s) = sanitize_filename nfkd s.
Proof.
  intros Hx. rewrite !sanitize_filename_clean, (clean_app nfkd nfkd_app).
  unfold strip. by rewrite (subst_prefix _ _ (clean_blank x Hx)).
Qed.

Lemma sanitize_filename_skip_suffix s x :
  sanitize_filename nfkd x = [] ->
  sanitize_filename nfkd (s ++ x) = sanitize_filename nfkd s.
Proof.
  intros Hx. rewrite !sanitize_filename_clean, (clean_app nfkd nfkd_app).
  unfold strip. rewrite <- !lstrip_rstrip.
  by rewrite (subst_suffix _ _ (clean_blank x Hx)).
Qed.

(** Text that the normalisation leaves without any ASCII character is
    dropped. *)
Lemma sanitize_filename_skip_non_ascii pre u post :
  encode_ascii_ignore (nfkd u) = [] ->
  sanitize_filename nfkd (pre ++ u ++ post) = sanitize_filename nfkd (pre ++ post).
Proof.
  intros Hu. unfold sanitize_filename. by rewrite !nfkd_app, Hu.
Qed.

Hypothesis nfkd_ascii :
  forall s, Forall (fun c => (c <? 128) = true) s -> nfkd s = s.

Lemma sanitize_filename_run run :
  Forall (fun c => cls_separator c = true) run -> sanitize_filename nfkd run = [].
Proof.
  intros Hrun. apply sanitize_filename_nil_iff.
  assert (Hascii : Forall (fun c => (c <? 128) = true) run).
  { eapply Forall_impl; [exact Hrun|]. intros c Hc. cls_facts. }
  rewrite (nfkd_ascii _ Hascii), (encode_ascii_ignore_id _ Hascii).
  eapply Forall_impl; [exact Hrun|]. intros c Hc. cls_facts.
Qed.
End Boundary.





(** * The sort is stable *)

Section StableFacts.
Context {A K : Type} (ltb : K -> K -> bool) (key : A -> K).
Context (P : K -> Prop) {P_dec : forall k, Decision (P k)}.
(** The keys of [P] are not ordered among themselves. *)
Hypothesis P_unordered : forall a b, P a -> P b -> ltb a b = false.

Lemma filter_insert_sorted x l :
  filter (fun y => P (key y)) (insert_sorted ltb key x l) =
  filter (fun y => P (key y)) (x :: l).
Proof.
  induction l as [|y l IH]; [done|].
  cbn [insert_sorted]. destruct (ltb (key y) (key x)) eqn:Hyx; [|done].
  rewrite (filter_cons (fun y => P (key y)) y), IH.
  rewrite !(filter_cons (fun y => P (key y))).
  destruct (decide (P (key y))) as [Hy|]; [|done].
  destruct (decide (P (key x))) as [Hx|]; [|done].
  rewrite (P_unordered _ _ Hy Hx) in Hyx. discriminate Hyx.
Qed.

Lemma filter_sorted l :
  filter (fun y => P (key y)) (sorted ltb key l) =
  filter (fun y => P (key y)) l.
Proof.
  induction l as [|x l IH]; [done|].
  cbn [sorted]. rewrite filter_insert_sorted.
  rewrite !(filter_cons (fun y => P (key y))), IH. done.
Qed.
End StableFacts.

Lemma StronglySorted_weaken {A} (R S : A -> A -> Prop) l :
  (forall a b, R a b -> S a b) -> StronglySorted R l -> StronglySorted S l.
Proof.
  intros HRS. induction 1 as [|a l Hl IH Ha]; constructor; [done|].
  eapply Forall_impl; [exact Ha|]. intros b. apply HRS.
Qed.

Lemma num_ltb_false a b : num_ltb b a = false <-> (a <= b)%Q.
Proof. unfold num_ltb. by rewrite negb_false_iff, Qle_bool_iff. Qed.

Lemma num_ltb_trans a b c :
  num_ltb b a = false -> num_ltb c b = false -> num_ltb c a = false.
Proof. rewrite !num_ltb_false. apply Qle_trans. Qed.

Lemma num_ltb_same q a b :
  Qeq_bool a q = true -> Qeq_bool b q = true -> num_ltb a b = false.
Proof.
  rewrite !Qeq_bool_iff, num_ltb_false. intros Ha Hb.
  rewrite Ha, Hb. apply Qle_refl.
Qed.

Lemma sorted_by_pos {A} (pos : A -> Q) l :
  StronglySorted (fun a b => (pos a <= pos b)%Q) (sorted num_ltb pos l).
Proof.
  eapply StronglySorted_weaken;
    [|apply (sorted_StronglySorted num_ltb pos num_ltb_asym l), num_ltb_trans].
  intros a b. unfold key_le. apply num_ltb_false.
Qed.

Lemma sorted_at_pos {A} (pos : A -> Q) q l :
  at_pos pos q (sorted num_ltb pos l) = at_pos pos q l.
Proof.
  unfold at_pos.
  apply (filter_sorted num_ltb pos (fun k => Qeq_bool k q = true)
           (P_dec := fun k => decide_rel eq (Qeq_bool k q) true)).
  apply num_ltb_same.
Qed.

Section OrderFacts.
Variable strftime_date : pystr -> pystr.

Lemma checklist_entry_sorted c cl :
  ctx_checkItems (checklist_entry strftime_date c cl) =
  sorted num_ltb item_pos
    (map (item_entry strftime_date c) (checklist_checkItems cl)).
Proof.
  unfold checklist_entry, ctx_checkItems.
  destruct (checklist_checkItems cl) as [|it items] eqn:Hitems; [done|].
  rewrite checkItems_loop_spec. cbn [app fst snd].
  fold (item_entry strftime_date c).
  set (l := map _ (it :: items)).
  destruct l eqn:Hl; [done|]. by rewrite <- Hl.
Qed.

Lemma checklists_loop_sorted c cls acc :
  StronglySorted (fun a b => (entry_pos a <= entry_pos b)%Q) acc ->
  StronglySorted (fun a b => (entry_pos a <= entry_pos b)%Q)
    (checklists_loop strftime_date c cls acc).
Proof.
  revert acc. induction cls as [|cl cls IH]; intros acc Hacc; [done|].
  cbn [checklists_loop]. apply IH.
  set (acc' := if decide (checklist_name cl <> []) then _ else _).
  destruct acc' eqn:Hacc'; [constructor|]. rewrite <- Hacc'.
  apply (sorted_by_pos entry_pos).
Qed.

Lemma checklists_loop_at_pos q c cls acc :
  at_pos entry_pos q (checklists_loop strftime_date c cls acc) =
  at_pos entry_pos q
    (acc ++ map (checklist_entry strftime_date c) (named cls)).
Proof.
  revert acc. induction cls as [|cl cls IH]; intros acc.
  - cbn. by rewrite app_nil_r.
  - cbn [checklists_loop]. rewrite IH. unfold named.
    rewrite (filter_cons (fun cl => checklist_name cl <> [])).
    set (acc' := if decide (checklist_name cl <> []) then _ else _).
    assert (forall rest,
              at_pos entry_pos q
                (match acc' with
                 | [] => acc'
                 | _ => sorted num_ltb (fun x : checklist_ctx => x.1.1.2) acc'
                 end ++ rest) = at_pos entry_pos q (acc' ++ rest)) as ->.
    { intros rest. unfold at_pos.
      rewrite !(filter_app (fun x => Qeq_bool (entry_pos x) q = true)).
      f_equal. destruct acc' eqn:Hacc'; [done|]. rewrite <- Hacc'.
      apply (sorted_at_pos entry_pos). }
    unfold acc'. destruct (decide (checklist_name cl <> [])); [|done].
    by rewrite <- app_assoc.
Qed.
End OrderFacts.

(** X8.  The check-items of a checklist of the context stand in the order
    of their positions, and check-items of the same position keep the
    order in which the card lists them. *)
Theorem checkItems_sorted_stable strftime_date c cl :
  StronglySorted (fun a b => (item_pos a <= item_pos b)%Q)
    (ctx_checkItems (checklist_entry strftime_date c cl)) /\
  (forall q,
     at_pos item_pos q (ctx_checkItems (checklist_entry strftime_date c cl)) =
     at_pos item_pos q
       (map (item_entry strftime_date c) (checklist_checkItems cl))).
Proof.
  rewrite checklist_entry_sorted. split.
  - apply (sorted_by_pos item_pos).
  - intros q. apply (sorted_at_pos item_pos).
Qed.




(** * The range of the completion percent *)

Lemma nearest_integer_range r K N :
  (0 <= K <= N)%Z -> (0 < N)%Z -> nearest_integer r (100 * K) N ->
  (0 <= r <= 100)%Z.
Proof.
  unfold nearest_integer. intros HK HN Hr.
  destruct (Z_lt_le_dec r 0) as [Hneg|Hpos].
  - exfalso. assert (r * N <= - N)%Z by nia. lia.
  - split; [done|].
    destruct (Z_le_gt_dec r 100) as [Hle|Hgt]; [done|].
    exfalso. assert (101 * N <= r * N)%Z by nia. lia.
Qed.

Lemma nearest_integer_exact r v N :
  (0 < N)%Z -> nearest_integer r (v * N) N -> r = v.
Proof.
  unfold nearest_integer. intros HN Hr.
  destruct (Z_lt_le_dec r v) as [Hlt|Hge].
  - exfalso. assert (r * N <= v * N - N)%Z by nia. lia.
  - destruct (Z_le_lt_eq_dec v r Hge) as [Hlt|Heq]; [|done].
    exfalso. assert (v * N + N <= r * N)%Z by nia. lia.
Qed.

Lemma complete_count_all items :
  Forall (fun it => checkItem_state it = str "complete") items ->
  complete_count items = Z.of_nat (length items).
Proof.
  unfold complete_count. induction 1 as [|it items Hit _ IH]; [done|].
  rewrite (filter_cons (fun it => checkItem_state it = str "complete")).
  rewrite decide_True by done. cbn [length]. lia.
Qed.

Lemma complete_count_none items :
  Forall (fun it => checkItem_state it <> str "complete") items ->
  complete_count items = 0%Z.
Proof.
  unfold complete_count. induction 1 as [|it items Hit _ IH]; [done|].
  rewrite (filter_cons (fun it => checkItem_state it = str "complete")).
  by rewrite decide_False.
Qed.

(** X10.  The completion percent of a checklist with check-items is the
    decimal string of an integer between 0 and 100.  It is exact when
    [100 * K / N] is an integer: [100%] when every check-item is complete
    and [0%] when none is, whatever the rounding of the floating-point
    division. *)
Theorem checklist_pcentComplet_range strftime_date c cl :
  checklist_checkItems cl <> [] ->
  (Z.of_nat (length (checklist_checkItems cl)) <= 2 ^ 44)%Z ->
  exists r,
    ctx_pcentComplet (checklist_entry strftime_date c cl)
    = str_of_int r ++ str "%" /\
    (0 <= r <= 100)%Z /\
    (forall v,
       (100 * complete_count (checklist_checkItems cl)
        = v * Z.of_nat (length (checklist_checkItems cl)))%Z -> r = v) /\
    (Forall (fun it => checkItem_state it = str "complete")
       (checklist_checkItems cl) -> r = 100%Z) /\
    (Forall (fun it => checkItem_state it <> str "complete")
       (checklist_checkItems cl) -> r = 0%Z).
Proof.
  intros Hne Hlen. rewrite checklist_entry_pcentComplet.
  destruct (checklist_checkItems cl) as [|it items] eqn:Hitems; [done|].
  set (all := it :: items) in *.
  assert (0 < Z.of_nat (length all))%Z as HN by (unfold all; cbn [length]; lia).
  pose proof (int_round_percent (complete_count all) (Z.of_nat (length all))
                (complete_count_le all) (conj HN Hlen)) as Hr.
  eexists. split; [reflexivity|].
  assert (forall v,
            (100 * complete_count all = v * Z.of_nat (length all))%Z ->
            int_round
              (float_mul (truediv (complete_count all) (Z.of_nat (length all)))
                 (float_of_int 100)) = v) as Hexact.
  { intros v Hv. apply (nearest_integer_exact _ v (Z.of_nat (length all)) HN).
    by rewrite <- Hv. }
  split; [|split; [exact Hexact|split]].
  - eapply nearest_integer_range; [apply complete_count_le|exact HN|exact Hr].
  - intros Hall. apply Hexact. rewrite (complete_count_all all Hall). lia.
  - intros Hnone. apply Hexact. rewrite (complete_count_none all Hnone). lia.
Qed.

Lemma checklist_pcentComplet_range_witness :
  exists r,
    ctx_pcentComplet (checklist_entry id sample_card sample_checklist)
    = str_of_int r ++ str "%" /\ (0 <= r <= 100)%Z.
Proof.
  destruct (checklist_pcentComplet_range id sample_card sample_checklist)
    as (r & Hr & Hrange & _); [discriminate|by vm_compute|].
  exists r. split; [exact Hr|exact Hrange].
Defined.


(** * Further properties of the selection of the board *)

Section SelectionFacts.
Variable int_of_str : pystr -> option Z.

Lemma ask_board_rejected len line lines :
  rejected int_of_str len line ->
  ask_board int_of_str len (line :: lines) =
  (Input (str "Select a board : ")
   :: Print (str "This is not a valid board number.")
   :: (ask_board int_of_str len lines).1,
   (ask_board int_of_str len lines).2).
Proof.
  intros Hrej. cbn [ask_board]. unfold emit, print, emit.
  rewrite run_bind_done. cbn [app].
  destruct (int_of_str line) as [num|] eqn:Hline.
  - destruct ((num <? 0) || (len <=? num))%Z eqn:Hnum.
    + rewrite run_bind_done. reflexivity.
    + exfalso. apply (Hrej num Hline).
      apply orb_false_iff in Hnum as [H1 H2].
      apply Z.ltb_ge in H1. apply Z.leb_gt in H2. lia.
  - rewrite run_bind_done. reflexivity.
Qed.

Lemma ask_board_accepted len line lines num :
  int_of_str line = Some num -> (0 <= num < len)%Z ->
  ask_board int_of_str len (line :: lines) =
  ([Input (str "Select a board : ")], Done num).
Proof.
  intros Hline Hnum. cbn [ask_board]. unfold emit.
  rewrite run_bind_done, Hline.
  assert ((num <? 0) || (len <=? num) = false)%Z as ->.
  { apply orb_false_iff. split; [apply Z.ltb_ge|apply Z.leb_gt]; lia. }
  reflexivity.
Qed.

Lemma ask_board_first_valid len bad good rest num :
  Forall (rejected int_of_str len) bad ->
  int_of_str good = Some num -> (0 <= num < len)%Z ->
  ask_board int_of_str len (bad ++ good :: rest) =
  (rejections bad ++ [Input (str "Select a board : ")], Done num).
Proof.
  intros Hbad Hgood Hnum. induction Hbad as [|line bad Hline _ IH].
  - by apply ask_board_accepted.
  - cbn [app]. rewrite (ask_board_rejected len line _ Hline), IH. reflexivity.
Qed.

Lemma ask_board_exhausted len lines :
  Forall (rejected int_of_str len) lines ->
  ask_board int_of_str len lines =
  (rejections lines ++ [Input (str "Select a board : ")], Raise EOFError).
Proof.
  induction 1 as [|line lines Hline _ IH]; [reflexivity|].
  rewrite (ask_board_rejected len line _ Hline), IH. reflexivity.
Qed.

Lemma rejected_dec len line :
  rejected int_of_str len line \/
  exists num, int_of_str line = Some num /\ (0 <= num < len)%Z.
Proof.
  unfold rejected. destruct (int_of_str line) as [num|]; [|by left].
  destruct (decide (0 <= num < len)%Z) as [Hin|Hout].
  - right. by exists num.
  - left. by intros ? [= <-].
Qed.

Lemma lines_split len lines :
  Forall (rejected int_of_str len) lines \/
  exists bad good rest num,
    lines = bad ++ good :: rest /\ Forall (rejected int_of_str len) bad /\
    int_of_str good = Some num /\ (0 <= num < len)%Z.
Proof.
  induction lines as [|line lines IH]; [by left|].
  destruct (rejected_dec len line) as [Hrej|(num & Hline & Hnum)].
  - destruct IH as [Hall|(bad & good & rest & num & -> & Hbad & Hgood & Hnum)].
    + left. by constructor.
    + right. exists (line :: bad), good, rest, num.
      split; [done|]. split; [by constructor|]. by split.
  - right. exists [], line, lines, num.
    split; [done|]. split; [constructor|]. by split.
Qed.

Variable w : world.

Lemma select_board_menu boards :
  (1 < length boards)%nat ->
  select_board int_of_str w boards =
  let r := ask_board int_of_str (Z.of_nat (length boards)) (stdin w) in
  (board_menu boards ++ r.1,
   match r.2 with
   | Done num => match boards !! Z.to_nat num with
                 | Some b => Done b
                 | None => Raise IndexError
                 end
   | Exit => Exit
   | Raise e => Raise e
   end).
Proof.
  intros Hlen. unfold select_board, board_menu.
  assert ((1 <? Z.of_nat (length boards))%Z = true) as ->
    by (apply Z.ltb_lt; lia).
  rewrite for_each_print. cbv zeta.
  destruct (ask_board int_of_str (Z.of_nat (length boards)) (stdin w))
    as [t o].
  rewrite !run_bind_unfold. cbn [print emit fst snd app].
  destruct o as [num| |]; cbn [fst snd app];
    [|by rewrite <- app_assoc|by rewrite <- app_assoc].
  destruct (boards !! Z.to_nat num); cbn [fst snd mret run_ret raise];
    by rewrite app_nil_r, <- app_assoc.
Qed.
End SelectionFacts.



(** X12.  With at least one board the selection ends in one of two ways:
    a board of the list is selected, or the console is exhausted before
    a valid number was typed and the run ends with [EOFError].  It does
    not end with [IndexError] or [sys.exit()]. *)
Theorem select_board_outcomes int_of_str w boards :
  boards <> [] ->
  (exists b, b ∈ boards /\ (select_board int_of_str w boards).2 = Done b) \/
  ((select_board int_of_str w boards).2 = Raise EOFError /\
   (1 < length boards)%nat /\
   Forall (rejected int_of_str (Z.of_nat (length boards))) (stdin w)).
Proof.
  intros Hne.
  destruct boards as [|b0 [|b1 boards]]; [done| |].
  - left. exists b0. split; [by left|reflexivity].
  - set (bs := b0 :: b1 :: boards).
    assert (1 < length bs)%nat as Hlen by (unfold bs; cbn [length]; lia).
    rewrite select_board_menu by done. cbv zeta. cbn [snd].
    destruct (lines_split int_of_str (Z.of_nat (length bs)) (stdin w))
      as [Hall|(bad & good & rest & num & -> & Hbad & Hgood & Hnum)].
    + right. rewrite (ask_board_exhausted int_of_str _ _ Hall). by cbn [snd].
    + left. rewrite (ask_board_first_valid int_of_str _ bad good rest num) by done.
      cbn [snd].
      destruct (lookup_lt_is_Some_2 bs (Z.to_nat num)) as [b Hb]; [lia|].
      exists b. rewrite Hb. split; [|done].
      by eapply list_elem_of_lookup_2.
Qed.

Lemma select_board_outcomes_witness :
  (exists b, b ∈ sample_boards /\
     (select_board int_of_digit sample_trello sample_boards).2 = Done b) \/
  ((select_board int_of_digit sample_trello sample_boards).2 = Raise EOFError /\
   (1 < length sample_boards)%nat /\
   Forall (rejected int_of_digit (Z.of_nat (length sample_boards)))
     (stdin sample_trello)).
Proof. apply select_board_outcomes. discriminate. Defined.

(** * The attachments *)

Section AttachmentFacts.
Variable nfkd : pystr -> pystr.
Variable strftime_date : pystr -> pystr.
Variable w : world.
Variable boardFileName : pystr.

Local Abbreviation download :=
  (download_attachments nfkd strftime_date w boardFileName).

(** Whatever the file system does, a loop that ends normally has
    written one file for each attachment it added to the list. *)
Lemma download_attachments_listed idShort atts status attachments t listed :
  download idShort atts status attachments = (t, Done listed) ->
  exists added,
    listed = attachments ++ added /\
    map fst (written_files t) = map (fun x => pathToAttachments ++ x.1) added.
Proof.
  revert status attachments t.
  induction atts as [|a atts IH]; intros status attachments t Heq.
  - injection Heq as <- <-. exists []. by rewrite app_nil_r.
  - cbn [download_attachments] in Heq. cbv zeta in Heq.
    fold (attachment_file nfkd idShort a) in Heq.
    destruct (raises w (Remove (pathToAttachments
                                ++ attachment_file nfkd idShort a))) eqn:Hrm.
    { rewrite (remove_if_exists_raises _ _ _ Hrm), run_bind_unfold in Heq.
      discriminate Heq. }
    rewrite (remove_if_exists_ok _ _ _ Hrm) in Heq.
    unfold print, emit in Heq. rewrite !run_bind_done in Heq.
    cbn [fst snd app] in Heq.
    destruct (attachment_get w (attachment_url a)) as [|code content].
    + rewrite ?run_bind_done in Heq. cbn [fst snd app] in Heq.
      destruct (download idShort atts status attachments) as [t' o'] eqn:Hrest.
      cbn [fst snd] in Heq. injection Heq as <- ->.
      destruct (IH _ _ _ Hrest) as (added & -> & Hw). by exists added.
    + destruct (raises w (OpenWb (pathToAttachments
                                  ++ attachment_file nfkd idShort a))) eqn:Hwr.
      { rewrite (write_file_raises _ _ _ Hwr), run_bind_unfold in Heq.
        discriminate Heq. }
      rewrite (write_file_ok _ _ _ Hwr), run_bind_done in Heq.
      cbn [fst snd app] in Heq.
      destruct (download idShort atts code _) as [t' o'] eqn:Hrest.
      cbn [fst snd] in Heq. injection Heq as <- ->.
      destruct (IH _ _ _ Hrest) as (added & -> & Hw).
      exists ((attachment_file nfkd idShort a,
               strftime_date (attachment_date a)) :: added).
      split; [by rewrite <- app_assoc|].
      unfold written_files in *. cbn [omap list_omap written_file map fst].
      by rewrite Hw.
Qed.


(** The attachment behind a prefix that went through, when its removal
    raises and when its write raises. *)
Lemma download_attachments_stops idShort before a behind status :
  Forall (attachment_ok nfkd w idShort) before ->
  let p := pathToAttachments ++ attachment_file nfkd idShort a in
  let r := download idShort (before ++ a :: behind) status [] in
  (raises w (Remove p) = true \/
   (raises w (OpenWb p) = true /\ downloaded w a <> None)) ->
  r.2 = (if raises w (Remove p) then Exit else Raise OSError) /\
  removed_files r.1 =
    map (fun a => pathToAttachments ++ attachment_file nfkd idShort a)
      (before ++ [a]) /\
  written_files r.1 = omap (stored_attachment nfkd w idShort) before.
Proof.
  intros Hok p r Hfail. subst r.
  destruct (download_attachments_prefix nfkd strftime_date w boardFileName
              idShort before (a :: behind) status [] Hok)
    as (t & status' & -> & H2 & H3 & _).
  cbn [fst snd]. cbn [download_attachments]. cbv zeta.
  fold (attachment_file nfkd idShort a). fold p.
  unfold removed_files, written_files in *.
  rewrite !omap_app, H2, H3, map_app. cbn [map].
  destruct (raises w (Remove p)) eqn:Hrm.
  - rewrite (remove_if_exists_raises _ _ _ Hrm), run_bind_unfold.
    cbn [fst snd omap list_omap removed_file written_file].
    by rewrite app_nil_r.
  - destruct Hfail as [Hfail|[Hwr Hdown]]; [discriminate Hfail|].
    rewrite (remove_if_exists_ok _ _ _ Hrm).
    unfold print, emit. rewrite !run_bind_done.
    unfold downloaded in Hdown.
    destruct (attachment_get w (attachment_url a)) as [|code content];
      [done|].
    rewrite (write_file_raises _ _ _ Hwr), run_bind_unfold.
    cbn [fst snd app omap list_omap removed_file written_file].
    by rewrite app_nil_r.
Qed.
End AttachmentFacts.

Lemma basename_from_name name acc :
  Forall (fun c => c <> chr "/") name -> basename_from acc name = acc ++ name.
Proof.
  intros Hname. revert acc.
  induction Hname as [|c name Hc _ IH]; intros acc; [by rewrite app_nil_r|].
  cbn [basename_from]. apply N.eqb_neq in Hc. rewrite Hc, IH.
  by rewrite <- app_assoc.
Qed.

Lemma basename_from_slash dir name acc :
  Forall (fun c => c <> chr "/") name ->
  basename_from acc (dir ++ chr "/" :: name) = name.
Proof.
  intros Hname. revert acc. induction dir as [|c dir IH]; intros acc.
  - cbn [app basename_from]. rewrite N.eqb_refl.
    by rewrite basename_from_name.
  - cbn [app basename_from]. destruct (c =? chr "/"); apply IH.
Qed.

Lemma basename_attachment nfkd idShort a :
  basename (pathToAttachments ++ attachment_file nfkd idShort a)
  = attachment_file nfkd idShort a.
Proof.
  change pathToAttachments with (str "./exports/attachments" ++ [chr "/"]).
  rewrite <- app_assoc. apply basename_from_slash.
  eapply Forall_impl; [apply sanitize_filename_clean_chars|].
  intros c Hc ->. discriminate Hc.
Qed.


(** X13.  When the attachment loop of a card ends normally, the
    attachments listed in the context are exactly the ones whose file was
    written.  When no removal and no write raises, both are the
    attachments for which the request returned a response, in the order
    of the card, each stored under its sanitized name with the body of
    the response as content.  A card without the key [attachments] has
    none. *)
Theorem attachments_listed_written nfkd strftime_date w boardFileName c status :
  let r := card_attachments_ctx nfkd strftime_date w boardFileName c status in
  (forall atts,
     card_attachments c = Some atts ->
     Forall (attachment_ok nfkd w (card_idShort c)) atts ->
     r.2 = Done (omap (listed_attachment nfkd strftime_date w (card_idShort c)) atts) /\
     written_files r.1 = omap (stored_attachment nfkd w (card_idShort c)) atts) /\
  (card_attachments c = None -> r = ([], Done [])) /\
  (forall listed,
     r.2 = Done listed ->
     map fst (written_files r.1) = map (fun x => pathToAttachments ++ x.1) listed).
Proof.
  cbv zeta. unfold card_attachments_ctx. split; [|split].
  - intros atts -> Hok.
    destruct (download_attachments_spec nfkd strftime_date w boardFileName
                (card_idShort c) atts status [] Hok) as (t & -> & H2 & _).
    by split.
  - by intros ->.
  - destruct (card_attachments c) as [atts|]; [|by intros ? [= <-]].
    intros listed Hdone.
    destruct (download_attachments nfkd strftime_date w boardFileName
                (card_idShort c) atts status []) as [t o] eqn:Heq.
    cbn [fst snd] in *. subst o.
    by destruct (download_attachments_listed nfkd strftime_date w boardFileName
                   _ _ _ _ _ _ Heq) as (added & -> & Hw).
Qed.

Lemma attachments_listed_written_witness :
  (card_attachments_ctx id id sample_trello (str "Ops.xlsx") sample_card 200).2
  = Done [(str "7-spec-v1.pdf", str "2024-03-01")] /\
  written_files
    (card_attachments_ctx id id sample_trello (str "Ops.xlsx") sample_card 200).1
  = [(str "./exports/attachments/7-spec-v1.pdf", [37; 80; 68; 70])].
Proof.
  destruct (attachments_listed_written id id sample_trello (str "Ops.xlsx")
              sample_card 200) as (Hsome & _).
  destruct (Hsome _ eq_refl) as [H1 H2].
  { apply Forall_true. intros a. by split. }
  split; [rewrite H1|rewrite H2]; by vm_compute.
Defined.





(** * The documents of a run *)

Lemma document_path_inj nfkd d1 d2 :
  document_path nfkd d1 = document_path nfkd d2 <->
  card_closed d1 = card_closed d2 /\
  take 250 (sanitize_filename nfkd (card_name d1)) =
  take 250 (sanitize_filename nfkd (card_name d2)).
Proof.
  unfold document_path, outputFileName. split.
  - intros Heq.
    destruct (card_closed d1) eqn:H1, (card_closed d2) eqn:H2; cbn [bucket_dir] in Heq.
    + split; [done|]. by apply app_inv_head, app_inv_tail in Heq.
    + symmetry in Heq. by apply bucket_dirs_disjoint in Heq.
    + by apply bucket_dirs_disjoint in Heq.
    + split; [done|]. by apply app_inv_head, app_inv_tail in Heq.
  - by intros [-> ->].
Qed.

(** X15.  In a run in which every detail fetch is answered and no file
    operation or rendering raises, each card gets one document, and two
    cards get the same path exactly when they are in the same bucket and
    their sanitized names agree on the first 250 characters: the names of
    such cards need not be equal, and the document saved later replaces
    the earlier one. *)
Theorem documents_share_path nfkd strftime_date strftime_datetime w
    boardFileName lists cards details :
  file_system_ok w ->
  Forall2 (fun c d => cards_get w (card_id c) = Response 200 d) cards details ->
  let r := export_docx nfkd strftime_date strftime_datetime w boardFileName
             lists cards in
  map fst (saved_documents r.1) = map (document_path nfkd) details /\
  (forall i j d1 d2,
     details !! i = Some d1 -> details !! j = Some d2 ->
     (map fst (saved_documents r.1) !! i = map fst (saved_documents r.1) !! j <->
      card_closed d1 = card_closed d2 /\
      take 250 (sanitize_filename nfkd (card_name d1)) =
      take 250 (sanitize_filename nfkd (card_name d2)))).
Proof.
  intros Hok Hdetails r.
  assert (map fst (saved_documents r.1) = map (document_path nfkd) details) as Hpaths.
  { unfold r, export_docx.
    destruct (for_each_export_card nfkd strftime_date strftime_datetime w
                boardFileName Hok lists
                (length cards) (imap (fun i c => (i, c)) cards) details)
      as (t & Ht & Hs).
    { by apply (Forall2_imap_snd
                  (fun c d => cards_get w (card_id c) = Response 200 d) (fun i => i)). }
    rewrite Ht. unfold print, emit. rewrite run_bind_done. cbn [fst snd app].
    exact Hs. }
  split; [exact Hpaths|].
  intros i j d1 d2 H1 H2. rewrite Hpaths.
  change (map (document_path nfkd) details) with (document_path nfkd <$> details).
  rewrite !list_lookup_fmap, H1, H2. cbn [fmap option_fmap option_map].
  rewrite <- document_path_inj. split; [by intros [= ->]|by intros ->].
Qed.

Lemma documents_share_path_witness :
  map fst
    (saved_documents
       (export_docx id id id sample_trello_404 (str "Ops.xlsx") sample_lists
          [sample_card; sample_archived]).1)
  = [ str "./exports/cards/Fix-login-signup.docx";
      str "./exports/cards/Fix-login-signup.docx" ].
Proof.
  destruct (documents_share_path id id id sample_trello_404 (str "Ops.xlsx")
              sample_lists
              [sample_card; sample_archived] [sample_card; sample_card])
    as [Hpaths _]; [by intros c|by repeat constructor|].
  rewrite Hpaths. by vm_compute.
Defined.

Lemma export_card_fails nfkd strftime_date strftime_datetime w boardFileName
    lists total ic :
  detail_fails w ic.2 ->
  let r := export_card nfkd strftime_date strftime_datetime w boardFileName
             lists total ic in
  (r.2 = Exit \/ r.2 = Raise RequestException) /\
  Forall (fun e => file_effect e = false) r.1.
Proof.
  intros Hfail. cbv zeta. unfold export_card.
  destruct (cards_get w (card_id ic.2)) as [|status d] eqn:Hget.
  - split; [by right|constructor].
  - destruct (status =? 200)%Z eqn:Hs.
    + apply Z.eqb_eq in Hs. subst status. by destruct (Hfail d).
    + split; [by left|]. by repeat constructor.
Qed.

Lemma saved_documents_quiet t :
  Forall (fun e => file_effect e = false) t -> saved_documents t = [].
Proof.
  unfold saved_documents. induction 1 as [|e t He _ IH]; [done|].
  cbn [omap list_omap]. rewrite IH. by destruct e.
Qed.




(** * The whole run *)

Section MainFacts.
Variable nfkd : pystr -> pystr.
Variable strftime_date : pystr -> pystr.
Variable strftime_datetime : pystr -> pystr.
Variable w : world.
Variable int_of_str : pystr -> option Z.
Variable wsHeaders : list cell.

Local Abbreviation quiet := (Forall (fun e => file_effect e = false)).

Lemma get_boards_inv :
  quiet (get_boards w).1 /\
  (forall boards,
     (get_boards w).2 = Done boards ->
     get_boards w = ([], Done boards) /\
     exists json_data,
       members_me_boards w = Response 200 json_data /\
       boards = sorted str_ltb (fun x : board_row => x.1.2) json_data).
Proof.
  unfold get_boards.
  destruct (members_me_boards w) as [|status json_data].
  - split; [by repeat constructor|]. by intros boards [=].
  - destruct (status =? 200)%Z eqn:Hs.
    + apply Z.eqb_eq in Hs. subst status. split; [constructor|].
      intros boards [= <-]. split; [done|]. by exists json_data.
    + split; [by repeat constructor|]. by intros boards [=].
Qed.

Lemma get_lists_inv boardId boardName :
  quiet (get_lists w boardId boardName).1 /\
  (forall lists,
     (get_lists w boardId boardName).2 = Done lists ->
     get_lists w boardId boardName = ([], Done lists) /\
     exists json_data,
       boards_lists w boardId = Response 200 json_data /\
       lists = sorted num_ltb (fun x : list_row => x.2) json_data).
Proof.
  unfold get_lists.
  destruct (boards_lists w boardId) as [|status json_data].
  - split; [constructor|]. by intros lists [=].
  - destruct (status =? 200)%Z eqn:Hs.
    + apply Z.eqb_eq in Hs. subst status. split; [constructor|].
      intros lists [= <-]. split; [done|]. by exists json_data.
    + split; [by repeat constructor|]. by intros lists [=].
Qed.

Lemma get_cards_inv boardId boardName :
  quiet (get_cards w boardId boardName).1 /\
  (forall cards,
     (get_cards w boardId boardName).2 = Done cards ->
     get_cards w boardId boardName = ([], Done cards) /\
     boards_cards_all w boardId = Response 200 cards).
Proof.
  unfold get_cards.
  destruct (boards_cards_all w boardId) as [|status cards'].
  - split; [constructor|]. by intros cards [=].
  - destruct (status =? 200)%Z eqn:Hs.
    + apply Z.eqb_eq in Hs. subst status. split; [constructor|].
      by intros cards [= <-].
    + split; [by repeat constructor|]. by intros cards [=].
Qed.

Lemma ask_board_quiet len lines : quiet (ask_board int_of_str len lines).1.
Proof.
  induction lines as [|line lines IH]; [by repeat constructor|].
  cbn [ask_board]. unfold print, emit. rewrite run_bind_done. cbn [fst].
  constructor; [done|].
  destruct (int_of_str line) as [num|].
  - destruct ((num <? 0) || (len <=? num))%Z; [|constructor].
    rewrite run_bind_done. cbn [fst]. by constructor.
  - rewrite run_bind_done. cbn [fst]. by constructor.
Qed.

Lemma select_board_quiet boards : quiet (select_board int_of_str w boards).1.
Proof.
  destruct (decide (1 < length boards)%nat) as [Hlen|Hlen].
  - rewrite select_board_menu by done. cbv zeta. cbn [fst].
    apply Forall_app. split; [|apply ask_board_quiet].
    unfold board_menu. constructor; [done|]. apply Forall_app. split.
    + apply Forall_fmap. by apply Forall_true.
    + by repeat constructor.
  - unfold select_board.
    assert ((1 <? Z.of_nat (length boards))%Z = false) as ->
      by (apply Z.ltb_ge; lia).
    unfold mret, run_ret. rewrite run_bind_done. cbn [fst app].
    destruct (boards !! Z.to_nat 0); constructor.
Qed.

(** The run up to the fetch of the cards. *)
Lemma main_unfold :
  main nfkd strftime_date strftime_datetime w int_of_str wsHeaders =
  boards ← get_boards w;
  board ← select_board int_of_str w boards;
  lists ← get_lists w board.1.1 board.1.2;
  print (str "Exporting board '" ++ board.1.2 ++ str "'...") ;;
  cards ← get_cards w board.1.1 board.1.2;
  match cards with
  | [] => print (str "No Card on this Board.") ;; sys_exit
  | _ => export_xlsx nfkd strftime_date strftime_datetime wsHeaders w
           board.1.2 lists cards ;;
         export_docx nfkd strftime_date strftime_datetime w
           (take 250 (sanitize_filename nfkd board.1.2) ++ str ".xlsx")
           lists cards
  end.
Proof. reflexivity. Qed.

Lemma main_steps json_data t board lists cards :
  members_me_boards w = Response 200 json_data ->
  select_board int_of_str w
    (sorted str_ltb (fun x : board_row => x.1.2) json_data) = (t, Done board) ->
  boards_lists w board.1.1 = Response 200 lists ->
  boards_cards_all w board.1.1 = Response 200 cards ->
  let rest :=
    match cards with
    | [] => print (str "No Card on this Board.") ;; sys_exit
    | _ => export_xlsx nfkd strftime_date strftime_datetime wsHeaders w
             board.1.2 (sorted num_ltb (fun x : list_row => x.2) lists) cards ;;
           export_docx nfkd strftime_date strftime_datetime w
             (take 250 (sanitize_filename nfkd board.1.2) ++ str ".xlsx")
             (sorted num_ltb (fun x : list_row => x.2) lists) cards
    end in
  main nfkd strftime_date strftime_datetime w int_of_str wsHeaders =
  (t ++ Print (str "Exporting board '" ++ board.1.2 ++ str "'...") :: rest.1,
   rest.2).
Proof.
  intros Hboards Hselect Hlists Hcards rest. rewrite main_unfold.
  unfold get_boards. rewrite Hboards. cbn [Z.eqb Pos.eqb].
  unfold mret at 1, run_ret. rewrite run_bind_done. cbn [app].
  rewrite Hselect, run_bind_done.
  unfold get_lists. rewrite Hlists. cbn [Z.eqb Pos.eqb].
  unfold mret at 1, run_ret. rewrite run_bind_done. cbn [app].
  unfold print at 1, emit. rewrite run_bind_done.
  unfold get_cards. rewrite Hcards. cbn [Z.eqb Pos.eqb].
  unfold mret at 1, run_ret. rewrite run_bind_done. cbn [app fst snd].
  reflexivity.
Qed.
End MainFacts.

Lemma quiet_bind {A B} (m : run A) (f : A -> run B) (P : Prop) :
  Forall (fun e => file_effect e = false) m.1 ->
  (forall a, m.2 = Done a -> Exists (fun e => file_effect e = true) (f a).1 -> P) ->
  Exists (fun e => file_effect e = true) (m ≫= f).1 -> P.
Proof.
  intros Hquiet Hnext. rewrite run_bind_unfold.
  assert (Exists (fun e => file_effect e = true) m.1 -> P) as Hno.
  { intros (e & He & Heff)%Exists_exists.
    rewrite Forall_forall in Hquiet. specialize (Hquiet e He). congruence. }
  destruct m.2 as [a| |e] eqn:Hm; cbn [fst]; [|exact Hno..].
  rewrite Exists_app. intros [H|H]; [by apply Hno|by apply (Hnext a)].
Qed.

Lemma main_file_effects nfkd strftime_date strftime_datetime w int_of_str
    wsHeaders :
  Exists (fun e => file_effect e = true)
    (main nfkd strftime_date strftime_datetime w int_of_str wsHeaders).1 ->
  exists json_data board lists cards,
    members_me_boards w = Response 200 json_data /\
    (select_board int_of_str w
       (sorted str_ltb (fun x : board_row => x.1.2) json_data)).2 = Done board /\
    boards_lists w board.1.1 = Response 200 lists /\
    boards_cards_all w board.1.1 = Response 200 cards /\
    cards <> [].
Proof.
  rewrite main_unfold.
  apply quiet_bind; [apply get_boards_inv|]. intros boards Hboards.
  destruct (proj2 (get_boards_inv w) boards Hboards) as (_ & json_data & Hjson & ->).
  apply quiet_bind; [apply select_board_quiet|]. intros board Hboard.
  apply quiet_bind; [apply get_lists_inv|]. intros lists Hlists.
  destruct (proj2 (get_lists_inv w board.1.1 board.1.2) lists Hlists)
    as (_ & lists0 & Hlists0 & ->).
  apply quiet_bind; [by repeat constructor|]. intros [] _.
  apply quiet_bind; [apply get_cards_inv|]. intros cards Hcards.
  destruct (proj2 (get_cards_inv w board.1.1 board.1.2) cards Hcards)
    as (_ & Hcards0).
  destruct cards as [|c cards].
  - intros H. exfalso. cbn in H. apply Exists_cons in H as [H|H]; [done|].
    by apply Exists_nil in H.
  - intros _. exists json_data, board, lists0, (c :: cards).
    by repeat split.
Qed.

(** * The start-up *)

Lemma Forall_run_bind {A B} (P : event -> Prop) (m : run A) (f : A -> run B) :
  Forall P m.1 -> (forall a, Forall P (f a).1) -> Forall P (m ≫= f).1.
Proof.
  intros Hm Hf. rewrite run_bind_unfold.
  destruct m.2 as [a| |e]; cbn [fst]; [|done..].
  apply Forall_app. split; [done|apply Hf].
Qed.

Section StartupFacts.
Variable w : world.

Lemma makedirs_if_missing_startup p :
  p ∈ [path; pathToCards; pathToArchived; pathToAttachments] ->
  Forall startup_effect (makedirs_if_missing w p).1.
Proof.
  intros Hp. unfold makedirs_if_missing.
  destruct (path_exists w p); [constructor|].
  destruct (raises w (Makedirs p)); [constructor|].
  constructor; [|constructor]. right. by exists p.
Qed.

Lemma configure_startup : Forall startup_effect (configure w).1.
Proof.
  unfold configure.
  apply Forall_run_bind.
  { unfold get_config_from_ini.
    destruct (path_exists w _); [constructor|].
    destruct (raises w _); [constructor|].
    constructor; [|constructor]. by left. }
  intros _. apply Forall_run_bind.
  { apply makedirs_if_missing_startup. set_solver. }
  intros _. apply Forall_run_bind.
  { apply makedirs_if_missing_startup. set_solver. }
  intros _. apply Forall_run_bind.
  { apply makedirs_if_missing_startup. set_solver. }
  intros _. apply makedirs_if_missing_startup. set_solver.
Qed.

Lemma configure_ok :
  file_system_ok w -> configure w = (startup_events w, Done tt).
Proof.
  intros Hok. unfold configure, get_config_from_ini, makedirs_if_missing,
    startup_events.
  rewrite !Hok. cbn [flat_map].
  destruct (path_exists w (str "config.ini")), (path_exists w path),
    (path_exists w pathToCards), (path_exists w pathToArchived),
    (path_exists w pathToAttachments); reflexivity.
Qed.
End StartupFacts.

(** X17.  The run touches the file system at its start, where it copies
    the sample configuration if [config.ini] is missing and creates the
    export directories that are missing, and after that only once the
    three fetches of the boards, of the lists and of the cards have been
    answered with status 200, a board has been selected, and the board
    has at least one card: a failure before that point leaves no
    spreadsheet, attachment or document removed or written. *)
Theorem program_file_effects nfkd strftime_date strftime_datetime w int_of_str
    wsHeaders :
  exists rest,
    (program nfkd strftime_date strftime_datetime w int_of_str wsHeaders).1
    = (configure w).1 ++ rest /\
    Forall startup_effect (configure w).1 /\
    (Exists (fun e => file_effect e = true) rest ->
     (configure w).2 = Done tt /\
     exists json_data board lists cards,
       members_me_boards w = Response 200 json_data /\
       (select_board int_of_str w
          (sorted str_ltb (fun x : board_row => x.1.2) json_data)).2 = Done board /\
       boards_lists w board.1.1 = Response 200 lists /\
       boards_cards_all w board.1.1 = Response 200 cards /\
       cards <> []).
Proof.
  unfold program. rewrite run_bind_unfold.
  destruct (configure w).2 as [[]| |e] eqn:Hcfg; cbn [fst].
  - eexists. split; [reflexivity|]. split; [apply configure_startup|].
    intros Heff. split; [done|].
    rewrite run_bind_unfold in Heff.
    apply main_file_effects with nfkd strftime_date strftime_datetime wsHeaders.
    destruct (main _ _ _ _ _ _).2 as [[]| |e]; cbn [fst] in Heff; [|done..].
    apply Exists_app in Heff as [Heff|Heff]; [done|].
    apply Exists_cons in Heff as [Heff|Heff]; [done|].
    by apply Exists_nil in Heff.
  - exists []. rewrite app_nil_r. split; [done|].
    split; [apply configure_startup|]. by intros ?%Exists_nil.
  - exists []. rewrite app_nil_r. split; [done|].
    split; [apply configure_startup|]. by intros ?%Exists_nil.
Qed.

Lemma program_file_effects_witness :
  (configure sample_trello).2 = Done tt /\
  exists json_data board lists cards,
    members_me_boards sample_trello = Response 200 json_data /\
    (select_board int_of_digit sample_trello
       (sorted str_ltb (fun x : board_row => x.1.2) json_data)).2 = Done board /\
    boards_lists sample_trello board.1.1 = Response 200 lists /\
    boards_cards_all sample_trello board.1.1 = Response 200 cards /\
    cards <> [].
Proof.
  destruct (program_file_effects id id id sample_trello int_of_digit [])
    as (rest & Heq & _ & Heff).
  apply Heff.
  assert (rest = drop 5 (program id id id sample_trello int_of_digit []).1)
    as -> by (rewrite Heq; reflexivity).
  vm_compute. do 7 apply Exists_cons_tl. by apply Exists_cons_hd.
Defined.

(** X18.  On a board without cards the run prints the message and ends
    by [sys.exit()]: no spreadsheet and no document is written, and the
    events of the run are those of the selection and the two messages. *)
Theorem main_empty_board nfkd strftime_date strftime_datetime w int_of_str
    wsHeaders json_data t board lists :
  members_me_boards w = Response 200 json_data ->
  select_board int_of_str w
    (sorted str_ltb (fun x : board_row => x.1.2) json_data) = (t, Done board) ->
  boards_lists w board.1.1 = Response 200 lists ->
  boards_cards_all w board.1.1 = Response 200 [] ->
  main nfkd strftime_date strftime_datetime w int_of_str wsHeaders =
  (t ++ [ Print (str "Exporting board '" ++ board.1.2 ++ str "'...");
          Print (str "No Card on this Board.") ],
   Exit).
Proof.
  intros Hboards Hselect Hlists Hcards.
  by rewrite (main_steps nfkd strftime_date strftime_datetime w int_of_str
                wsHeaders json_data t board lists [] Hboards Hselect Hlists Hcards).
Qed.

Lemma main_empty_board_witness :
  main id id id
    (sample_world (Response 200 [(str "b1", str "Roadmap", str "")]) [])
    int_of_digit []
  = ([ Print (str "Exporting board 'Roadmap'...");
       Print (str "No Card on this Board.") ],
     Exit).
Proof.
  apply (main_empty_board id id id
           (sample_world (Response 200 [(str "b1", str "Roadmap", str "")]) [])
           int_of_digit [] [(str "b1", str "Roadmap", str "")] []
           (str "b1", str "Roadmap", str "") []); reflexivity.
Defined.

Section WorkbookFacts.
Variable nfkd : pystr -> pystr.
Variable strftime_date : pystr -> pystr.
Variable strftime_datetime : pystr -> pystr.
Variable w : world.
Variable boardFileName : pystr.

Lemma remove_if_exists_no_workbook p :
  Forall no_workbook (remove_if_exists w boardFileName p).1.
Proof.
  unfold remove_if_exists. destruct (raises w (Remove p)); by repeat constructor.
Qed.

Lemma download_attachments_no_workbook idShort atts status attachments :
  Forall no_workbook
    (download_attachments nfkd strftime_date w boardFileName idShort atts status
       attachments).1.
Proof.
  revert status attachments.
  induction atts as [|a atts IH]; intros status attachments; [constructor|].
  cbn [download_attachments]. cbv zeta.
  apply Forall_run_bind; [apply remove_if_exists_no_workbook|]. intros _.
  apply Forall_run_bind; [by repeat constructor|]. intros _.
  destruct (attachment_get w (attachment_url a)) as [|code content].
  - do 3 (apply Forall_run_bind; [by repeat constructor|]; intros _).
    apply IH.
  - apply Forall_run_bind; [|intros _; apply IH].
    unfold write_file. destruct (raises w _); by repeat constructor.
Qed.

Lemma export_card_no_workbook lists total ic :
  Forall no_workbook
    (export_card nfkd strftime_date strftime_datetime w boardFileName lists
       total ic).1.
Proof.
  unfold export_card.
  destruct (cards_get w (card_id ic.2)) as [|status d]; [constructor|].
  destruct (status =? 200)%Z; [|by repeat constructor].
  apply Forall_run_bind; [by repeat constructor|]. intros _.
  apply Forall_run_bind.
  { unfold card_attachments_ctx. destruct (card_attachments d); [|constructor].
    apply download_attachments_no_workbook. }
  intros attachments. cbv zeta.
  apply Forall_run_bind.
  { destruct (raises w (Render _)); constructor. }
  intros _.
  destruct (decide (str_of_bool (card_closed d) = str "False"));
    (apply Forall_run_bind; [apply remove_if_exists_no_workbook|]; intros _;
     unfold save_document; destruct (raises w (Save _)); by repeat constructor).
Qed.

Lemma for_each_no_workbook lists total ics :
  Forall no_workbook
    (for_each (export_card nfkd strftime_date strftime_datetime w boardFileName
                 lists total) ics).1.
Proof.
  induction ics as [|ic ics IH]; [constructor|].
  cbn [for_each].
  apply Forall_run_bind; [apply export_card_no_workbook|]. by intros _.
Qed.
End WorkbookFacts.




(** * The rows of the sheets and their autofilters *)

Lemma imap_rows {A B} (f : A -> B) (k : nat) (l : list A) :
  map fst (imap (fun i c => ((Z.of_nat k + Z.of_nat i)%Z, f c)) l) =
  map Z.of_nat (seq k (length l)).
Proof.
  revert k. induction l as [|x l IH]; intros k; [done|].
  rewrite imap_cons. cbn [map fst length seq]. f_equal; [lia|].
  rewrite <- IH. f_equal. apply imap_ext. intros i y _.
  unfold compose. f_equal. lia.
Qed.

(** X20.  The rows of each sheet are numbered from 0, the header row,
    without a gap, and the autofilter of the sheet ends at the last of
    them, so that it covers the header alone when the sheet has no card.
    Every card row has nine cells, in the columns 0 to 8, while the
    autofilter spans the columns 0 to 7: the ninth column has no filter. *)
Theorem autofilters_cover_rows strftime_date strftime_datetime wsHeaders lists
    cards :
  let s := write_cards strftime_date strftime_datetime wsHeaders lists cards in
  let n1 := length (filter (fun c => card_closed c = false) cards) in
  let n2 := length (filter (fun c => card_closed c = true) cards) in
  autofilters s = ((0, 0, Z.of_nat n1, 7)%Z, (0, 0, Z.of_nat n2, 7)%Z) /\
  map fst (worksheet1 s) = map Z.of_nat (seq 0 (S n1)) /\
  map fst (worksheet2 s) = map Z.of_nat (seq 0 (S n2)) /\
  Forall (fun row => length row.2 = 9%nat) (tail (worksheet1 s)) /\
  Forall (fun row => length row.2 = 9%nat) (tail (worksheet2 s)).
Proof.
  cbv zeta. unfold write_cards, autofilters. rewrite write_cards_foldl.
  cbn [worksheet1 worksheet2 worksheet1cellRow worksheet2cellRow app tail map fst].
  split; [repeat f_equal; lia|].
  change 1%Z with (Z.of_nat 1).
  rewrite !(imap_rows (card_row strftime_date strftime_datetime lists) 1).
  split; [done|]. split; [done|].
  split; apply Forall_forall; intros row Hrow;
    apply list_elem_of_lookup in Hrow as [i Hi];
    rewrite list_lookup_imap in Hi;
    destruct (_ !! i) as [c|]; cbn in Hi; try discriminate Hi;
    by injection Hi as <-.
Qed.

(** * The labels of a card *)

Lemma join_nil_iff sep (parts : list pystr) :
  Forall (fun p => p <> []) parts -> join sep parts = [] -> parts = [].
Proof.
  intros Hparts. destruct Hparts as [|p parts Hp Hrest]; [done|].
  cbn [join]. destruct parts as [|q parts].
  - intros Hj. by destruct Hp.
  - intros Hj. apply app_eq_nil in Hj as [Hj _]. by destruct Hp.
Qed.

(** X21.  The label string of a card is empty exactly when none of its
    labels has a name; the labels without a name add neither text nor a
    separator. *)
Theorem sheet_labels_empty c :
  sheet_labels c = [] <-> Forall (fun l => label_name l = []) (card_labels c).
Proof.
  unfold sheet_labels.
  assert (filter (fun n : pystr => n <> []) (map label_name (card_labels c)) = []
          <-> Forall (fun l => label_name l = []) (card_labels c)) as Hnamed.
  { induction (card_labels c) as [|l ls IH]; [done|].
    cbn [map]. rewrite (filter_cons (fun n : pystr => n <> [])), Forall_cons.
    destruct (decide (label_name l <> [])) as [Hl|Hl].
    - split; [done|]. by intros [? _].
    - rewrite IH. apply dec_stable in Hl. by split; [|intros [_ ?]]. }
  destruct (card_labels c) as [|l ls] eqn:Hlabels; [done|].
  etrans; [|exact Hnamed]. unfold pystr. split.
  - apply join_nil_iff.
    apply Forall_forall. intros n Hn. by apply list_elem_of_filter in Hn as [Hn _].
  - by intros ->.
Qed.

Lemma sheet_labels_empty_witness :
  sheet_labels sample_archived = [] /\ sheet_labels sample_card <> [].
Proof.
  split.
  - apply (proj2 (sheet_labels_empty sample_archived)). constructor.
  - intros H. apply (proj1 (sheet_labels_empty sample_card)) in H.
    apply Forall_cons in H as [_ H]. apply Forall_cons in H as [H _].
    discriminate H.
Defined.

